(** * Dependency-graph construction and threat classification of
      scripts/security-scan.js (scanner version 2.0.0)

    A shallow embedding of the lock decoders, the graph builder and the
    classifier of the scanner, together with the properties the specification
    states about them; then of the command line, the manifest, the loop
    over the packages, the reports and the exit code, with the properties
    the code itself shows.

    Modelling conventions.
    - A JavaScript string is a [string]; a character stands for one code unit
      below 256, and the white space of [trim] and of the class [\s] is the
      part of the ECMAScript white-space set that lies in that range.
    - A plain JavaScript object used as a dictionary is the association list
      of its own properties in the enumeration order of [Object.entries].
      An absent (undefined) property is [None].  A read under a fixed key
      that [Object.prototype] does not define is an own-property lookup; a
      read under a computed key, the name of a package, goes on to
      [Object.prototype].
    - A JavaScript [Map] is an association list in insertion order whose
      [set] overwrites in place.
    - A thrown exception is an explicit [Throw] or [Thrown] result; leaving
      the process with [process.exit] is a result of its own, [Exited].
    - The texts the scanner prints for a reader are not modelled; the JSON
      document, the report file and the commands it runs are. *)

From Stdlib Require Import String Ascii List Bool Arith NArith Lia.
From Stdlib Require Import Numbers.DecimalString.
Import ListNotations.
Open Scope string_scope.
Open Scope list_scope.

(* ================================================================== *)
(** ** JavaScript strings *)
(* ================================================================== *)

Module JsString.

(** [s.startsWith(p)] *)
Definition startsWith (s p : string) : bool := String.prefix p s.

(** The last [n] characters dropped: [s.slice(0, -n)] for [n > 0]. *)
Definition dropLast (n : nat) (s : string) : string :=
  String.substring 0 (String.length s - n) s.

(** [s.endsWith(p)] *)
Definition endsWith (s p : string) : bool :=
  (String.length p <=? String.length s)%nat &&
  String.eqb (String.substring (String.length s - String.length p)
                               (String.length p) s) p.

(** White space and line terminators with a code unit below 256:
    TAB, LF, VT, FF, CR, SPACE and NO-BREAK SPACE. *)
Definition is_ws (c : ascii) : bool :=
  let n := nat_of_ascii c in
  ((9 <=? n)%nat && (n <=? 13)%nat) || (n =? 32)%nat || (n =? 160)%nat.

Fixpoint trimStart (s : string) : string :=
  match s with
  | String c s' => if is_ws c then trimStart s' else s
  | EmptyString => EmptyString
  end.

Fixpoint trimEnd (s : string) : string :=
  match s with
  | EmptyString => EmptyString
  | String c s' =>
      match trimEnd s' with
      | EmptyString => if is_ws c then EmptyString else String c EmptyString
      | t => String c t
      end
  end.

(** [s.trim()] *)
Definition trim (s : string) : string := trimEnd (trimStart s).

(** [s.split(sep)] for a non-empty separator: the separator is looked for
    from left to right, matches do not overlap.  [cur] is the piece being
    read, [skip] the number of separator characters still to pass over. *)
Fixpoint split_aux (sep s cur : string) (skip : nat) : list string :=
  match s with
  | EmptyString => [cur]
  | String c s' =>
      match skip with
      | S n => split_aux sep s' cur n
      | O =>
          if String.prefix sep s
          then cur :: split_aux sep s' EmptyString (String.length sep - 1)
          else split_aux sep s' (cur ++ String c EmptyString) 0
      end
  end.

Definition split (sep s : string) : list string :=
  split_aux sep s EmptyString 0.

(** [arr.includes(x)] on an array of strings. *)
Definition includes (l : list string) (x : string) : bool :=
  existsb (String.eqb x) l.

(** [arr.slice(0, -1)] *)
Definition allButLast {A} (l : list A) : list A := removelast l.

(** [v || d] for a string-or-undefined [v]: the empty string is falsy. *)
Definition orDefault (v : option string) (d : string) : string :=
  match v with
  | Some EmptyString | None => d
  | Some s => s
  end.

End JsString.

(* ================================================================== *)
(** ** Regular expressions *)
(* ================================================================== *)

(** The fragment of ECMAScript regular expressions the scanner uses:
    character classes, sequencing, greedy [?] on a sub-expression, greedy
    [*] and [+] on a character class, capture groups and the end anchor.
    Matching is by backtracking in the priority order of the language, so
    the first success is the match JavaScript reports. *)
Module Regex.

Definition charclass := ascii -> bool.

Inductive regex : Type :=
| Eps
| Chr (p : charclass)
| Seq (r1 r2 : regex)
| Opt (r : regex)
| Star (p : charclass)
| Group (i : nat) (r : regex)
| Eol.

Definition Plus (p : charclass) : regex := Seq (Chr p) (Star p).

Definition only (c : ascii) : charclass := Ascii.eqb c.

(** A character class given by the list of its members, and its negation. *)
Definition oneOf (cs : string) : charclass :=
  fun c => existsb (Ascii.eqb c) (list_ascii_of_string cs).
Definition noneOf (cs : string) : charclass := fun c => negb (oneOf cs c).

(** A negated class that also excludes [\s]. *)
Definition noneOfWs (cs : string) : charclass :=
  fun c => negb (oneOf cs c || JsString.is_ws c).

Fixpoint Lit (s : string) : regex :=
  match s with
  | EmptyString => Eps
  | String c s' => Seq (Chr (only c)) (Lit s')
  end.

Definition captures := list (nat * string).

Definition capture (i : nat) (cs : captures) : option string :=
  match find (fun p => Nat.eqb (fst p) i) cs with
  | Some p => Some (snd p)
  | None => None
  end.

(** The part of [s] read when [rest] is what remains of it. *)
Definition consumed (s rest : string) : string :=
  String.substring 0 (String.length s - String.length rest) s.

Section Matcher.
Context {A : Type}.

Fixpoint star_m (p : charclass) (s : string) (k : string -> option A)
  : option A :=
  match s with
  | String c s' =>
      if p c
      then match star_m p s' k with
           | Some r => Some r
           | None => k s
           end
      else k s
  | EmptyString => k s
  end.

Fixpoint rmatch (r : regex) (s : string) (cs : captures)
         (k : string -> captures -> option A) : option A :=
  match r with
  | Eps => k s cs
  | Chr p =>
      match s with
      | String c s' => if p c then k s' cs else None
      | EmptyString => None
      end
  | Seq r1 r2 => rmatch r1 s cs (fun s1 cs1 => rmatch r2 s1 cs1 k)
  | Opt r' =>
      match rmatch r' s cs k with
      | Some x => Some x
      | None => k s cs
      end
  | Star p => star_m p s (fun s' => k s' cs)
  | Group i r' =>
      rmatch r' s cs (fun s' cs' => k s' ((i, consumed s s') :: cs'))
  | Eol =>
      match s with
      | EmptyString => k s cs
      | String _ _ => None
      end
  end.
End Matcher.

(** A match that starts at the first character of [s]: what remains after
    it, and the groups. *)
Definition exec_at (r : regex) (s : string) : option (string * captures) :=
  rmatch r s [] (fun rest cs => Some (rest, cs)).

(** The leftmost match, [r.exec(s)] for a pattern without the [g] flag. *)
Fixpoint search (r : regex) (s : string) : option (string * captures) :=
  match exec_at r s with
  | Some m => Some m
  | None =>
      match s with
      | String _ s' => search r s'
      | EmptyString => None
      end
  end.

(** [s.matchAll(r)] for a pattern with the [g] flag: the groups of the
    successive matches.  After a match the search resumes where it ended,
    one character further when the match was empty. *)
Fixpoint matchAll_from (r : regex) (s : string) (skip : nat)
  : list captures :=
  match skip with
  | S n =>
      match s with
      | String _ s' => matchAll_from r s' n
      | EmptyString => []
      end
  | O =>
      match exec_at r s with
      | Some (rest, cs) =>
          cs :: match s with
                | String _ s' =>
                    matchAll_from r s'
                      (String.length s - String.length rest - 1)
                | EmptyString => []
                end
      | None =>
          match s with
          | String _ s' => matchAll_from r s' 0
          | EmptyString => []
          end
      end
  end.

Definition matchAll (r : regex) (s : string) : list captures :=
  matchAll_from r s 0.

(** [s.replace(/[cs]/g, '')]: every character of the class removed. *)
Fixpoint removeAll (p : charclass) (s : string) : string :=
  match s with
  | EmptyString => EmptyString
  | String c s' => if p c then removeAll p s' else String c (removeAll p s')
  end.

(** [s.replace(r, '')] for a pattern anchored at the start of the string:
    the match, when there is one, is cut off the front. *)
Definition removeAtStart (r : regex) (s : string) : string :=
  match exec_at r s with
  | Some (rest, _) => rest
  | None => s
  end.

End Regex.

(* ================================================================== *)
(** ** Exceptions *)
(* ================================================================== *)

Module Js.

(** The exceptions of the scanner: the errors of the language, and the
    error of a file-system or child-process call that fails. *)
Inductive error : Type :=
| SyntaxError
| TypeError
| ReferenceError (name : string)
| SystemError.

(** How a call ends. *)
Inductive completion (A : Type) : Type :=
| Normal (a : A)
| Throw (e : error).
Arguments Normal {A}.
Arguments Throw {A}.

(** The rest of a function body after a call that can throw. *)
Definition andThen {A B} (c : completion A) (k : A -> completion B)
  : completion B :=
  match c with
  | Normal a => k a
  | Throw e => Throw e
  end.

(** A computation over a mutable object of type [S] that can throw; what it
    did to the object before throwing stays done. *)
Definition M (S A : Type) : Type := S -> S * completion A.

Definition ret {S A} (a : A) : M S A := fun s => (s, Normal a).

Definition throw {S A} (e : error) : M S A := fun s => (s, Throw e).

Definition bind {S A B} (c : M S A) (k : A -> M S B) : M S B :=
  fun s =>
    match c s with
    | (s', Normal a) => k a s'
    | (s', Throw e) => (s', Throw e)
    end.

(** [try { c } catch (error) { handler(error) }] *)
Definition tryCatch {S A} (c : M S A) (handler : error -> M S A) : M S A :=
  fun s =>
    match c s with
    | (s', Normal a) => (s', Normal a)
    | (s', Throw e) => handler e s'
    end.

(** [for (const x of xs) { body(x) }] *)
Fixpoint forEach {S X} (xs : list X) (body : X -> M S unit) : M S unit :=
  match xs with
  | [] => ret tt
  | x :: rest => bind (body x) (fun _ => forEach rest body)
  end.

(** A statement that changes the object and cannot throw. *)
Definition modify {S} (f : S -> S) : M S unit := fun s => (f s, Normal tt).

End Js.

Notation "'do' x '<-' c 'in' k" := (Js.bind c (fun x => k))
  (at level 10, x name, c at level 100, k at level 200, only parsing).

Notation "'val' x '<-' c 'in' k" := (Js.andThen c (fun x => k))
  (at level 10, x name, c at level 100, k at level 200, only parsing).

(* ================================================================== *)
(** ** Plain objects used as dictionaries *)
(* ================================================================== *)

(** The properties every plain object inherits.  [Object.prototype] is
    taken as the language defines it: the scanner adds nothing to it. *)
Module Proto.

(** The functions of [Object.prototype]. *)
Inductive method : Type :=
| Constructor
| DefineGetter
| DefineSetter
| HasOwnProperty
| LookupGetter
| LookupSetter
| IsPrototypeOf
| PropertyIsEnumerable
| ToString
| ValueOf
| ToLocaleString.

(** What the read of an inherited property gives: one of the functions,
    or, for [__proto__], the prototype itself. *)
Inductive builtin : Type :=
| Function (m : method)
| ObjectPrototype.

(** The property [key] of [Object.prototype], undefined for every other
    key. *)
Definition inherited (key : string) : option builtin :=
  if String.eqb key "constructor" then Some (Function Constructor)
  else if String.eqb key "__defineGetter__" then Some (Function DefineGetter)
  else if String.eqb key "__defineSetter__" then Some (Function DefineSetter)
  else if String.eqb key "hasOwnProperty" then Some (Function HasOwnProperty)
  else if String.eqb key "__lookupGetter__" then Some (Function LookupGetter)
  else if String.eqb key "__lookupSetter__" then Some (Function LookupSetter)
  else if String.eqb key "isPrototypeOf" then Some (Function IsPrototypeOf)
  else if String.eqb key "propertyIsEnumerable"
  then Some (Function PropertyIsEnumerable)
  else if String.eqb key "toString" then Some (Function ToString)
  else if String.eqb key "valueOf" then Some (Function ValueOf)
  else if String.eqb key "__proto__" then Some ObjectPrototype
  else if String.eqb key "toLocaleString" then Some (Function ToLocaleString)
  else None.

(** [f.length], the number of parameters a function declares. *)
Definition arity (m : method) : nat :=
  match m with
  | Constructor => 1
  | DefineGetter | DefineSetter => 2
  | HasOwnProperty | LookupGetter | LookupSetter => 1
  | IsPrototypeOf | PropertyIsEnumerable => 1
  | ToString | ValueOf | ToLocaleString => 0
  end.

(** [b.length]; [Object.prototype] has no such property. *)
Definition length (b : builtin) : option nat :=
  match b with
  | Function m => Some (arity m)
  | ObjectPrototype => None
  end.

(** A value of the program: data of type [V], or a value inherited from
    [Object.prototype]. *)
Inductive value (V : Type) : Type :=
| Data (v : V)
| Builtin (b : builtin).
Arguments Data {V}.
Arguments Builtin {V}.

End Proto.

Module Obj.

Definition t (V : Type) := list (string * V).

(** The own property [k], or undefined: [o.k] and [o[k]] for a key that
    [Object.prototype] does not define. *)
Fixpoint get {V} (k : string) (o : t V) : option V :=
  match o with
  | [] => None
  | (k', v) :: rest => if String.eqb k k' then Some v else get k rest
  end.

(** [o[k]] for a key that is computed: the own property, or the one
    inherited from [Object.prototype], or undefined. *)
Definition read {V} (k : string) (o : t V) : option (Proto.value V) :=
  match get k o with
  | Some v => Some (Proto.Data v)
  | None =>
      match Proto.inherited k with
      | Some b => Some (Proto.Builtin b)
      | None => None
      end
  end.

(** [Object.keys(o)] *)
Definition keys {V} (o : t V) : list string := map fst o.

(** The number a string of decimal digits stands for. *)
Fixpoint digits (s : string) (acc : N) : option N :=
  match s with
  | EmptyString => Some acc
  | String c s' =>
      let n := nat_of_ascii c in
      if ((48 <=? n) && (n <=? 57))%nat
      then digits s' (10 * acc + N.of_nat (n - 48))%N
      else None
  end.

(** The array index a key is: the canonical decimal form of an integer
    from 0 to 2^32 - 2. *)
Definition arrayIndex (key : string) : option N :=
  match key with
  | EmptyString => None
  | String "0" EmptyString => Some 0%N
  | String "0" _ => None
  | _ =>
      match digits key 0 with
      | Some n => if (n <? 4294967295)%N then Some n else None
      | None => None
      end
  end.

(** The place of a new property whose key is the array index [i]: the
    array indices come first, in ascending order. *)
Fixpoint insertIndex {V} (i : N) (k : string) (v : V) (o : t V) : t V :=
  match o with
  | [] => [(k, v)]
  | (k', v') :: rest =>
      match arrayIndex k' with
      | Some j =>
          if (i <? j)%N then (k, v) :: o
          else (k', v') :: insertIndex i k v rest
      | None => (k, v) :: o
      end
  end.

(** The value of an own property replaced; the property keeps its
    place. *)
Fixpoint update {V} (k : string) (v : V) (o : t V) : t V :=
  match o with
  | [] => []
  | (k', v') :: rest =>
      if String.eqb k k' then (k, v) :: rest else (k', v') :: update k v rest
  end.

(** The own property [k] created or overwritten, as an object literal and
    an object spread do: a new key that is an array index goes among the
    array indices, every other new key to the end. *)
Definition define {V} (k : string) (v : V) (o : t V) : t V :=
  match get k o with
  | Some _ => update k v o
  | None =>
      match arrayIndex k with
      | Some i => insertIndex i k v o
      | None => o ++ [(k, v)]
      end
  end.

End Obj.

(* ================================================================== *)
(** ** The threat database, the configuration and the issue record *)
(* ================================================================== *)

Module ProtestTier.
Record t := mk {
  packages : option (list string);
  details : option (Obj.t string)
}.
End ProtestTier.

Module Protestware.
Record t := mk {
  high : option ProtestTier.t;
  medium : option ProtestTier.t;
  low : option ProtestTier.t
}.
Definition empty : t := mk None None None.
End Protestware.

Module KnownMalicious.
Record t := mk {
  confirmed : option (list string);
  typosquatting : option (list string);
  credentialTheft : option (list string);
  cryptoMalware : option (list string);
  protestware : option Protestware.t
}.
Definition empty : t := mk None None None None None.
End KnownMalicious.

Module Campaign.
Record t := mk {
  name : option string;
  severity : option string;
  description : option string;
  packages : option (list string);
  affectedVersions : option (Obj.t (list string))
}.
End Campaign.

Module TrustedPackages.
Record t := mk { packages : option (list string) }.
End TrustedPackages.

Module ThreatDatabase.
Record t := mk {
  trustedPackages : option TrustedPackages.t;
  knownMalicious : option KnownMalicious.t;
  campaigns : option (Obj.t Campaign.t)
}.
End ThreatDatabase.

(** The part of the configuration file the classifier reads. *)
Module Config.
Record t := mk {
  ignore : option (list string);
  trustedPackages : option (list string)
}.
Definition empty : t := mk None None.
End Config.

(** The dependency metadata of a node of the graph; [V] is the type of the
    version value. *)
Module DepInfo.
Record t (V : Type) := mk {
  version : V;
  isDirect : bool;
  isTransitive : bool;
  dependencyChain : list string
}.
Arguments mk {V}.
Arguments version {V}.
Arguments isDirect {V}.
Arguments isTransitive {V}.
Arguments dependencyChain {V}.
End DepInfo.

(** An issue object; [V] is the type of the version value.  A property the
    object literal does not set is [None] ([false] for the [safeVersion]
    marker, which is only ever set to true).  The reason and the affected
    versions can be values read from an object of the database under the
    name of the package, and so inherited ones. *)
Module Issue.
Record t (V : Type) := mk {
  package : string;
  version : V;
  isDirect : option bool;
  isTransitive : option bool;
  dependencyChain : option (list string);
  severity : string;
  type : string;
  campaign : option string;
  reason : Proto.value string;
  action : string;
  affectedVersions : option (Proto.value (list string));
  safeVersion : bool
}.
Arguments mk {V}.
Arguments package {V}.
Arguments version {V}.
Arguments isDirect {V}.
Arguments isTransitive {V}.
Arguments dependencyChain {V}.
Arguments severity {V}.
Arguments type {V}.
Arguments campaign {V}.
Arguments reason {V}.
Arguments action {V}.
Arguments affectedVersions {V}.
Arguments safeVersion {V}.
End Issue.

(** What [checkPackage] returns: [{ ignored: true }], [{ trusted: true }],
    an issue object, or [null]. *)
Inductive CheckResult (V : Type) : Type :=
| Ignored
| Trusted
| Found (issue : Issue.t V)
| Clean.
Arguments Ignored {V}.
Arguments Trusted {V}.
Arguments Found {V}.
Arguments Clean {V}.

(* ================================================================== *)
(** ** The classifier *)
(* ================================================================== *)

Module Classifier.
Import JsString Regex.

(** [l || []] *)
Definition orEmpty {A} (l : option (list A)) : list A :=
  match l with Some x => x | None => [] end.

(** [l?.includes(x)] as a condition: an absent list gives undefined, which
    is falsy. *)
Definition optIncludes (l : option (list string)) (x : string) : bool :=
  match l with Some xs => includes xs x | None => false end.

(** Check if a package matches a pattern (supports wildcards). *)
Definition matchesPattern (packageName pattern : string) : bool :=
  if endsWith pattern "/*"
  then
    let scope := dropLast 2 pattern in
    startsWith packageName (scope ++ "/")
  else String.eqb packageName pattern.

(** Check if a package is in the trusted list. *)
Definition isTrusted (packageName : string) (db : ThreatDatabase.t)
           (config : Config.t) : bool :=
  let trusted :=
    orEmpty (match ThreatDatabase.trustedPackages db with
             | Some tp => TrustedPackages.packages tp
             | None => None
             end)
    ++ orEmpty (Config.trustedPackages config) in
  existsb (fun pattern => matchesPattern packageName pattern) trusted.

(** Check if a package should be ignored; [ignoreList] is the list parsed
    from the [--ignore] command-line option. *)
Definition isIgnored (ignoreList : list string) (packageName : string)
           (config : Config.t) : bool :=
  let ignored := ignoreList ++ orEmpty (Config.ignore config) in
  existsb (fun pattern => matchesPattern packageName pattern) ignored.

(** [/^[\^~>=<]*/g] *)
Definition rangePrefix : regex := Star (oneOf "^~>=<").

(** [version.replace(/^[\^~>=<]*/g, '').split(' ')[0]] on a string. *)
Definition cleanVersion (version : string) : string :=
  hd EmptyString (split " " (removeAtStart rangePrefix version)).

(** [affectedVersions.length === 0] on what the database has under the name
    of the package: an empty list, or an inherited function that declares
    no parameter. *)
Definition lengthIsZero (affectedVersions : Proto.value (list string))
  : bool :=
  match affectedVersions with
  | Proto.Data [] => true
  | Proto.Data (_ :: _) => false
  | Proto.Builtin b =>
      match Proto.length b with
      | Some 0 => true
      | _ => false
      end
  end.

(** [affectedVersions.includes(cleanVersion)]: only a list has the
    method. *)
Definition versionsInclude (affectedVersions : Proto.value (list string))
           (cleanVersion : string) : Js.completion bool :=
  match affectedVersions with
  | Proto.Data versions => Js.Normal (includes versions cleanVersion)
  | Proto.Builtin _ => Js.Throw Js.TypeError
  end.

(** [tier?.packages?.includes(packageName)] *)
Definition inTier (tier : option ProtestTier.t) (packageName : string) : bool :=
  match tier with
  | Some t => optIncludes (ProtestTier.packages t) packageName
  | None => false
  end.

(** [tier.details?.[packageName] || fallback]: what the details have under
    the name of the package is the reason when it is truthy. *)
Definition tierDetails (tier : option ProtestTier.t)
           (packageName fallback : string) : Proto.value string :=
  match tier with
  | Some t =>
      match ProtestTier.details t with
      | Some d =>
          match Obj.read packageName d with
          | Some (Proto.Data EmptyString) | None => Proto.Data fallback
          | Some details => details
          end
      | None => Proto.Data fallback
      end
  | None => Proto.Data fallback
  end.

(** [campaign.affectedVersions?.[packageName]] *)
Definition campaignVersions (campaign : Campaign.t) (packageName : string)
  : option (Proto.value (list string)) :=
  match Campaign.affectedVersions campaign with
  | Some av => Obj.read packageName av
  | None => None
  end.

Section Versions.
Context {V : Type}.
(** The version the classifier is given is a value of any kind: [text v]
    is the string [v] is, when it is one.  The methods of strings are
    missing on every other value. *)
Variable text : V -> option string.

(** Check if a version matches affected versions. *)
Definition isVersionAffected (version : V)
           (affectedVersions : option (Proto.value (list string)))
  : Js.completion bool :=
  match affectedVersions with
  | None => Js.Normal true
  | Some listed =>
      if lengthIsZero listed then Js.Normal true
      else
        (* Clean version string *)
        match text version with
        | Some s => versionsInclude listed (cleanVersion s)
        | None => Js.Throw Js.TypeError
        end
  end.

(** Base issue properties; the remaining properties are placeholders that
    every issue built from it overwrites. *)
Definition baseIssue {W} (packageName : string) (version : V)
           (depInfo : option (DepInfo.t W)) : Issue.t V :=
  {| Issue.package := packageName;
     Issue.version := version;
     Issue.isDirect :=
       Some (match depInfo with Some d => DepInfo.isDirect d | None => true end);
     Issue.isTransitive :=
       Some (match depInfo with
             | Some d => DepInfo.isTransitive d
             | None => false
             end);
     Issue.dependencyChain :=
       Some (match depInfo with
             | Some d => DepInfo.dependencyChain d
             | None => []
             end);
     Issue.severity := EmptyString;
     Issue.type := EmptyString;
     Issue.campaign := None;
     Issue.reason := Proto.Data EmptyString;
     Issue.action := EmptyString;
     Issue.affectedVersions := None;
     Issue.safeVersion := false |}.

(** [{ ...base, severity, type, reason, action }] *)
Definition withFinding (base : Issue.t V) (severity type : string)
           (reason : Proto.value string) (action : string) : Issue.t V :=
  {| Issue.package := Issue.package base;
     Issue.version := Issue.version base;
     Issue.isDirect := Issue.isDirect base;
     Issue.isTransitive := Issue.isTransitive base;
     Issue.dependencyChain := Issue.dependencyChain base;
     Issue.severity := severity;
     Issue.type := type;
     Issue.campaign := Issue.campaign base;
     Issue.reason := reason;
     Issue.action := action;
     Issue.affectedVersions := Issue.affectedVersions base;
     Issue.safeVersion := Issue.safeVersion base |}.

(** [{ ...issue, campaign, affectedVersions, safeVersion }] *)
Definition withCampaign (issue : Issue.t V) (campaignId : string)
           (affectedVersions : option (Proto.value (list string)))
           (safe : bool) : Issue.t V :=
  {| Issue.package := Issue.package issue;
     Issue.version := Issue.version issue;
     Issue.isDirect := Issue.isDirect issue;
     Issue.isTransitive := Issue.isTransitive issue;
     Issue.dependencyChain := Issue.dependencyChain issue;
     Issue.severity := Issue.severity issue;
     Issue.type := Issue.type issue;
     Issue.campaign := Some campaignId;
     Issue.reason := Issue.reason issue;
     Issue.action := Issue.action issue;
     Issue.affectedVersions := affectedVersions;
     Issue.safeVersion := safe |}.

(** The issue built without the base properties, for a version listed in a
    campaign's [affectedVersions] when the package is not in the campaign's
    [packages]. *)
Definition versionIssue (packageName : string) (version : V)
           (campaignId : string) (campaign : Campaign.t)
           (affectedVersions : Proto.value (list string)) : Issue.t V :=
  let label := orDefault (Campaign.name campaign) campaignId in
  {| Issue.package := packageName;
     Issue.version := version;
     Issue.isDirect := None;
     Issue.isTransitive := None;
     Issue.dependencyChain := None;
     Issue.severity := "critical";
     Issue.type := label;
     Issue.campaign := Some campaignId;
     Issue.reason :=
       Proto.Data
         ("This specific version was compromised in the " ++ label
          ++ " attack")%string;
     Issue.action := "UPDATE TO SAFE VERSION IMMEDIATELY";
     Issue.affectedVersions := Some affectedVersions;
     Issue.safeVersion := false |}.

(** [{ ...baseIssue, severity: 'low', ..., safeVersion: true }] *)
Definition safeVersionIssue (base : Issue.t V) (campaignId : string)
           (campaign : Campaign.t)
           (affectedVersions : option (Proto.value (list string)))
  : Issue.t V :=
  withCampaign
    (withFinding base "low"
       (orDefault (Campaign.name campaign) campaignId)
       (Proto.Data
          "Package was part of attack campaign but your version appears safe")
       "VERIFY - Ensure you are on a safe version")
    campaignId affectedVersions true.

(** [{ ...baseIssue, severity: campaign.severity || 'high', ... }] *)
Definition campaignIssue (base : Issue.t V) (campaignId : string)
           (campaign : Campaign.t)
           (affectedVersions : option (Proto.value (list string)))
  : Issue.t V :=
  withCampaign
    (withFinding base
       (orDefault (Campaign.severity campaign) "high")
       (orDefault (Campaign.name campaign) campaignId)
       (Proto.Data (orDefault (Campaign.description campaign)
                              "Part of known attack campaign"))
       "CHECK VERSION AND UPDATE")
    campaignId affectedVersions false.

(** [affectedVersions && !isVersionAffected(version, affectedVersions)]:
    undefined is falsy, a list and an inherited value are not. *)
Definition versionIsSafe (version : V)
           (affectedVersions : option (Proto.value (list string)))
  : Js.completion bool :=
  match affectedVersions with
  | None => Js.Normal false
  | Some _ =>
      val affected <- isVersionAffected version affectedVersions in
      Js.Normal (negb affected)
  end.

(** The loop over [Object.entries(campaigns)]: the first campaign that
    returns decides. *)
Fixpoint checkCampaigns (base : Issue.t V) (packageName : string)
         (version : V) (campaigns : Obj.t Campaign.t)
  : Js.completion (option (Issue.t V)) :=
  match campaigns with
  | [] => Js.Normal None
  | (campaignId, campaign) :: rest =>
      let affectedVersions := campaignVersions campaign packageName in
      (* Check if package is in campaign's packages list *)
      if optIncludes (Campaign.packages campaign) packageName
      then
        val safe <- versionIsSafe version affectedVersions in
        if safe
        then Js.Normal
               (Some (safeVersionIssue base campaignId campaign
                                       affectedVersions))
        else Js.Normal
               (Some (campaignIssue base campaignId campaign
                                    affectedVersions))
      else
        (* Check affectedVersions for version-specific compromises *)
        match affectedVersions with
        | Some listed =>
            val affected <- isVersionAffected version affectedVersions in
            if affected
            then Js.Normal
                   (Some (versionIssue packageName version campaignId
                                       campaign listed))
            else checkCampaigns base packageName version rest
        | None => checkCampaigns base packageName version rest
        end
  end.

(** Check a package against the threat database. *)
Definition checkPackage {W} (ignoreList : list string)
           (packageName : string) (version : V) (db : ThreatDatabase.t)
           (depInfo : option (DepInfo.t W)) (config : Config.t)
  : Js.completion (CheckResult V) :=
  if isIgnored ignoreList packageName config then Js.Normal Ignored
  else if isTrusted packageName db config then Js.Normal Trusted
  else
    let malicious :=
      match ThreatDatabase.knownMalicious db with
      | Some m => m
      | None => KnownMalicious.empty
      end in
    let base := baseIssue packageName version depInfo in
    if optIncludes (KnownMalicious.confirmed malicious) packageName then
      Js.Normal
        (Found (withFinding base "critical" "Confirmed Malicious"
                  (Proto.Data "This package has been confirmed as malicious")
                  "REMOVE IMMEDIATELY"))
    else if optIncludes (KnownMalicious.typosquatting malicious) packageName then
      Js.Normal
        (Found (withFinding base "critical" "Typosquatting"
                  (Proto.Data
                     "This package name is a typosquatting variant of a popular package")
                  "REMOVE IMMEDIATELY - Check you have the correct package name"))
    else if optIncludes (KnownMalicious.credentialTheft malicious) packageName then
      Js.Normal
        (Found (withFinding base "critical" "Credential Theft"
                  (Proto.Data
                     "This package has been found to steal credentials")
                  "REMOVE IMMEDIATELY - Rotate all credentials"))
    else if optIncludes (KnownMalicious.cryptoMalware malicious) packageName then
      Js.Normal
        (Found (withFinding base "critical" "Crypto Malware"
                  (Proto.Data
                     "This package contains cryptocurrency mining or wallet-stealing malware")
                  "REMOVE IMMEDIATELY - Check for unauthorized transactions"))
    else
      let protestware :=
        match KnownMalicious.protestware malicious with
        | Some p => p
        | None => Protestware.empty
        end in
      if inTier (Protestware.high protestware) packageName then
        Js.Normal
          (Found (withFinding base "high" "Protestware (Destructive)"
                    (tierDetails (Protestware.high protestware) packageName
                                 "Destructive protestware")
                    "REMOVE - Can delete or corrupt files on affected systems"))
      else if inTier (Protestware.medium protestware) packageName then
        Js.Normal
          (Found (withFinding base "medium" "Protestware (DoS)"
                    (tierDetails (Protestware.medium protestware) packageName
                                 "DoS protestware")
                    "REMOVE - Causes application hang or crash. Use alternative package."))
      else if inTier (Protestware.low protestware) packageName then
        Js.Normal
          (Found (withFinding base "low" "Protestware (Message)"
                    (tierDetails (Protestware.low protestware) packageName
                                 "Protestware with political message")
                    "OPTIONAL - No malicious behavior, contains political message only"))
      else
        (* Check campaigns with version matching *)
        val found <- checkCampaigns base packageName version
                       (orEmpty (ThreatDatabase.campaigns db)) in
        match found with
        | Some issue => Js.Normal (Found issue)
        | None => Js.Normal Clean
        end.

End Versions.

End Classifier.

(* ================================================================== *)
(** ** JavaScript maps *)
(* ================================================================== *)

Module JsMap.

Definition t (V : Type) := list (string * V).

Definition empty {V} : t V := [].

(** [m.get(k)] *)
Definition get {V} (k : string) (m : t V) : option V := Obj.get k m.

(** [m.has(k)] *)
Definition has {V} (k : string) (m : t V) : bool :=
  match get k m with Some _ => true | None => false end.

(** [m.set(k, v)]: a new key goes to the end, a known key keeps its place. *)
Fixpoint set {V} (k : string) (v : V) (m : t V) : t V :=
  match m with
  | [] => [(k, v)]
  | (k', v') :: rest =>
      if String.eqb k k' then (k, v) :: rest else (k', v') :: set k v rest
  end.

(** [m.size] *)
Definition size {V} (m : t V) : nat := List.length m.

Definition keys {V} (m : t V) : list string := map fst m.

End JsMap.

(* ================================================================== *)
(** ** The dependency graph builder *)
(* ================================================================== *)

(** What a lock decoder records for a package name. *)
Module LockEntry.
Record t (V : Type) := mk {
  version : V;
  isTransitive : bool;
  dependencyChain : list string
}.
Arguments mk {V}.
Arguments version {V}.
Arguments isTransitive {V}.
Arguments dependencyChain {V}.
End LockEntry.

Module Graph.

Section Merge.
Context {V : Type}.

(** The node of a direct dependency. *)
Definition directNode (version : V) : DepInfo.t V :=
  {| DepInfo.version := version;
     DepInfo.isDirect := true;
     DepInfo.isTransitive := false;
     DepInfo.dependencyChain := [] |}.

(** The node of a package only the lock file knows. *)
Definition transitiveNode (info : LockEntry.t V) : DepInfo.t V :=
  {| DepInfo.version := LockEntry.version info;
     DepInfo.isDirect := false;
     DepInfo.isTransitive := true;
     DepInfo.dependencyChain := LockEntry.dependencyChain info |}.

(** [existing.version = version] *)
Definition withVersion (existing : DepInfo.t V) (version : V) : DepInfo.t V :=
  {| DepInfo.version := version;
     DepInfo.isDirect := DepInfo.isDirect existing;
     DepInfo.isTransitive := DepInfo.isTransitive existing;
     DepInfo.dependencyChain := DepInfo.dependencyChain existing |}.

(** First loop of [mergeDependencies]: add direct dependencies. *)
Definition addDirect (merged : JsMap.t (DepInfo.t V)) (entry : string * V)
  : JsMap.t (DepInfo.t V) :=
  JsMap.set (fst entry) (directNode (snd entry)) merged.

(** Second loop: add transitive dependencies from the lock file.  The
    node found under a known name is updated in place. *)
Definition addLocked (merged : JsMap.t (DepInfo.t V))
           (entry : string * LockEntry.t V) : JsMap.t (DepInfo.t V) :=
  let (name, info) := entry in
  match JsMap.get name merged with
  | None => JsMap.set name (transitiveNode info) merged
  | Some existing =>
      JsMap.set name (withVersion existing (LockEntry.version info)) merged
  end.

(** Merge direct dependencies with transitive dependencies from lock
    file. *)
Definition mergeDependencies (directDeps : Obj.t V)
           (lockPackages : JsMap.t (LockEntry.t V))
  : JsMap.t (DepInfo.t V) :=
  fold_left addLocked lockPackages (fold_left addDirect directDeps JsMap.empty).
End Merge.

End Graph.

(* ================================================================== *)
(** ** Lock decoders: pnpm-lock.yaml and yarn.lock *)
(* ================================================================== *)

Declare Scope regex_scope.
Delimit Scope regex_scope with re.
Infix ";;" := Regex.Seq (at level 61, right associativity) : regex_scope.

Module Chars.
Definition LF : ascii := "010"%char.
Definition TAB : ascii := "009"%char.
Definition DQUOTE : ascii := "034"%char.
Definition newline : string := String LF EmptyString.
Definition tab : string := String TAB EmptyString.
(** The two quote characters, ['] and the double quote. *)
Definition quotes : string := String DQUOTE "'".
End Chars.

(** The entry every string-dialect decoder stores. *)
Definition lockedAt (version : string) : LockEntry.t string :=
  {| LockEntry.version := version;
     LockEntry.isTransitive := true;
     LockEntry.dependencyChain := [] |}.

Module Pnpm.
Import JsString Regex Chars.
Open Scope regex_scope.

(** [/^['\x22]?\/?((?:@[^@/]+\/)?[^@:]+)@([^:']+)['\x22]?:?\s*$/], the
    double quote written [\x22] here and below. *)
Definition packageRe : regex :=
  Opt (Chr (oneOf quotes)) ;;
  Opt (Chr (only "/")) ;;
  Group 1 (Opt (Chr (only "@") ;; Plus (noneOf "@/") ;; Chr (only "/")) ;;
           Plus (noneOf "@:")) ;;
  Chr (only "@") ;;
  Group 2 (Plus (noneOf ":'")) ;;
  Opt (Chr (oneOf quotes)) ;;
  Opt (Chr (only ":")) ;;
  Star is_ws ;;
  Eol.

(** [/^['\x22]?((?:@[^@/]+\/)?[^@(]+)@([^:'(]+)/] *)
Definition snapshotRe : regex :=
  Opt (Chr (oneOf quotes)) ;;
  Group 1 (Opt (Chr (only "@") ;; Plus (noneOf "@/") ;; Chr (only "/")) ;;
           Plus (noneOf "@(")) ;;
  Chr (only "@") ;;
  Group 2 (Plus (noneOf ":'(")).

(** The variables of the loop that a later iteration reads. *)
Record state := mkState {
  inPackages : bool;
  packages : JsMap.t (LockEntry.t string)
}.

Definition initial : state := mkState false JsMap.empty.

(** [if (!packages.has(name)) packages.set(name, { version, ... })] with
    the quotes removed from the version. *)
Definition record (name version : string)
           (packages : JsMap.t (LockEntry.t string))
  : JsMap.t (LockEntry.t string) :=
  if JsMap.has name packages then packages
  else JsMap.set name (lockedAt (removeAll (oneOf quotes) version)) packages.

(** The two groups of a match. *)
Definition nameAndVersion (m : option (string * captures))
  : option (string * string) :=
  match m with
  | Some (_, cs) =>
      match capture 1 cs, capture 2 cs with
      | Some name, Some version => Some (name, version)
      | _, _ => None
      end
  | None => None
  end.

(** The body of [if (inPackages) { ... }]. *)
Definition readEntry (trimmed : string)
           (packages : JsMap.t (LockEntry.t string))
  : JsMap.t (LockEntry.t string) :=
  match nameAndVersion (exec_at packageRe trimmed) with
  | Some (name, version) => record name version packages
  | None =>
      match nameAndVersion (exec_at snapshotRe trimmed) with
      | Some (name, version) =>
          if negb (String.eqb name EmptyString)
             && negb (String.eqb version EmptyString)
          then record name version packages
          else packages
      | None => packages
      end
  end.

(** One iteration of the loop over the lines. *)
Definition step (st : state) (line : string) : state :=
  let trimmed := trim line in
  (* Skip empty lines and comments *)
  if String.eqb trimmed EmptyString || startsWith trimmed "#" then st
  (* Detect packages section *)
  else if String.eqb trimmed "packages:" then mkState true (packages st)
  (* Exit packages section *)
  else if inPackages st
          && negb (startsWith line " ") && negb (startsWith line tab)
          && negb (String.eqb trimmed EmptyString)
          && (negb (startsWith trimmed "/") && negb (startsWith trimmed "'"))
  then mkState false (packages st)
  else if inPackages st
  then mkState true (readEntry trimmed (packages st))
  else st.

(** Parse pnpm-lock.yaml without external YAML library. *)
Definition parsePnpmLock (content : string) : JsMap.t (LockEntry.t string) :=
  packages (fold_left step (split newline content) initial).

End Pnpm.

Module Yarn.
Import JsString Regex Chars.
Open Scope regex_scope.

(** [/[\x22']?((?:@[^@,\s]+\/)?[^@,\s\x22']+)@[^,:\s\x22']+[\x22']?/g] *)
Definition declarationRe : regex :=
  Opt (Chr (oneOf quotes)) ;;
  Group 1 (Opt (Chr (only "@") ;; Plus (noneOfWs "@,") ;; Chr (only "/")) ;;
           Plus (noneOfWs (String DQUOTE "@,'"))) ;;
  Chr (only "@") ;;
  Plus (noneOfWs (String DQUOTE ",:'")) ;;
  Opt (Chr (oneOf quotes)).

(** [/version\s+[\x22']?([^\x22'\s]+)[\x22']?/] *)
Definition versionRe : regex :=
  Lit "version" ;;
  Plus is_ws ;;
  Opt (Chr (oneOf quotes)) ;;
  Group 1 (Plus (noneOfWs quotes)) ;;
  Opt (Chr (oneOf quotes)).

Record state := mkState {
  currentPackages : list string;
  packages : JsMap.t (LockEntry.t string)
}.

Definition initial : state := mkState [] JsMap.empty.

(** The names pushed to [currentPackages]: the first group of every match,
    when it is not empty. *)
Definition declaredNames (trimmed : string) : list string :=
  flat_map (fun cs =>
              match capture 1 cs with
              | Some name => if String.eqb name EmptyString then [] else [name]
              | None => []
              end)
           (matchAll declarationRe trimmed).

(** [if (!packages.has(pkgName)) packages.set(pkgName, { version, ... })] *)
Definition commit (version : string)
           (packages : JsMap.t (LockEntry.t string)) (pkgName : string)
  : JsMap.t (LockEntry.t string) :=
  if JsMap.has pkgName packages then packages
  else JsMap.set pkgName (lockedAt version) packages.

(** One iteration of the loop over the lines. *)
Definition step (st : state) (line : string) : state :=
  let trimmed := trim line in
  (* Skip empty lines and comments *)
  if String.eqb trimmed EmptyString || startsWith trimmed "#" then st
  else
    (* Package declaration line *)
    let st1 :=
      if negb (startsWith line " ") && negb (startsWith line tab)
      then mkState (declaredNames trimmed) (packages st)
      else st in
    (* Version line *)
    if startsWith line "  version"
       && negb (Nat.eqb (List.length (currentPackages st1)) 0)
    then
      match search versionRe trimmed with
      | Some (_, cs) =>
          match capture 1 cs with
          | Some version =>
              mkState (currentPackages st1)
                      (fold_left (commit version) (currentPackages st1)
                                 (packages st1))
          | None => st1
          end
      | None => st1
      end
    else st1.

(** Parse yarn.lock. *)
Definition parseYarnLock (content : string) : JsMap.t (LockEntry.t string) :=
  packages (fold_left step (split newline content) initial).

End Yarn.

(* ================================================================== *)
(** ** Parsed JSON *)
(* ================================================================== *)

Module Json.

(** The value [JSON.parse] returns; [number] is the type of its numbers. *)
#[warnings="-register-all"]
Inductive t (number : Type) : Type :=
| Null
| Bool (b : bool)
| Num (n : number)
| Str (s : string)
| Arr (items : list (t number))
| Object (fields : list (string * t number)).
Arguments Null {number}.
Arguments Bool {number}.
Arguments Num {number}.
Arguments Str {number}.
Arguments Arr {number}.
Arguments Object {number}.

Section Values.
Context {number : Type}.
(** Whether a number is neither zero nor NaN. *)
Variable nonZero : number -> bool.

(** Truthiness of a value. *)
Definition truthy (v : t number) : bool :=
  match v with
  | Null => false
  | Bool b => b
  | Num n => nonZero n
  | Str s => negb (String.eqb s EmptyString)
  | Arr _ => true
  | Object _ => true
  end.

(** Truthiness of a value that may be undefined. *)
Definition truthyOpt (v : option (t number)) : bool :=
  match v with Some x => truthy x | None => false end.

(** [v || d] *)
Definition orElse (v : option (t number)) (d : t number) : t number :=
  match v with
  | Some x => if truthy x then x else d
  | None => d
  end.
End Values.

Section Access.
Context {number : Type}.

(** [v.key] for a key that no prototype defines: the own property of an
    object, undefined on an array, a string, a number or a boolean, and a
    TypeError on null. *)
Definition prop (v : t number) (key : string)
  : Js.completion (option (t number)) :=
  match v with
  | Null => Js.Throw Js.TypeError
  | Object fields => Js.Normal (Obj.get key fields)
  | _ => Js.Normal None
  end.

(** The decimal form of an array index. *)
Definition indexKey (i : nat) : string :=
  NilEmpty.string_of_uint (Nat.to_uint i).

Fixpoint indexed {A} (i : nat) (xs : list A) : list (string * A) :=
  match xs with
  | [] => []
  | x :: rest => (indexKey i, x) :: indexed (S i) rest
  end.

(** The one-character strings of a string. *)
Definition characters (s : string) : list (t number) :=
  map (fun c => Str (String c EmptyString)) (list_ascii_of_string s).

(** [Object.entries(v)] *)
Definition entries (v : t number)
  : Js.completion (list (string * t number)) :=
  match v with
  | Null => Js.Throw Js.TypeError
  | Object fields => Js.Normal fields
  | Arr items => Js.Normal (indexed 0 items)
  | Str s => Js.Normal (indexed 0 (characters s))
  | Num _ | Bool _ => Js.Normal []
  end.
End Access.

End Json.

(* ================================================================== *)
(** ** Lock decoder: package-lock.json *)
(* ================================================================== *)

Module Npm.
Import JsString Regex Chars.
Open Scope regex_scope.

(** [/node_modules\/((?:@[^/]+\/)?[^/]+)$/] *)
Definition pathRe : regex :=
  Lit "node_modules/" ;;
  Group 1 (Opt (Chr (only "@") ;; Plus (noneOf "/") ;; Chr (only "/")) ;;
           Plus (noneOf "/")) ;;
  Eol.

(** Extract dependency chain from npm package path. *)
Definition extractDependencyChain (pkgPath : string) : list string :=
  let parts :=
    filter (fun p => negb (String.eqb p EmptyString)
                     && negb (String.eqb p "node_modules"))
           (split "/node_modules/" pkgPath) in
  allButLast parts.

Section Decoder.
Context {number : Type}.
Variable nonZero : number -> bool.
(** [JSON.parse]; [None] when it throws a SyntaxError. *)
Variable JSON_parse : string -> option (Json.t number).

Definition json := Json.t number.
Definition packageMap := JsMap.t (LockEntry.t json).
Definition M := Js.M packageMap.

Definition lift {A} (c : Js.completion A) : M A :=
  match c with
  | Js.Normal a => Js.ret a
  | Js.Throw e => Js.throw e
  end.

(** [info.version || 'unknown'] *)
Definition versionOf (info : json) : M json :=
  do v <- lift (Json.prop info "version") in
  Js.ret (Json.orElse nonZero v (Json.Str "unknown")).

(** One entry of [lockfile.packages]. *)
Definition readPath (entry : string * json) : M unit :=
  let (pkgPath, pkgInfo) := entry in
  (* Skip root package *)
  if String.eqb pkgPath EmptyString then Js.ret tt
  else
    match search pathRe pkgPath with
    | Some (_, cs) =>
        match capture 1 cs with
        | Some name =>
            do version <- versionOf pkgInfo in
            do dev <- lift (Json.prop pkgInfo "dev") in
            do peer <- lift (Json.prop pkgInfo "peer") in
            Js.modify
              (JsMap.set name
                 {| LockEntry.version := version;
                    LockEntry.isTransitive :=
                      negb (Json.truthyOpt nonZero dev)
                      && negb (Json.truthyOpt nonZero peer);
                    LockEntry.dependencyChain :=
                      extractDependencyChain pkgPath |})
        | None => Js.ret tt
        end
    | None => Js.ret tt
    end.

(** The body of the loop of [parseNpmDependencies] for one entry;
    [nested] is the recursive call on [info.dependencies] when that
    property is truthy. *)
Definition readDependency (chain : list string) (name : string)
           (info : json) (nested : option (list string -> M unit))
  : M unit :=
  do version <- versionOf info in
  do _ <- Js.modify
            (JsMap.set name
               {| LockEntry.version := version;
                  LockEntry.isTransitive :=
                    negb (Nat.eqb (List.length chain) 0);
                  LockEntry.dependencyChain := chain |}) in
  match nested with
  | Some recurse => recurse (chain ++ [name])
  | None => Js.ret tt
  end.

(** Recursively parse npm v6 dependencies format. *)
Fixpoint parseNpmDependencies (deps : json) (chain : list string)
         {struct deps} : M unit :=
  match deps with
  | Json.Null => Js.throw Js.TypeError
  | Json.Bool _ | Json.Num _ => Js.ret tt
  | Json.Str s =>
      Js.forEach (Json.indexed 0 (@Json.characters number s))
        (fun entry => readDependency chain (fst entry) (snd entry) None)
  | Json.Arr items =>
      (fix loop (i : nat) (items : list json) : M unit :=
         match items with
         | [] => Js.ret tt
         | info :: rest =>
             do _ <- readDependency chain (Json.indexKey i) info
                       (nestedOf info) in
             loop (S i) rest
         end) 0 items
  | Json.Object fields =>
      (fix loop (fields : list (string * json)) : M unit :=
         match fields with
         | [] => Js.ret tt
         | (name, info) :: rest =>
             do _ <- readDependency chain name info (nestedOf info) in
             loop rest
         end) fields
  end
(** [info.dependencies], when truthy, with the recursive call on it. *)
with nestedOf (info : json) {struct info}
  : option (list string -> M unit) :=
  match info with
  | Json.Object fields =>
      (fix find (fields : list (string * json))
         : option (list string -> M unit) :=
         match fields with
         | [] => None
         | (key, value) :: rest =>
             if String.eqb "dependencies" key
             then if Json.truthy nonZero value
                  then Some (parseNpmDependencies value)
                  else None
             else find rest
         end) fields
  | _ => None
  end.

(** The statements inside [try { ... }]. *)
Definition parseNpmLockBody (content : string) : M unit :=
  match JSON_parse content with
  | None => Js.throw Js.SyntaxError
  | Some lockfile =>
      (* Handle npm v7+ format (lockfileVersion 2 or 3) *)
      do packages <- lift (Json.prop lockfile "packages") in
      do _ <- match packages with
              | Some p =>
                  if Json.truthy nonZero p
                  then do es <- lift (Json.entries p) in
                       Js.forEach es readPath
                  else Js.ret tt
              | None => Js.ret tt
              end in
      (* Handle npm v6 format (lockfileVersion 1) *)
      do dependencies <- lift (Json.prop lockfile "dependencies") in
      match dependencies with
      | Some d =>
          if Json.truthy nonZero d
          then parseNpmDependencies d []
          else Js.ret tt
      | None => Js.ret tt
      end
  end.

(** Parse package-lock.json (npm): the body runs on a fresh map, the
    handler of the [catch] only prints a warning, and the map is returned
    as it is then. *)
Definition parseNpmLock (content : string) : Js.completion packageMap :=
  match Js.tryCatch (parseNpmLockBody content) (fun _ => Js.ret tt)
          JsMap.empty with
  | (packages, Js.Normal _) => Js.Normal packages
  | (_, Js.Throw e) => Js.Throw e
  end.
End Decoder.

End Npm.

(* ================================================================== *)
(** ** Loading the lock file and collecting the dependencies to scan *)
(* ================================================================== *)

Module Scan.
Import JsString.

(** A lock file of the project root: it does not exist, it exists and
    [fs.readFileSync] throws on it, or it exists and has a content. *)
Inductive File : Type :=
| Missing
| Unreadable
| Content (content : string).

Record LockFiles := mkLockFiles {
  pnpmLockYaml : File;
  packageLockJson : File;
  yarnLock : File
}.

Inductive LockType : Type := pnpm | npm | yarn.

Record LockInfo := mkLockInfo {
  infoType : LockType;
  infoFilename : string
}.

(** The table [lockFiles] of [detectLockFile]. *)
Definition lockFileTable : list LockInfo :=
  [ mkLockInfo pnpm "pnpm-lock.yaml";
    mkLockInfo npm "package-lock.json";
    mkLockInfo yarn "yarn.lock" ].

Definition fileOf (files : LockFiles) (type : LockType) : File :=
  match type with
  | pnpm => pnpmLockYaml files
  | npm => packageLockJson files
  | yarn => yarnLock files
  end.

(** [fs.existsSync(path)] *)
Definition existsLock (files : LockFiles) (type : LockType) : bool :=
  match fileOf files type with
  | Missing => false
  | Unreadable | Content _ => true
  end.

(** [fs.readFileSync(path, 'utf8')] *)
Definition readLock (files : LockFiles) (type : LockType)
  : Js.completion string :=
  match fileOf files type with
  | Content content => Js.Normal content
  | Missing | Unreadable => Js.Throw Js.SystemError
  end.

(** Detect which lock file exists in the project. *)
Definition detectLockFile (files : LockFiles) : option LockInfo :=
  find (fun lock => existsLock files (infoType lock)) lockFileTable.

Record ScanStats := mkScanStats {
  total : nat;
  direct : nat;
  transitive : nat;
  lockFileType : option string;
  ignored : nat;
  trusted : nat
}.

Record Results (V : Type) := mkResults {
  critical : list (Issue.t V);
  high : list (Issue.t V);
  medium : list (Issue.t V);
  low : list (Issue.t V)
}.
Arguments mkResults {V}.
Arguments critical {V}.
Arguments high {V}.
Arguments medium {V}.
Arguments low {V}.

Record PackagesScanned := mkPackagesScanned {
  scannedTotal : nat;
  scannedDirect : nat;
  scannedTransitive : nat
}.

(** The object [printJsonResults] prints, without the scanner version, the
    time stamp and the suspicious scripts. *)
Record JsonOutput (V : Type) := mkJsonOutput {
  scanMode : string;
  lockFile : option string;
  packagesScanned : PackagesScanned;
  packagesIgnored : nat;
  packagesTrusted : nat;
  totalIssues : nat;
  transitiveIssues : nat;
  results : Results V
}.
Arguments mkJsonOutput {V}.
Arguments scanMode {V}.
Arguments lockFile {V}.
Arguments packagesScanned {V}.
Arguments packagesIgnored {V}.
Arguments packagesTrusted {V}.
Arguments totalIssues {V}.
Arguments transitiveIssues {V}.
Arguments results {V}.

(** [Object.values(results).flat()] *)
Definition allIssues {V} (r : Results V) : list (Issue.t V) :=
  critical r ++ high r ++ medium r ++ low r.

(** Print results in JSON format. *)
Definition printJsonResults {V} (r : Results V) (scanStats : ScanStats)
  : JsonOutput V :=
  let deep :=
    match lockFileType scanStats with
    | Some name => negb (String.eqb name EmptyString)
    | None => false
    end in
  {| scanMode := if deep then "deep" else "direct";
     lockFile := if deep then lockFileType scanStats else None;
     packagesScanned :=
       mkPackagesScanned (total scanStats) (direct scanStats)
                         (transitive scanStats);
     packagesIgnored := ignored scanStats;
     packagesTrusted := trusted scanStats;
     totalIssues :=
       List.length (critical r) + List.length (high r)
       + List.length (medium r) + List.length (low r);
     transitiveIssues :=
       List.length
         (filter (fun i => match Issue.isTransitive i with
                           | Some b => b
                           | None => false
                           end)
                 (allIssues r));
     results := r |}.

Section Collect.
Context {number : Type}.
Variable nonZero : number -> bool.
Variable JSON_parse : string -> option (Json.t number).
(** Whether [Array.prototype] defines a name; which names it defines
    depends on the version of the language. *)
Variable arrayPrototype : string -> bool.

Definition json := Json.t number.

Record LockFile := mkLockFile {
  type : LockType;
  packages : JsMap.t (LockEntry.t json);
  filename : string
}.

(** A decoded entry whose version is a string, as a JavaScript value. *)
Definition asValue (entry : string * LockEntry.t string)
  : string * LockEntry.t json :=
  (fst entry,
   {| LockEntry.version := Json.Str (LockEntry.version (snd entry));
      LockEntry.isTransitive := LockEntry.isTransitive (snd entry);
      LockEntry.dependencyChain := LockEntry.dependencyChain (snd entry) |}).

(** The [switch (lockInfo.type)] of [loadLockFile] and the calls of
    [getLockedVersions]. *)
Definition decode (type : LockType) (content : string)
  : Js.completion (JsMap.t (LockEntry.t json)) :=
  match type with
  | pnpm => Js.Normal (map asValue (Pnpm.parsePnpmLock content))
  | npm => Npm.parseNpmLock nonZero JSON_parse content
  | yarn => Js.Normal (map asValue (Yarn.parseYarnLock content))
  end.

(** The statements inside the [try] of [loadLockFile]. *)
Definition readAndDecode (files : LockFiles) (type : LockType)
  : Js.completion (JsMap.t (LockEntry.t json)) :=
  val content <- readLock files type in
  decode type content.

(** Load and parse the project's lock file; an exception gives [null]. *)
Definition loadLockFile (files : LockFiles) : option LockFile :=
  match detectLockFile files with
  | None => None
  | Some lockInfo =>
      match readAndDecode files (infoType lockInfo) with
      | Js.Normal decoded =>
          Some (mkLockFile (infoType lockInfo) decoded
                           (infoFilename lockInfo))
      | Js.Throw _ => None
      end
  end.

(** The version of a node of the graph: a value of the manifest or of
    the lock file, or a value the object [versions] inherits under the
    name of a package. *)
Inductive value : Type :=
| Parsed (v : json)
| Inherited (b : Proto.builtin)
| OfArray (items : list json) (name : string).

(** The prototype of the object [versions]: [Object.prototype], until an
    assignment to [__proto__] replaces it with the value assigned, null or
    an object or array of the lock file. *)
Inductive Prototype : Type :=
| ObjectPrototype
| NoPrototype
| Replaced (by_ : json).

(** The object [versions] of [getLockedVersions]. *)
Record Versions := mkVersions {
  own : Obj.t json;
  prototype : Prototype
}.

(** [const versions = {}] *)
Definition noVersions : Versions := mkVersions [] ObjectPrototype.

(** Whether an assignment to [__proto__] gets to the setter of
    [Object.prototype]: no object before it in the chain has a property of
    that name. *)
Definition reachesSetter (p : Prototype) : bool :=
  match p with
  | ObjectPrototype => true
  | NoPrototype => false
  | Replaced (Json.Object fields) =>
      match Obj.get "__proto__" fields with
      | Some _ => false
      | None => true
      end
  | Replaced _ => true
  end.

(** [versions[name] = version]: the own property is created or
    overwritten, but for the name [__proto__], whose setter replaces the
    prototype when the value is an object, an array or null and does
    nothing otherwise. *)
Definition assign (name : string) (version : json) (versions : Versions)
  : Versions :=
  match Obj.get name (own versions) with
  | Some _ =>
      mkVersions (Obj.update name version (own versions))
                 (prototype versions)
  | None =>
      if String.eqb name "__proto__" && reachesSetter (prototype versions)
      then
        match version with
        | Json.Object _ | Json.Arr _ => mkVersions (own versions)
                                                   (Replaced version)
        | Json.Null => mkVersions (own versions) NoPrototype
        | _ => versions
        end
      else
        mkVersions (Obj.define name version (own versions))
                   (prototype versions)
  end.

(** The element of an array under a key that is an array index. *)
Definition element (items : list json) (name : string) : option json :=
  match Obj.arrayIndex name with
  | Some i => nth_error items (N.to_nat i)
  | None => None
  end.

(** What a read of [name] finds in the prototype of [versions]. *)
Definition inherit (p : Prototype) (name : string) : option value :=
  match p with
  | ObjectPrototype =>
      match Proto.inherited name with
      | Some b => Some (Inherited b)
      | None => None
      end
  | NoPrototype => None
  | Replaced by_ =>
      match by_ with
      | Json.Object fields =>
          match Obj.get name fields with
          | Some v => Some (Parsed v)
          | None =>
              if String.eqb name "__proto__" then Some (Parsed by_)
              else match Proto.inherited name with
                   | Some b => Some (Inherited b)
                   | None => None
                   end
          end
      | Json.Arr items =>
          match element items name with
          | Some v => Some (Parsed v)
          | None =>
              if String.eqb name "length" || arrayPrototype name
              then Some (OfArray items name)
              else if String.eqb name "__proto__" then Some (Parsed by_)
              else match Proto.inherited name with
                   | Some b => Some (Inherited b)
                   | None => None
                   end
          end
      | _ => None
      end
  end.

(** [versions[name]] *)
Definition lookup (name : string) (versions : Versions) : option value :=
  match Obj.get name (own versions) with
  | Some v => Some (Parsed v)
  | None => inherit (prototype versions) name
  end.

(** Truthiness of a value: a function is truthy, and so is the length of
    an array that is not empty. *)
Definition truthy (v : value) : bool :=
  match v with
  | Parsed j => Json.truthy nonZero j
  | Inherited _ => true
  | OfArray items name =>
      if String.eqb name "length" then negb (Nat.eqb (List.length items) 0)
      else true
  end.

(** The string a value is, when it is one. *)
Definition text (v : value) : option string :=
  match v with
  | Parsed (Json.Str s) => Some s
  | _ => None
  end.

(** Whether the conversion of a parsed value to a string returns.  It
    throws a TypeError on an object that has a property [toString] of its
    own, which is no function, and on an array with such an element. *)
Fixpoint printableJson (j : json) : bool :=
  match j with
  | Json.Object fields =>
      match Obj.get "toString" fields with
      | Some _ => false
      | None => true
      end
  | Json.Arr items =>
      (fix all (items : list json) : bool :=
         match items with
         | [] => true
         | item :: rest => printableJson item && all rest
         end) items
  | _ => true
  end.

(** Whether the conversion of a value to a string returns. *)
Definition printable (v : value) : bool :=
  match v with
  | Parsed j => printableJson j
  | Inherited _ | OfArray _ _ => true
  end.

(** [for (const [name, info] of packages) versions[name] = info.version] *)
Definition versionsOf (decoded : JsMap.t (LockEntry.t json)) : Versions :=
  fold_left (fun versions entry =>
               assign (fst entry) (LockEntry.version (snd entry)) versions)
            decoded noVersions.

(** Get exact versions from lock files: the first lock file that exists
    and is read and decoded without an exception decides. *)
Fixpoint lockedVersionsFrom (files : LockFiles) (types : list LockType)
  : Versions :=
  match types with
  | [] => noVersions
  | type :: rest =>
      if existsLock files type
      then
        match readAndDecode files type with
        | Js.Normal decoded => versionsOf decoded
        | Js.Throw _ => lockedVersionsFrom files rest
        end
      else lockedVersionsFrom files rest
  end.

Definition getLockedVersions (files : LockFiles) : Versions :=
  lockedVersionsFrom files [pnpm; npm; yarn].

(** [lockedVersions[name] || version] *)
Definition lockedOr (lockedVersions : Versions) (name : string)
           (version : json) : value :=
  match lookup name lockedVersions with
  | Some locked => if truthy locked then locked else Parsed version
  | None => Parsed version
  end.

(** The loop that turns the direct dependencies into nodes, of the
    standard scan and of the fallback of the deep scan. *)
Definition directOnly (lockedVersions : Versions)
           (directDependencies : Obj.t json)
  : JsMap.t (DepInfo.t value) :=
  fold_left
    (fun all entry =>
       JsMap.set (fst entry)
         (Graph.directNode (lockedOr lockedVersions (fst entry) (snd entry)))
         all)
    directDependencies JsMap.empty.

(** The nodes [mergeDependencies] returns, their versions as values of
    the graph. *)
Definition parsed (entry : string * DepInfo.t json)
  : string * DepInfo.t value :=
  (fst entry,
   {| DepInfo.version := Parsed (DepInfo.version (snd entry));
      DepInfo.isDirect := DepInfo.isDirect (snd entry);
      DepInfo.isTransitive := DepInfo.isTransitive (snd entry);
      DepInfo.dependencyChain := DepInfo.dependencyChain (snd entry) |}).

(** The part of [scan] that builds [allDependencies] and [scanStats],
    the deep scan with its fallback and the standard scan; [deep] is
    [mergedOptions.deep] and [directCount] the number of keys of
    [directDependencies]. *)
Definition collectDependencies (deep : bool)
           (directDependencies : Obj.t json) (lockedVersions : Versions)
           (files : LockFiles)
  : JsMap.t (DepInfo.t value) * ScanStats :=
  let directCount := List.length (Obj.keys directDependencies) in
  let scanStats := mkScanStats directCount directCount 0 None 0 0 in
  let fallback := (directOnly lockedVersions directDependencies, scanStats) in
  if deep then
    match loadLockFile files with
    | Some lockFile =>
        if Nat.ltb 0 (JsMap.size (packages lockFile))
        then
          let allDependencies :=
            map parsed
                (Graph.mergeDependencies directDependencies
                                         (packages lockFile)) in
          (allDependencies,
           mkScanStats (JsMap.size allDependencies) directCount
                       (JsMap.size allDependencies - directCount)
                       (Some (filename lockFile)) 0 0)
        else fallback
    | None => fallback
    end
  else fallback.

End Collect.

End Scan.

(* ================================================================== *)
(** ** The vocabulary of the specification *)
(* ================================================================== *)

Module Spec.
Import JsString Classifier.

(** A pattern is an exact package name, or a namespace followed by ["/*"]
    that stands for every name under the namespace. *)
Inductive Matches : string -> string -> Prop :=
| MatchesExact (name : string) : Matches name name
| MatchesNamespace (scope rest : string) :
    Matches (scope ++ "/" ++ rest) (scope ++ "/*").

(** The [knownMalicious] object the classifier reads. *)
Definition maliciousOf (db : ThreatDatabase.t) : KnownMalicious.t :=
  match ThreatDatabase.knownMalicious db with
  | Some m => m
  | None => KnownMalicious.empty
  end.

Definition protestwareOf (db : ThreatDatabase.t) : Protestware.t :=
  match KnownMalicious.protestware (maliciousOf db) with
  | Some p => p
  | None => Protestware.empty
  end.

(** The name is in none of the four [knownMalicious] categories. *)
Definition inNoCategory (name : string) (db : ThreatDatabase.t) : Prop :=
  optIncludes (KnownMalicious.confirmed (maliciousOf db)) name = false
  /\ optIncludes (KnownMalicious.typosquatting (maliciousOf db)) name = false
  /\ optIncludes (KnownMalicious.credentialTheft (maliciousOf db)) name = false
  /\ optIncludes (KnownMalicious.cryptoMalware (maliciousOf db)) name = false.

(** The name is in none of the three protestware tiers. *)
Definition inNoTier (name : string) (db : ThreatDatabase.t) : Prop :=
  inTier (Protestware.high (protestwareOf db)) name = false
  /\ inTier (Protestware.medium (protestwareOf db)) name = false
  /\ inTier (Protestware.low (protestwareOf db)) name = false.

(** The campaigns of the database, in the order of the loop. *)
Definition campaignsOf (db : ThreatDatabase.t) : Obj.t Campaign.t :=
  orEmpty (ThreatDatabase.campaigns db).

(** The name is in the [packages] of the campaign. *)
Definition inCampaign (name : string) (campaign : Campaign.t) : Prop :=
  optIncludes (Campaign.packages campaign) name = true.

(** The name is in the [packages] of no campaign of the list. *)
Definition inNoCampaign (name : string) (campaigns : Obj.t Campaign.t) : Prop :=
  forall id campaign,
    In (id, campaign) campaigns ->
    optIncludes (Campaign.packages campaign) name = false.

(** No campaign of the list has, under the name in its [affectedVersions],
    an entry of its own or an inherited one, anything but a list that is
    not empty and does not hold the cleaned version: each entry there is
    makes [isVersionAffected] return false. *)
Definition noVersionListed {V} (text : V -> option string) (name : string)
           (version : V) (campaigns : Obj.t Campaign.t) : Prop :=
  forall id campaign listed,
    In (id, campaign) campaigns ->
    campaignVersions campaign name = Some listed ->
    isVersionAffected text version (Some listed) = Js.Normal false.

(** What the campaign has under the name in its [affectedVersions], if
    anything, is a property of the object itself, not one the object
    inherits. *)
Definition ownEntry (name : string) (campaign : Campaign.t) : Prop :=
  forall b, campaignVersions campaign name <> Some (Proto.Builtin b).

(** A node that says direct, whatever its version. *)
Definition saysDirect {V} (node : option (DepInfo.t V)) : Prop :=
  exists version, node = Some (Graph.directNode version).

End Spec.

(* ================================================================== *)
(** ** Databases and nodes of the scenarios *)
(* ================================================================== *)

Module Scenario.
Import Classifier.

Definition noMetadata : option (DepInfo.t string) := None.

(** The trust-over-malicious scenario: the namespace [@scope] is trusted and
    one of its packages is on the confirmed list. *)
Definition trustedList : TrustedPackages.t :=
  TrustedPackages.mk (Some ["@scope/*"]).

Definition confirmedOnly (names : list string) : KnownMalicious.t :=
  KnownMalicious.mk (Some names) None None None None.

Definition trustOverMalicious : ThreatDatabase.t :=
  ThreatDatabase.mk (Some trustedList)
                    (Some (confirmedOnly ["@scope/anything"])) None.

(** The end-to-end scenario: [dep-b] is confirmed malicious. *)
Definition depBConfirmed : ThreatDatabase.t :=
  ThreatDatabase.mk None (Some (confirmedOnly ["dep-b"])) None.

Definition viaDepA : DepInfo.t string :=
  DepInfo.mk "2.0.0" false true ["dep-a"].

(** The issue of [dep-b] when the classifier is given no metadata. *)
Definition depBIssue : Issue.t string :=
  withFinding (baseIssue "dep-b" "2.0.0" noMetadata) "critical"
    "Confirmed Malicious"
    (Proto.Data "This package has been confirmed as malicious")
    "REMOVE IMMEDIATELY".

(** A campaign that lists version 1.0.0 of [P] in [affectedVersions] and
    nothing in [packages]. *)
Definition versionOnlyCampaign : Campaign.t :=
  Campaign.mk (Some "Version-only campaign") None None (Some [])
              (Some [("P", ["1.0.0"])]).

Definition versionOnly : ThreatDatabase.t :=
  ThreatDatabase.mk None None (Some [("c1", versionOnlyCampaign)]).

(** The campaign-version-split scenario: [packages = [P]],
    [affectedVersions = { P: ["1.0.0"] }], declared severity high. *)
Definition splitCampaign : Campaign.t :=
  Campaign.mk (Some "Split campaign") (Some "high") None (Some ["P"])
              (Some [("P", ["1.0.0"])]).

Definition versionSplit : ThreatDatabase.t :=
  ThreatDatabase.mk None None (Some [("c1", splitCampaign)]).

(** A campaign whose entry for [P] in [affectedVersions] is empty. *)
Definition emptyEntryCampaign : Campaign.t :=
  Campaign.mk (Some "Empty entry") (Some "medium") None (Some ["P"])
              (Some [("P", [])]).

Definition emptyEntry : ThreatDatabase.t :=
  ThreatDatabase.mk None None (Some [("c1", emptyEntryCampaign)]).

(** A campaign that has [P] in its packages, after one that only lists a
    version of [P]. *)
Definition memberCampaign : Campaign.t :=
  Campaign.mk (Some "Member campaign") (Some "medium") None (Some ["P"]) None.

Definition versionThenMember : ThreatDatabase.t :=
  ThreatDatabase.mk None None
    (Some [("c1", versionOnlyCampaign); ("c2", memberCampaign)]).

(** A campaign that has the package [constructor] in its packages and
    an [affectedVersions] object without any entry, and one that has the
    object and no package. *)
Definition constructorCampaign : Campaign.t :=
  Campaign.mk (Some "Constructor campaign") (Some "high") None
              (Some ["constructor"]) (Some []).

Definition constructorMember : ThreatDatabase.t :=
  ThreatDatabase.mk None None (Some [("c1", constructorCampaign)]).

Definition listsNothingCampaign : Campaign.t :=
  Campaign.mk (Some "Empty campaign") None None (Some []) (Some []).

Definition listsNothing : ThreatDatabase.t :=
  ThreatDatabase.mk None None (Some [("c1", listsNothingCampaign)]).

End Scenario.

Module GraphScenario.

(** The end-to-end scenario: the manifest declares [dep-a] with a range, the
    lock file resolves it and brings in [dep-b] through it. *)
Definition manifest : Obj.t string := [("dep-a", "^1.0.0")].

Definition resolved : JsMap.t (LockEntry.t string) :=
  [ ("dep-a", LockEntry.mk "1.2.0" true []);
    ("dep-b", LockEntry.mk "2.0.0" true ["dep-a"]) ].

End GraphScenario.

(* ================================================================== *)
(** ** The vocabulary of the decoders *)
(* ================================================================== *)

Module RegexSpec.
Import JsString Regex Chars.

(** Every character of [s] is in the class. *)
Fixpoint allChars (p : charclass) (s : string) : bool :=
  match s with
  | EmptyString => true
  | String c s' => p c && allChars p s'
  end.

(** [s] is empty or starts with a character outside the class: a greedy
    repetition of the class reads nothing of [s]. *)
Definition stopsAt (p : charclass) (s : string) : bool :=
  match s with
  | EmptyString => true
  | String c _ => negb (p c)
  end.

(** The number of occurrences of a character. *)
Fixpoint count (c : ascii) (s : string) : nat :=
  match s with
  | EmptyString => 0
  | String d s' => (if Ascii.eqb c d then 1 else 0) + count c s'
  end.

(** The characters before the first occurrence of [c], all of them when
    there is none. *)
Fixpoint before (c : ascii) (s : string) : string :=
  match s with
  | EmptyString => EmptyString
  | String d s' => if Ascii.eqb c d then EmptyString else String d (before c s')
  end.

(** [Run r s rest]: the expression reads a prefix of [s] and leaves [rest],
    whatever the priorities. *)
Inductive Run : regex -> string -> string -> Prop :=
| RunEps (s : string) : Run Eps s s
| RunChr (p : charclass) (c : ascii) (s : string) :
    p c = true -> Run (Chr p) (String c s) s
| RunSeq (r1 r2 : regex) (s s1 s2 : string) :
    Run r1 s s1 -> Run r2 s1 s2 -> Run (Seq r1 r2) s s2
| RunOptSkip (r : regex) (s : string) : Run (Opt r) s s
| RunOptTake (r : regex) (s rest : string) :
    Run r s rest -> Run (Opt r) s rest
| RunStarStop (p : charclass) (s : string) : Run (Star p) s s
| RunStarStep (p : charclass) (c : ascii) (s rest : string) :
    p c = true -> Run (Star p) s rest -> Run (Star p) (String c s) rest
| RunGroup (i : nat) (r : regex) (s rest : string) :
    Run r s rest -> Run (Group i r) s rest
| RunEol : Run Eol EmptyString EmptyString.

(** The characters of a scope, of a base name and of a version in the
    entries the decoders are written for: none of the delimiters of the
    three dialects and no white space. *)
Definition plainChar (c : ascii) : bool :=
  negb (oneOf "@/:,'()" c || Ascii.eqb c DQUOTE || is_ws c).

Definition Plain (s : string) : Prop :=
  s <> EmptyString /\ allChars plainChar s = true.

(** The scoped name [@scope/base]. *)
Definition scoped (scope base : string) : string :=
  "@" ++ scope ++ "/" ++ base.

(** The two forms of the key of a scoped package in the packages section
    of pnpm-lock.yaml, [/@scope/base@version:] and ['@scope/base@version':],
    as the trimmed line. *)
Definition pnpmEntry (trimmed scope base version : string) : Prop :=
  trimmed = ("/" ++ scoped scope base ++ "@" ++ version ++ ":")%string
  \/ trimmed = ("'" ++ scoped scope base ++ "@" ++ version ++ "':")%string.

(** A string between double quotes. *)
Definition quoted (s : string) : string :=
  String DQUOTE (s ++ String DQUOTE EmptyString).

(** The declaration line of a scoped package in yarn.lock,
    [\x22@scope/base@range\x22:], and its version line,
    [version \x22version\x22], as the trimmed lines. *)
Definition yarnDeclaration (scope base range : string) : string :=
  quoted (scoped scope base ++ "@" ++ range) ++ ":".

Definition yarnVersion (version : string) : string :=
  "version " ++ quoted version.

End RegexSpec.

Module NpmSpec.

(** The computation keeps a property of the map, also when it throws. *)
Definition Keeps {number : Type}
           (Inv : JsMap.t (LockEntry.t (Json.t number)) -> Prop)
           {A : Type} (c : Npm.M A) : Prop :=
  forall m, Inv m -> Inv (fst (c m)).

(** The computation ends normally on every map. *)
Definition Returns {number : Type} {A : Type} (c : @Npm.M number A) : Prop :=
  forall m, exists a, snd (c m) = Js.Normal a.

End NpmSpec.

Module LockScenario.
Import Chars RegexSpec.

(** A pnpm-lock.yaml with one scoped package in its packages section. *)
Definition pnpmLines : list string :=
  [ "lockfileVersion: '6.0'";
    "";
    "packages:";
    "";
    "  /@babel/core@7.24.0:";
    "    resolution: {integrity: sha512-x}" ].

Definition pnpmLock : string := String.concat newline pnpmLines.

(** A yarn.lock with one scoped package. *)
Definition yarnLines : list string :=
  [ "# yarn lockfile v1";
    "";
    yarnDeclaration "babel" "core" "^7.0.0";
    ("  " ++ yarnVersion "7.24.0")%string;
    "  resolved x" ].

Definition yarnLock : string := String.concat newline yarnLines.

(** A pnpm-lock.yaml whose package lists a scoped dependency, as the
    lock files of format 6 do. *)
Definition pnpmDependencyLine : string := "      '@babel/code-frame': 7.24.0".

Definition pnpmWithDependency : string :=
  String.concat newline
    (pnpmLines ++ [ "    dependencies:"; pnpmDependencyLine ]).

(** A yarn.lock that declares a scoped package under an alias. *)
Definition yarnAliasDeclaration : string :=
  quoted "core@npm:@babel/core@^7.0.0" ++ ":".

Definition yarnWithAlias : string :=
  String.concat newline
    [ "# yarn lockfile v1";
      "";
      yarnAliasDeclaration;
      ("  " ++ yarnVersion "7.24.0")%string ].

(** The values of a package-lock.json; numbers are natural numbers here. *)
Definition nonZero (n : nat) : bool := negb (Nat.eqb n 0).

Definition at_version (v : string) : Json.t nat :=
  Json.Object [("version", Json.Str v)].

(** A package-lock.json with a nested package. *)
Definition nestedLock : Json.t nat :=
  Json.Object
    [ ("name", Json.Str "project");
      ("lockfileVersion", Json.Num 3);
      ("packages",
       Json.Object
         [ ("", at_version "1.0.0");
           ("node_modules/a", at_version "1.0.0");
           ("node_modules/a/node_modules/b", at_version "2.0.0") ]) ].

(** A package-lock.json with a scoped package nested under [a]. *)
Definition scopedEntries : list (string * Json.t nat) :=
  [ ("", at_version "1.0.0");
    ("node_modules/a", at_version "1.0.0");
    ("node_modules/a/node_modules/@babel/core", at_version "7.24.0") ].

Definition scopedLock : Json.t nat :=
  Json.Object
    [ ("name", Json.Str "project");
      ("packages", Json.Object scopedEntries) ].

(** [JSON.parse] on the documents of the scenarios: the texts [nested] and
    [scoped] stand for the two documents above, [{}] is the empty object
    and every other text is taken to be malformed. *)
Definition parseScenario (text : string) : option (Json.t nat) :=
  if String.eqb text "nested" then Some nestedLock
  else if String.eqb text "scoped" then Some scopedLock
  else if String.eqb text "{}" then Some (Json.Object [])
  else None.

End LockScenario.

Module ScanSpec.

(** No lock data: no lock file could be loaded, or the decoder returned an
    empty map. *)
Definition noLockData {number : Type} (nonZero : number -> bool)
           (JSON_parse : string -> option (Json.t number))
           (files : Scan.LockFiles) : Prop :=
  Scan.loadLockFile nonZero JSON_parse files = None
  \/ exists lockFile,
      Scan.loadLockFile nonZero JSON_parse files = Some lockFile
      /\ JsMap.size (Scan.packages lockFile) = 0.

End ScanSpec.

Module ScanScenario.

(** The manifest of the end-to-end scenario, as JavaScript values. *)
Definition manifest : Obj.t (Json.t nat) := [("dep-a", Json.Str "^1.0.0")].

(** A project without lock file, and one whose yarn.lock has no entry. *)
Definition noLock : Scan.LockFiles :=
  Scan.mkLockFiles Scan.Missing Scan.Missing Scan.Missing.

Definition emptyYarnLock : Scan.LockFiles :=
  Scan.mkLockFiles Scan.Missing Scan.Missing
                   (Scan.Content "# yarn lockfile v1").

(** No name is taken to be one of [Array.prototype]. *)
Definition noArrayName (_ : string) : bool := false.

End ScanScenario.

(* ================================================================== *)
(** ** The vocabulary of the classifier's results *)
(* ================================================================== *)

Module ClassifierSpec.
Import JsString Regex Classifier Spec.

(** The four severity levels: the keys of the [results] object of
    [scan]. *)
Definition levels : list string := ["critical"; "high"; "medium"; "low"].

Definition isLevel (severity : string) : bool := includes levels severity.

(** Every campaign of the database declares one of the four levels, or
    none. *)
Definition declaresLevels (db : ThreatDatabase.t) : Prop :=
  forall id campaign,
    In (id, campaign) (campaignsOf db) ->
    isLevel (orDefault (Campaign.severity campaign) "high") = true.

(** The name is in one of the four [knownMalicious] categories. *)
Definition inSomeCategory (name : string) (db : ThreatDatabase.t) : Prop :=
  optIncludes (KnownMalicious.confirmed (maliciousOf db)) name = true
  \/ optIncludes (KnownMalicious.typosquatting (maliciousOf db)) name = true
  \/ optIncludes (KnownMalicious.credentialTheft (maliciousOf db)) name = true
  \/ optIncludes (KnownMalicious.cryptoMalware (maliciousOf db)) name = true.

(** The characters a version range starts with, as [cleanVersion] sees
    them. *)
Definition rangeOperator : charclass := oneOf "^~>=<".

(** An exact version: not empty, no space in it and no range operator in
    front. *)
Definition exactVersion (v : string) : Prop :=
  v <> EmptyString
  /\ RegexSpec.stopsAt rangeOperator v = true
  /\ RegexSpec.count " " v = 0.

(** The patterns [isIgnored] reads: those of the command line, then those
    of the configuration file. *)
Definition ignorePatterns (ignoreList : list string) (config : Config.t)
  : list string :=
  ignoreList ++ orEmpty (Config.ignore config).

(** The issues the loop over the campaigns builds. *)
Inductive CampaignIssue {V : Type} (text : V -> option string)
          (base : Issue.t V) (name : string) (version : V)
          (campaigns : Obj.t Campaign.t) (issue : Issue.t V) : Prop :=
| SafeVersion (id : string) (campaign : Campaign.t) (given v : string)
              (vs : list string) :
    In (id, campaign) campaigns ->
    inCampaign name campaign ->
    campaignVersions campaign name = Some (Proto.Data (v :: vs)) ->
    text version = Some given ->
    includes (v :: vs) (cleanVersion given) = false ->
    issue = safeVersionIssue base id campaign (Some (Proto.Data (v :: vs))) ->
    CampaignIssue text base name version campaigns issue
| Member (id : string) (campaign : Campaign.t) :
    In (id, campaign) campaigns ->
    inCampaign name campaign ->
    isVersionAffected text version (campaignVersions campaign name)
    = Js.Normal true ->
    issue = campaignIssue base id campaign (campaignVersions campaign name) ->
    CampaignIssue text base name version campaigns issue
| VersionOnly (id : string) (campaign : Campaign.t)
              (listed : Proto.value (list string)) :
    In (id, campaign) campaigns ->
    optIncludes (Campaign.packages campaign) name = false ->
    campaignVersions campaign name = Some listed ->
    isVersionAffected text version (Some listed) = Js.Normal true ->
    issue = versionIssue name version id campaign listed ->
    CampaignIssue text base name version campaigns issue.

End ClassifierSpec.

Module ClassifierScenario.
Import Classifier Scenario.

(** A database that trusts the namespace [@scope], has one of its packages
    on the confirmed list and in a campaign. *)
Definition everywhere : ThreatDatabase.t :=
  ThreatDatabase.mk (Some trustedList)
                    (Some (confirmedOnly ["@scope/anything"]))
                    (Some [("c1", Campaign.mk None None None
                                    (Some ["@scope/anything"]) None)]).

(** A name on the typosquatting list that is also in the low protestware
    tier and in a campaign that lists another version. *)
Definition typoEverywhere : ThreatDatabase.t :=
  ThreatDatabase.mk None
    (Some (KnownMalicious.mk None (Some ["P"]) None None
             (Some (Protestware.mk None None
                      (Some (ProtestTier.mk (Some ["P"]) None))))))
    (Some [("c1", splitCampaign)]).

(** A transitive node reached through [dep-a]. *)
Definition transitiveP : DepInfo.t string :=
  DepInfo.mk "^2.0.0" false true ["dep-a"].

End ClassifierScenario.

(* ================================================================== *)
(** ** The vocabulary of the graph builder *)
(* ================================================================== *)

Module GraphSpec.
Import Graph.

Section Merge.
Context {V : Type}.

(** A node with the version the lock file records for its name, when it
    records one. *)
Definition resolved (lockPackages : JsMap.t (LockEntry.t V))
           (entry : string * DepInfo.t V) : string * DepInfo.t V :=
  (fst entry,
   match JsMap.get (fst entry) lockPackages with
   | Some info => withVersion (snd entry) (LockEntry.version info)
   | None => snd entry
   end).

(** The direct node of a declared dependency, at the version of the lock
    file when the lock file records the name. *)
Definition declared (lockPackages : JsMap.t (LockEntry.t V))
           (entry : string * V) : string * DepInfo.t V :=
  (fst entry,
   directNode match JsMap.get (fst entry) lockPackages with
              | Some info => LockEntry.version info
              | None => snd entry
              end).

(** The entries of the lock file whose name is not a key of [merged]. *)
Definition unknownTo {X : Type} (merged : JsMap.t X)
           (lockPackages : JsMap.t (LockEntry.t V))
  : JsMap.t (LockEntry.t V) :=
  filter (fun entry => negb (JsMap.has (fst entry) merged)) lockPackages.

(** The entries of the lock file whose name the manifest does not
    declare. *)
Definition lockOnly (directDeps : Obj.t V)
           (lockPackages : JsMap.t (LockEntry.t V))
  : JsMap.t (LockEntry.t V) :=
  filter (fun entry => negb (JsString.includes (Obj.keys directDeps)
                                               (fst entry)))
         lockPackages.

Definition asTransitive (entry : string * LockEntry.t V)
  : string * DepInfo.t V :=
  (fst entry, transitiveNode (snd entry)).

(** The number of nodes that carry a flag. *)
Definition flagged (flag : DepInfo.t V -> bool)
           (nodes : JsMap.t (DepInfo.t V)) : nat :=
  List.length (filter (fun entry => flag (snd entry)) nodes).

End Merge.

End GraphSpec.

Module MergeScenario.

(** A manifest with two dependencies, and a lock file that resolves the
    second and brings in a third through it. *)
Definition manifest : Obj.t string := [("dep-a", "^1.0.0"); ("dep-c", "~3.0.0")].

Definition resolved : JsMap.t (LockEntry.t string) :=
  [ ("dep-b", LockEntry.mk "2.0.0" true ["dep-c"]);
    ("dep-c", LockEntry.mk "3.0.1" true []) ].

End MergeScenario.

Module CountScenario.

(** A project whose pnpm-lock.yaml records one package the manifest does
    not declare. *)
Definition pnpmProject : Scan.LockFiles :=
  Scan.mkLockFiles (Scan.Content LockScenario.pnpmLock) Scan.Missing
                   Scan.Missing.

(** A project whose pnpm-lock.yaml cannot be read and whose
    package-lock.json is the nested one of the scenarios. *)
Definition pnpmUnreadable : Scan.LockFiles :=
  Scan.mkLockFiles Scan.Unreadable (Scan.Content "nested") Scan.Missing.

End CountScenario.

(* ================================================================== *)
(** ** The vocabulary of the line decoders *)
(* ================================================================== *)

Module DecoderSpec.

(** [after] has every entry of [before] unchanged, and what it has besides
    is flagged transitive with an empty chain. *)
Definition Extends (before after : JsMap.t (LockEntry.t string)) : Prop :=
  (forall name entry,
      JsMap.get name before = Some entry -> JsMap.get name after = Some entry)
  /\ (forall name entry,
         JsMap.get name after = Some entry ->
         JsMap.get name before = Some entry
         \/ exists version, entry = lockedAt version).

End DecoderSpec.

Module DecoderScenario.
Import Chars.

(** A second entry for [@babel/core], at another version, for the end of
    the pnpm-lock.yaml and of the yarn.lock of the scenarios. *)
Definition pnpmAgain : string := "  /@babel/core@7.0.0:".

Definition yarnAgain : string :=
  String.concat newline
    [ RegexSpec.yarnDeclaration "babel" "core" "^6.0.0";
      ("  " ++ RegexSpec.yarnVersion "6.26.3")%string ].

(** What precedes the packages section in a pnpm-lock.yaml: the
    dependencies of the importers are listed there. *)
Definition pnpmHead : string :=
  String.concat newline
    [ "lockfileVersion: '6.0'";
      "";
      "dependencies:";
      "  /left-pad@1.3.0:";
      "    specifier: ^1.3.0" ].

End DecoderScenario.

(* ================================================================== *)
(** ** Substrings and letter case *)
(* ================================================================== *)

Module JsText.

(** [s.includes(sub)] on strings: [sub] occurs in [s]; the empty string
    occurs in every string. *)
Fixpoint includes (s sub : string) : bool :=
  String.prefix sub s
  || match s with
     | String _ s' => includes s' sub
     | EmptyString => false
     end.

(** The lower-case form of a code unit below 256: the letters [A] to [Z]
    and the capital letters of the Latin-1 supplement, U+00C0 to U+00DE
    without the multiplication sign U+00D7, move up by 32. *)
Definition lowerChar (c : ascii) : ascii :=
  let n := nat_of_ascii c in
  if ((65 <=? n) && (n <=? 90)
      || (192 <=? n) && (n <=? 222) && negb (n =? 215))%nat
  then ascii_of_nat (n + 32)
  else c.

(** [s.toLowerCase()] *)
Fixpoint toLowerCase (s : string) : string :=
  match s with
  | EmptyString => EmptyString
  | String c s' => String (lowerChar c) (toLowerCase s')
  end.

(** [sub] stands somewhere in [s]. *)
Definition Occurs (sub s : string) : Prop :=
  exists before after, s = (before ++ sub ++ after)%string.

End JsText.

(* ================================================================== *)
(** ** The analysis of install scripts *)
(* ================================================================== *)

Module Scripts.
Import JsText.

(** Analyze postinstall scripts for suspicious patterns; an absent script
    is [None]. *)
Definition analyzeScript (script : option string) (patterns : list string)
  : list string :=
  match script with
  | None | Some EmptyString => []
  | Some script =>
      let scriptLower := toLowerCase script in
      fold_left
        (fun matches pattern =>
           if includes scriptLower (toLowerCase pattern)
           then matches ++ [pattern]
           else matches)
        patterns []
  end.

End Scripts.

(* ================================================================== *)
(** ** The command line *)
(* ================================================================== *)

Module Cli.
Import JsString.

(** [l.findIndex(pred)], [None] for -1. *)
Fixpoint findIndex {A : Type} (pred : A -> bool) (l : list A) : option nat :=
  match l with
  | [] => None
  | x :: rest =>
      if pred x then Some 0
      else match findIndex pred rest with
           | Some i => Some (S i)
           | None => None
           end
  end.

(** [l.indexOf(x)] *)
Definition indexOf (l : list string) (x : string) : option nat :=
  findIndex (String.eqb x) l.

(** Get argument value (for --arg=value or --arg value); [None] stands for
    null and for undefined. *)
Definition getArgValue (args : list string) (argName : string)
  : option string :=
  match findIndex (fun a => startsWith a ("--" ++ argName ++ "=")) args with
  | Some eqIndex =>
      match nth_error args eqIndex with
      | Some a => nth_error (split "=" a) 1
      | None => None
      end
  | None =>
      match indexOf args ("--" ++ argName) with
      | Some spaceIndex =>
          match nth_error args (spaceIndex + 1) with
          | Some next =>
              if negb (String.eqb next EmptyString)
                 && negb (startsWith next "-")
              then Some next
              else None
          | None => None
          end
      | None => None
      end
  end.

(** The value of a property of [options]: a flag, or what [getArgValue]
    returned. *)
Inductive optionValue : Type :=
| Flag (b : bool)
| Value (v : option string).

(** The object literal of [options], property by property as it is
    written. *)
Definition optionsLiteral (args : list string)
  : list (string * optionValue) :=
  [ ("verbose", Flag (includes args "--verbose" || includes args "-v"));
    ("json", Flag (includes args "--json"));
    ("strict", Flag (includes args "--strict"));
    ("deep", Flag (includes args "--deep" || includes args "-d"));
    ("help", Flag (includes args "--help" || includes args "-h"));
    ("version", Flag (includes args "--version" || includes args "-V"));
    ("silent", Flag (includes args "--silent" || includes args "-s"));
    ("fix", Flag (includes args "--fix"));
    ("yes", Flag (includes args "--yes" || includes args "-y"));
    ("deep", Flag (includes args "--deep"));
    ("analyzeScripts", Flag (includes args "--analyze-scripts"));
    ("report", Flag (includes args "--report"));
    ("update", Flag (includes args "--update"));
    ("offline", Flag (includes args "--offline"));
    ("ignore", Value (getArgValue args "ignore"));
    ("config", Value (getArgValue args "config"));
    ("reportPath", Value (getArgValue args "report-path")) ].

(** The object the literal evaluates to: a property defined twice keeps
    its place and takes the later value. *)
Definition options (args : list string) : Obj.t optionValue :=
  fold_left (fun object property =>
               JsMap.set (fst property) (snd property) object)
            (optionsLiteral args) [].

(** [options.name] as a condition. *)
Definition flag (options : Obj.t optionValue) (name : string) : bool :=
  match Obj.get name options with
  | Some (Flag b) => b
  | Some (Value (Some s)) => negb (String.eqb s EmptyString)
  | Some (Value None) | None => false
  end.

(** [options.name] as a string, null or undefined. *)
Definition value (options : Obj.t optionValue) (name : string)
  : option string :=
  match Obj.get name options with
  | Some (Value v) => v
  | _ => None
  end.

(** Parsed ignore list. *)
Definition ignoreList (options : Obj.t optionValue) : list string :=
  match value options "ignore" with
  | Some EmptyString | None => []
  | Some ignore => map trim (split "," ignore)
  end.

End Cli.

(** The part of the configuration file [scan] reads itself: whether
    [verbose], [strict], [scanDeep] and [analyzeScripts] are truthy, and
    the [failOn] list. *)
Module RunConfig.
Record t := mk {
  verbose : bool;
  strict : bool;
  scanDeep : bool;
  analyzeScripts : bool;
  failOn : option (list string)
}.
Definition empty : t := mk false false false false None.
End RunConfig.

(** The properties [scan] gives [mergedOptions] besides those of the
    configuration file. *)
Module MergedOptions.
Record t := mk {
  verbose : bool;
  strict : bool;
  deep : bool;
  analyzeScripts : bool
}.

(** Merge config with CLI options. *)
Definition merge (options : Obj.t Cli.optionValue) (config : RunConfig.t)
  : t :=
  {| verbose := Cli.flag options "verbose" || RunConfig.verbose config;
     strict := Cli.flag options "strict" || RunConfig.strict config;
     deep := Cli.flag options "deep" || RunConfig.scanDeep config;
     analyzeScripts :=
       Cli.flag options "analyzeScripts" || RunConfig.analyzeScripts config |}.
End MergedOptions.

(* ================================================================== *)
(** ** The direct dependencies of the manifest *)
(* ================================================================== *)

Module Manifest.

Section Sections.
Context {number : Type}.

Definition json := Json.t number.

(** The own enumerable properties an object spread copies: those of an
    object, the elements of an array and the characters of a string by
    their index, nothing for null, undefined, a number or a boolean. *)
Definition ownEntries (source : option json) : list (string * json) :=
  match source with
  | Some (Json.Object fields) => fields
  | Some (Json.Arr items) => Json.indexed 0 items
  | Some (Json.Str s) => Json.indexed 0 (Json.characters s)
  | Some (Json.Num _) | Some (Json.Bool _) | Some Json.Null | None => []
  end.

(** [{ ...target, ...source }]: the properties of the source are defined
    on the copy of the target one after the other. *)
Definition spread (target : Obj.t json) (source : option json)
  : Obj.t json :=
  fold_left (fun object entry => Obj.define (fst entry) (snd entry) object)
            (ownEntries source) target.

(** [packageJson.key] of a manifest that is not null. *)
Definition section (packageJson : json) (key : string) : option json :=
  match Json.prop packageJson key with
  | Js.Normal v => v
  | Js.Throw _ => None
  end.

(** Combine all direct dependencies. *)
Definition directDependencies (packageJson : json) : Obj.t json :=
  spread
    (spread
       (spread
          (spread [] (section packageJson "dependencies"))
          (section packageJson "devDependencies"))
       (section packageJson "peerDependencies"))
    (section packageJson "optionalDependencies").

(** [{ ...source }]: the properties of one section. *)
Definition only (source : option json) : Obj.t json := spread [] source.

(** The first of two lookups that finds something. *)
Definition orElse (first second : option json) : option json :=
  match first with
  | Some v => Some v
  | None => second
  end.

End Sections.

End Manifest.

Module ManifestScenario.

(** A manifest that declares [dep-a] twice, as a dependency and as a
    development dependency. *)
Definition twice : Json.t nat :=
  Json.Object
    [ ("name", Json.Str "project");
      ("dependencies",
       Json.Object [("dep-a", Json.Str "^1.0.0");
                    ("dep-c", Json.Str "~3.0.0")]);
      ("devDependencies", Json.Object [("dep-a", Json.Str "^2.0.0")]) ].

End ManifestScenario.

Module CliSpec.
Import JsString.

(** A package name that can be given in the list of [--ignore]: not
    empty, without a comma or an equals sign, and without white space at
    either end. *)
Definition listable (name : string) : Prop :=
  name <> EmptyString
  /\ RegexSpec.count "," name = 0
  /\ RegexSpec.count "=" name = 0
  /\ trim name = name.

(** No argument of the list is of the form [--name=...]. *)
Definition noEqualsForm (name : string) (args : list string) : Prop :=
  forall a, In a args -> startsWith a ("--" ++ name ++ "=") = false.

End CliSpec.

Module CliScenario.

(** The [--ignore] option given twice, first with a space and then with an
    equals sign and a value that has one more. *)
Definition ignoreTwice : list string := ["--ignore"; "x"; "--ignore=a=b"].

(** A deep scan asked for with the short flag. *)
Definition shortDeep : list string := ["-d"; "--json"].

End CliScenario.
(* ================================================================== *)
(** ** Classification of the graph, reports and exit code *)
(* ================================================================== *)

(** How a piece of the script ends: it returns, it throws, or it leaves
    the process with [process.exit]. *)
Module Proc.

Inductive outcome (A : Type) : Type :=
| Returned (a : A)
| Thrown (e : Js.error)
| Exited (code : nat).
Arguments Returned {A}.
Arguments Thrown {A}.
Arguments Exited {A}.

Section Monad.
Context {W : Type}.

(** A computation on the world around the process, [W]. *)
Definition M (A : Type) : Type := W -> W * outcome A.

Definition ret {A} (a : A) : M A := fun w => (w, Returned a).

Definition throw {A} (e : Js.error) : M A := fun w => (w, Thrown e).

(** [process.exit(code)] *)
Definition exit {A} (code : nat) : M A := fun w => (w, Exited code).

Definition bind {A B} (c : M A) (k : A -> M B) : M B :=
  fun w =>
    match c w with
    | (w', Returned a) => k a w'
    | (w', Thrown e) => (w', Thrown e)
    | (w', Exited code) => (w', Exited code)
    end.

(** [try { c } catch (error) { handler }]: leaving the process is not
    caught. *)
Definition tryCatch {A} (c : M A) (handler : Js.error -> M A) : M A :=
  fun w =>
    match c w with
    | (w', Thrown e) => handler e w'
    | done => done
    end.

(** [if (condition) { c }] *)
Definition when (condition : bool) (c : M unit) : M unit :=
  if condition then c else ret tt.

(** A call that leaves the world alone. *)
Definition lift {A} (c : Js.completion A) : M A :=
  match c with
  | Js.Normal a => ret a
  | Js.Throw e => throw e
  end.

(** [xs.forEach(body)] and [xs.map(body)] for the effects of [body]. *)
Fixpoint forEach {X} (xs : list X) (body : X -> M unit) : M unit :=
  match xs with
  | [] => ret tt
  | x :: rest => bind (body x) (fun _ => forEach rest body)
  end.

End Monad.

End Proc.

Notation "'perform' x '<-' c 'in' k" := (Proc.bind c (fun x => k))
  (at level 10, x name, c at level 100, k at level 200, only parsing).

Module Report.
Import JsString Classifier Proc.

(** An entry of [scanStats.suspiciousScripts]. *)
Record SuspiciousScript := mkSuspiciousScript {
  scriptPackage : string;
  scriptType : string;
  scriptPatterns : list string
}.

(** The scripts of the packages of node_modules in which a pattern of the
    database occurs: the loop of [scan] over what [scanNodeModules]
    returns, each package with its [scripts] object. *)
Definition suspiciousScriptsOf (patterns : list string)
           (nodeModulesPackages : Obj.t (Obj.t string))
  : list SuspiciousScript :=
  flat_map
    (fun package =>
       flat_map
         (fun scriptType =>
            match Obj.get scriptType (snd package) with
            | Some script =>
                if String.eqb script EmptyString then []
                else
                  let matches :=
                    Scripts.analyzeScript (Some script) patterns in
                  if Nat.ltb 0 (List.length matches)
                  then [mkSuspiciousScript (fst package) scriptType matches]
                  else []
            | None => []
            end)
         ["preinstall"; "install"; "postinstall"])
    nodeModulesPackages.

(** [scanStats.ignored++] and [scanStats.trusted++] *)
Definition countIgnored (s : Scan.ScanStats) : Scan.ScanStats :=
  Scan.mkScanStats (Scan.total s) (Scan.direct s) (Scan.transitive s)
                   (Scan.lockFileType s) (S (Scan.ignored s)) (Scan.trusted s).

Definition countTrusted (s : Scan.ScanStats) : Scan.ScanStats :=
  Scan.mkScanStats (Scan.total s) (Scan.direct s) (Scan.transitive s)
                   (Scan.lockFileType s) (Scan.ignored s) (S (Scan.trusted s)).

(** Detect package manager, as [fixPackages] does. *)
Definition packageManager (files : Scan.LockFiles) : string :=
  if Scan.existsLock files Scan.pnpm then "pnpm"
  else if Scan.existsLock files Scan.yarn then "yarn"
  else "npm".

(** The command of [fixPackages]. *)
Definition removeCommand (pm : string) (packageNames : list string)
  : string :=
  if String.eqb pm "yarn"
  then "yarn remove " ++ String.concat " " packageNames
  else pm ++ " remove " ++ String.concat " " packageNames.

Section Environment.
(** The versions of the nodes are values of type [V]; [text v] is the
    string [v] is, when it is one, and [printable v] says whether the
    conversion of [v] to a string returns. *)
Context {V : Type}.
Variable text : V -> option string.
Variable printable : V -> bool.

(** What the process does to the world around it, as far as the model
    goes: the JSON documents it prints, the report files it writes and the
    commands it hands to [execSync].  The texts [log], [console.log] and
    [console.error] print for a reader are no part of it; the exceptions
    thrown while such a text is built are. *)
Record World := mkWorld {
  printed : list (Scan.JsonOutput V * list SuspiciousScript);
  written : list (string * Scan.Results V);
  executed : list string
}.

Definition start : World := mkWorld [] [] [].

(** [results[result.severity].push(result)].  For a severity that is not
    one of the four keys, [results[...]] is undefined or a property of
    [Object.prototype], none of which has a [push] to call: [None] stands
    for the TypeError. *)
Definition push (results : Scan.Results V) (result : Issue.t V)
  : option (Scan.Results V) :=
  let severity := Issue.severity result in
  if String.eqb severity "critical" then
    Some (Scan.mkResults (Scan.critical results ++ [result])
                         (Scan.high results) (Scan.medium results)
                         (Scan.low results))
  else if String.eqb severity "high" then
    Some (Scan.mkResults (Scan.critical results)
                         (Scan.high results ++ [result])
                         (Scan.medium results) (Scan.low results))
  else if String.eqb severity "medium" then
    Some (Scan.mkResults (Scan.critical results) (Scan.high results)
                         (Scan.medium results ++ [result])
                         (Scan.low results))
  else if String.eqb severity "low" then
    Some (Scan.mkResults (Scan.critical results) (Scan.high results)
                         (Scan.medium results)
                         (Scan.low results ++ [result]))
  else None.

(** [Object.values(results).reduce((sum, arr) => sum + arr.length, 0)] *)
Definition totalIssues (results : Scan.Results V) : nat :=
  List.length (Scan.critical results) + List.length (Scan.high results)
  + List.length (Scan.medium results) + List.length (Scan.low results).

(** Whether [fs.writeFileSync] throws on a path, and whether [execSync]
    throws on a command. *)
Variable writeFails : string -> bool.
Variable commandFails : string -> bool.
(** [path.join(findProjectRoot(), 'security-report.html')] *)
Variable defaultReportPath : string.

(** The [options] of the command line, the threat database with the
    patterns of [db.indicators?.postinstall?.patterns || []], and the
    configuration file. *)
Variable options : Obj.t Cli.optionValue.
Variable db : ThreatDatabase.t.
Variable patterns : list string.
Variable config : Config.t.
Variable runConfig : RunConfig.t.

Definition M := @Proc.M World.

Definition writeFileSync (path : string) (results : Scan.Results V)
  : M unit :=
  fun w =>
    if writeFails path then (w, Thrown Js.SystemError)
    else (mkWorld (printed w) (written w ++ [(path, results)]) (executed w),
          Returned tt).

Definition execSync (command : string) : M unit :=
  fun w =>
    let w' := mkWorld (printed w) (written w) (executed w ++ [command]) in
    if commandFails command then (w', Thrown Js.SystemError)
    else (w', Returned tt).

(** A version written into a template: the conversion to a string can
    throw. *)
Definition interpolate (version : V) : M unit :=
  if printable version then ret tt else throw Js.TypeError.

(** One iteration of the loop of [scan] over the packages; the state is
    [scanStats] and [results]. *)
Definition classify (state : Scan.ScanStats * Scan.Results V)
           (entry : string * DepInfo.t V)
  : M (Scan.ScanStats * Scan.Results V) :=
  let (scanStats, results) := state in
  let (packageName, depInfo) := entry in
  let version := DepInfo.version depInfo in
  perform result <-
    lift (checkPackage text (Cli.ignoreList options) packageName version db
                       (Some depInfo) config) in
  match result with
  | Ignored => ret (countIgnored scanStats, results)
  | Trusted => ret (countTrusted scanStats, results)
  | Found result =>
      perform _ <- when (Cli.flag options "verbose"
                         && negb (Cli.flag options "json"))
                        (interpolate version) in
      match push results result with
      | Some results' => ret (scanStats, results')
      | None => throw Js.TypeError
      end
  | Clean => ret state
  end.

(** Scan each package. *)
Fixpoint classifyAll (allDependencies : JsMap.t (DepInfo.t V))
         (state : Scan.ScanStats * Scan.Results V)
  : M (Scan.ScanStats * Scan.Results V) :=
  match allDependencies with
  | [] => ret state
  | entry :: rest =>
      perform state' <- classify state entry in classifyAll rest state'
  end.

(** Format a single issue for display: the version is written into the
    text, and the affected versions are joined unless the issue has the
    [safeVersion] marker; only a list has a [join]. *)
Definition formatIssue (issue : Issue.t V) : M unit :=
  perform _ <- interpolate (Issue.version issue) in
  match Issue.affectedVersions issue with
  | Some (Proto.Builtin _) =>
      if Issue.safeVersion issue then ret tt else throw Js.TypeError
  | _ => ret tt
  end.

(** Print results in human-readable format.  With no issue the function
    returns after the summary.  With issues it formats them, level by
    level, and comes to the script analysis results, where it reads
    [stats]: the parameter is called [scanStats], and neither the function
    nor the file declares a [stats]. *)
Definition printResults (results : Scan.Results V) : M unit :=
  if Nat.eqb (totalIssues results) 0 then ret tt
  else
    perform _ <- forEach (Scan.allIssues results) formatIssue in
    throw (Js.ReferenceError "stats").

(** Print results in JSON format. *)
Definition printJsonResults (results : Scan.Results V)
           (scanStats : Scan.ScanStats)
           (suspiciousScripts : list SuspiciousScript) : M unit :=
  fun w =>
    (mkWorld (printed w
              ++ [(Scan.printJsonResults results scanStats,
                   suspiciousScripts)])
             (written w) (executed w),
     Returned tt).

(** Generate HTML report: the page names every issue with its version,
    and the file is written at [options.reportPath], or in the project
    root. *)
Definition generateHtmlReport (results : Scan.Results V) : M unit :=
  let reportPath :=
    orDefault (Cli.value options "reportPath") defaultReportPath in
  perform _ <- forEach (Scan.allIssues results)
                       (fun issue => interpolate (Issue.version issue)) in
  writeFileSync reportPath results.

(** Remove malicious packages. *)
Definition fixPackages (files : Scan.LockFiles) (issues : list (Issue.t V))
  : M unit :=
  if Nat.eqb (List.length issues) 0 then ret tt
  else
    let packageNames := map Issue.package issues in
    if negb (Cli.flag options "yes") then ret tt
    else
      let pm := packageManager files in
      tryCatch (execSync (removeCommand pm packageNames))
               (fun _ => ret tt).

(** Determine exit code. *)
Definition determineExitCode (results : Scan.Results V) : M unit :=
  let hasCritical := Nat.ltb 0 (List.length (Scan.critical results)) in
  let hasHigh := Nat.ltb 0 (List.length (Scan.high results)) in
  let hasMedium := Nat.ltb 0 (List.length (Scan.medium results)) in
  let hasLow := Nat.ltb 0 (List.length (Scan.low results)) in
  (* Check against configured fail levels *)
  let failOn :=
    match RunConfig.failOn runConfig with
    | Some levels => levels
    | None => ["critical"; "high"]
    end in
  if includes failOn "critical" && hasCritical then exit 1
  else if includes failOn "high" && hasHigh then exit 1
  else if (includes failOn "medium" || Cli.flag options "strict")
          && hasMedium then exit 1
  else if (includes failOn "low" || Cli.flag options "strict")
          && hasLow then exit 1
  else exit 0.

(** [scan], from the loop over the packages to its end. *)
Definition scanPackages (files : Scan.LockFiles)
           (nodeModulesPackages : Obj.t (Obj.t string))
           (allDependencies : JsMap.t (DepInfo.t V))
           (scanStats : Scan.ScanStats) : M unit :=
  let mergedOptions := MergedOptions.merge options runConfig in
  perform state <-
    classifyAll allDependencies
                (scanStats, Scan.mkResults [] [] [] []) in
  let (scanStats, results) := state in
  (* Analyze postinstall scripts if requested *)
  let suspiciousScripts :=
    if MergedOptions.analyzeScripts mergedOptions
    then suspiciousScriptsOf patterns nodeModulesPackages
    else [] in
  (* Output results *)
  perform _ <-
    (if Cli.flag options "json"
     then printJsonResults results scanStats suspiciousScripts
     else printResults results) in
  (* Generate HTML report if requested *)
  perform _ <- when (Cli.flag options "report")
                    (generateHtmlReport results) in
  (* Fix packages if requested *)
  perform _ <- when (Cli.flag options "fix")
                    (fixPackages files
                       (Scan.critical results ++ Scan.high results)) in
  determineExitCode results.

(** The exit code of the process: the code given to [process.exit]; an
    exception that nothing catches ends the process with code 1, and a
    script that comes to its end with code 0. *)
Definition exitCodeOf (run : M unit) : nat :=
  match snd (run start) with
  | Exited code => code
  | Thrown _ => 1
  | Returned _ => 0
  end.

End Environment.

(** The process, from the options of the command line on. *)
Section Process.
Context {number : Type}.
Variable nonZero : number -> bool.
Variable JSON_parse : string -> option (Json.t number).
Variable arrayPrototype : string -> bool.
Variable writeFails : string -> bool.
Variable commandFails : string -> bool.
Variable defaultReportPath : string.
Variable options : Obj.t Cli.optionValue.
(** What [loadConfig] returned, as the classifier and as [scan] read it. *)
Variable config : Config.t.
Variable runConfig : RunConfig.t.
(** What [loadCompromisedDb] returned, with the patterns of the database
    for install scripts; [None] for null. *)
Variable database : option (ThreatDatabase.t * list string).
(** What [loadPackageJson] returned; [None] for the null of a manifest that
    is missing or not JSON. *)
Variable packageJson : option (Json.t number).
Variable files : Scan.LockFiles.
Variable nodeModulesPackages : Obj.t (Obj.t string).

Definition Process := @Proc.M (@World (@Scan.value number)).

(** Main scan function. *)
Definition scan : Process unit :=
  (* Merge config with CLI options *)
  let mergedOptions := MergedOptions.merge options runConfig in
  (* Load database *)
  match database with
  | None => exit 2
  | Some (db, patterns) =>
      (* Load package.json *)
      match packageJson with
      | None => exit 2
      | Some packageJson =>
          if negb (Json.truthy nonZero packageJson) then exit 2
          else
            (* Get locked versions for accurate matching *)
            let lockedVersions :=
              Scan.getLockedVersions nonZero JSON_parse files in
            (* Combine all direct dependencies *)
            let directDependencies :=
              Manifest.directDependencies packageJson in
            let directCount := List.length (Obj.keys directDependencies) in
            if Nat.eqb directCount 0 then exit 0
            else
              let (allDependencies, scanStats) :=
                Scan.collectDependencies nonZero JSON_parse arrayPrototype
                  (MergedOptions.deep mergedOptions) directDependencies
                  lockedVersions files in
              scanPackages Scan.text Scan.printable writeFails commandFails
                           defaultReportPath options db patterns config
                           runConfig files nodeModulesPackages
                           allDependencies scanStats
      end
  end.

(** The script: [--version] and [--help] leave the process while the
    script is loaded; then [scan().catch(...)], whose handler leaves with
    code 2. *)
Definition main : Process unit :=
  if Cli.flag options "version" then exit 0
  else if Cli.flag options "help" then exit 0
  else tryCatch scan (fun _ => exit 2).

End Process.

End Report.

(* ================================================================== *)
(** ** The vocabulary of the run *)
(* ================================================================== *)

Module RunSpec.
Import JsString Classifier ClassifierSpec.

Section Verdicts.
Context {V : Type}.
Variable text : V -> option string.
Variable printable : V -> bool.
Variable options : Obj.t Cli.optionValue.
Variable db : ThreatDatabase.t.
Variable config : Config.t.

(** What the classifier says of a node of the graph. *)
Definition verdict (entry : string * DepInfo.t V)
  : Js.completion (CheckResult V) :=
  checkPackage text (Cli.ignoreList options) (fst entry)
               (DepInfo.version (snd entry)) db (Some (snd entry)) config.

(** The loop prints a line for every issue it finds: [--verbose] without
    [--json]. *)
Definition loud : bool :=
  Cli.flag options "verbose" && negb (Cli.flag options "json").

(** The iteration of the loop for a node returns: the classifier returns
    and, when it returns an issue, the issue has one of the four levels
    and, in a loud run, the version of the node converts to a string. *)
Definition classified (entry : string * DepInfo.t V) : bool :=
  match verdict entry with
  | Js.Normal (Found issue) =>
      (negb loud || printable (DepInfo.version (snd entry)))
      && isLevel (Issue.severity issue)
  | Js.Normal _ => true
  | Js.Throw _ => false
  end.

(** The issues of the nodes, in the order of the graph. *)
Definition issuesOf (allDependencies : JsMap.t (DepInfo.t V))
  : list (Issue.t V) :=
  flat_map (fun entry =>
              match verdict entry with
              | Js.Normal (Found issue) => [issue]
              | _ => []
              end)
           allDependencies.

Definition isIgnoredVerdict (r : Js.completion (CheckResult V)) : bool :=
  match r with Js.Normal Ignored => true | _ => false end.

Definition isTrustedVerdict (r : Js.completion (CheckResult V)) : bool :=
  match r with Js.Normal Trusted => true | _ => false end.

Definition isCleanVerdict (r : Js.completion (CheckResult V)) : bool :=
  match r with Js.Normal Clean => true | _ => false end.

(** The number of nodes with a verdict of a kind. *)
Definition verdicts (kind : Js.completion (CheckResult V) -> bool)
           (allDependencies : JsMap.t (DepInfo.t V)) : nat :=
  List.length (filter (fun entry => kind (verdict entry)) allDependencies).

(** The classifier reads nothing inherited for a node: what a campaign has
    under the name of the node in its [affectedVersions] is a property of
    the object itself. *)
Definition readsOwnEntries (entry : string * DepInfo.t V) : Prop :=
  forall id campaign,
    In (id, campaign) (Spec.campaignsOf db) ->
    Spec.ownEntry (fst entry) campaign.

End Verdicts.

Section Issues.
Context {V : Type}.

(** The issues of a severity. *)
Definition atLevel (level : string) (issues : list (Issue.t V))
  : list (Issue.t V) :=
  filter (fun issue => String.eqb (Issue.severity issue) level) issues.

(** Issues sorted by severity, each level in the order of the list. *)
Definition sorted (issues : list (Issue.t V)) : Scan.Results V :=
  Scan.mkResults (atLevel "critical" issues) (atLevel "high" issues)
                 (atLevel "medium" issues) (atLevel "low" issues).

(** Level by level, the issues of [later] after those of [earlier]. *)
Definition followedBy (earlier later : Scan.Results V) : Scan.Results V :=
  Scan.mkResults (Scan.critical earlier ++ Scan.critical later)
                 (Scan.high earlier ++ Scan.high later)
                 (Scan.medium earlier ++ Scan.medium later)
                 (Scan.low earlier ++ Scan.low later).

(** Every issue of the list has one of the four severity levels. *)
Definition allLevels (issues : list (Issue.t V)) : bool :=
  forallb (fun issue => isLevel (Issue.severity issue)) issues.

(** The report can be produced, when one is asked for: the version of
    every issue converts to a string, and the file can be written. *)
Definition reportWritable (printable : V -> bool)
           (writeFails : string -> bool) (defaultReportPath : string)
           (options : Obj.t Cli.optionValue) (issues : list (Issue.t V))
  : bool :=
  negb (Cli.flag options "report")
  || forallb (fun issue => printable (Issue.version issue)) issues
     && negb (writeFails (orDefault (Cli.value options "reportPath")
                                    defaultReportPath)).

End Issues.

(** The statistics after [ignored] more ignored packages and [trusted]
    more trusted ones. *)
Definition counted (ignored trusted : nat) (s : Scan.ScanStats)
  : Scan.ScanStats :=
  Scan.mkScanStats (Scan.total s) (Scan.direct s) (Scan.transitive s)
                   (Scan.lockFileType s) (ignored + Scan.ignored s)
                   (trusted + Scan.trusted s).

(** The levels the run fails on: those of [failOn], by default critical
    and high. *)
Definition failLevels (runConfig : RunConfig.t) : list string :=
  match RunConfig.failOn runConfig with
  | Some levels => levels
  | None => ["critical"; "high"]
  end.

(** Whether an issue of a severity makes the run fail: its level is in
    [failOn], or it is medium or low and [--strict] is given. *)
Definition failsOn (failOn : list string) (strict : bool)
           (severity : string) : bool :=
  String.eqb severity "critical" && includes failOn "critical"
  || String.eqb severity "high" && includes failOn "high"
  || String.eqb severity "medium" && (includes failOn "medium" || strict)
  || String.eqb severity "low" && (includes failOn "low" || strict).

Section Process.
Context {number : Type}.
Variable nonZero : number -> bool.
Variable JSON_parse : string -> option (Json.t number).
Variable arrayPrototype : string -> bool.
Variable options : Obj.t Cli.optionValue.
Variable runConfig : RunConfig.t.
Variable database : option (ThreatDatabase.t * list string).
Variable packageJson : option (Json.t number).
Variable files : Scan.LockFiles.

(** The process gets to the loop over the packages, with a database, a
    graph and its statistics: neither [--version] nor [--help] is given,
    the database and the manifest are loaded, and the manifest declares a
    dependency. *)
Definition Scans (db : ThreatDatabase.t) (patterns : list string)
           (allDependencies : JsMap.t (DepInfo.t (@Scan.value number)))
           (scanStats : Scan.ScanStats) : Prop :=
  Cli.flag options "version" = false
  /\ Cli.flag options "help" = false
  /\ database = Some (db, patterns)
  /\ exists manifest,
      packageJson = Some manifest
      /\ Json.truthy nonZero manifest = true
      /\ Manifest.directDependencies manifest <> []
      /\ Scan.collectDependencies nonZero JSON_parse arrayPrototype
           (MergedOptions.deep (MergedOptions.merge options runConfig))
           (Manifest.directDependencies manifest)
           (Scan.getLockedVersions nonZero JSON_parse files) files
         = (allDependencies, scanStats).

End Process.

End RunSpec.

Module RunScenario.

(** A deep scan of the end-to-end scenario: [dep-a] is direct, [dep-b]
    comes through it and is confirmed malicious. *)
Definition graph : JsMap.t (DepInfo.t string) :=
  [ ("dep-a", DepInfo.mk "1.2.0" true false []);
    ("dep-b", DepInfo.mk "2.0.0" false true ["dep-a"]) ].

Definition stats : Scan.ScanStats :=
  Scan.mkScanStats 2 1 1 (Some "package-lock.json") 0 0.

(** A project with a package-lock.json and a yarn.lock. *)
Definition npmAndYarn : Scan.LockFiles :=
  Scan.mkLockFiles Scan.Missing (Scan.Content "{}")
                   (Scan.Content "# yarn lockfile v1").

(** The file system lets everything through. *)
Definition noFailure (_ : string) : bool := false.

(** Every version is a string. *)
Definition anyText (_ : string) : bool := true.

(** The manifest of the process of the end-to-end scenario: it declares
    [dep-a] and [dep-b]. *)
Definition packageJson : Json.t nat :=
  Json.Object
    [("name", Json.Str "app");
     ("dependencies",
      Json.Object [("dep-a", Json.Str "^1.2.0"); ("dep-b", Json.Str "2.0.0")])].

(** The graph and the statistics of its standard scan. *)
Definition direct : JsMap.t (DepInfo.t (@Scan.value nat)) :=
  [ ("dep-a", DepInfo.mk (Scan.Parsed (Json.Str "^1.2.0")) true false []);
    ("dep-b", DepInfo.mk (Scan.Parsed (Json.Str "2.0.0")) true false []) ].

Definition directStats : Scan.ScanStats :=
  Scan.mkScanStats 2 2 0 None 0 0.

(** A manifest that declares nothing. *)
Definition nothingDeclared : Json.t nat :=
  Json.Object [("name", Json.Str "app")].

(** The process of the scenario, for the arguments of a command line, a
    database and a configuration of the run: a standard scan of the
    manifest above, in a project whose package-lock.json is the empty
    object. *)
Definition run (args : list string) (db : ThreatDatabase.t)
           (runConfig : RunConfig.t) : Report.Process unit :=
  Report.main LockScenario.nonZero LockScenario.parseScenario
              ScanScenario.noArrayName noFailure noFailure
              "security-report.html" (Cli.options args) Config.empty
              runConfig (Some (db, [])) (Some packageJson) npmAndYarn [].

(** The same process of a project whose manifest is another one, and in
    which the files named cannot be written. *)
Definition runOf (manifest : Json.t nat) (readOnly : string -> bool)
           (args : list string) (db : ThreatDatabase.t)
  : Report.Process unit :=
  Report.main LockScenario.nonZero LockScenario.parseScenario
              ScanScenario.noArrayName readOnly noFailure
              "security-report.html" (Cli.options args) Config.empty
              RunConfig.empty (Some (db, [])) (Some manifest)
              ScanScenario.noLock [].

(** Nothing can be written. *)
Definition readOnly (_ : string) : bool := true.

(** A campaign that declares a severity that is not a level. *)
Definition moderate : ThreatDatabase.t :=
  ThreatDatabase.mk None None
    (Some [("c1", Campaign.mk None (Some "moderate") None
                    (Some ["dep-b"]) None)]).

(** A database in which [dep-b] is in the low protestware tier. *)
Definition lowOnly : ThreatDatabase.t :=
  ThreatDatabase.mk None
    (Some (KnownMalicious.mk None None None None
             (Some (Protestware.mk None None
                      (Some (ProtestTier.mk (Some ["dep-b"]) None))))))
    None.

End RunScenario.

(* ================================================================== *)
(** ** The tree of the dependencies of a version 1 package-lock.json *)
(* ================================================================== *)

Module NpmTree.

Section Tree.
Context {number : Type}.
Variable nonZero : number -> bool.

(** [info.dependencies], when it is truthy. *)
Definition nested (info : Json.t number) : option (Json.t number) :=
  match info with
  | Json.Object fields =>
      match Obj.get "dependencies" fields with
      | Some value => if Json.truthy nonZero value then Some value else None
      | None => None
      end
  | _ => None
  end.

(** [At deps path name info]: the dependencies object [deps] has the
    entry [name] with the value [info], under the packages of [path], the
    outermost first. *)
Inductive At : Json.t number -> list string -> string -> Json.t number
               -> Prop :=
| AtTop (deps : Json.t number) (entries : list (string * Json.t number))
        (name : string) (info : Json.t number) :
    Json.entries deps = Js.Normal entries ->
    In (name, info) entries ->
    At deps [] name info
| AtNested (deps : Json.t number) (entries : list (string * Json.t number))
           (parent : string) (parentInfo deeper : Json.t number)
           (path : list string) (name : string) (info : Json.t number) :
    Json.entries deps = Js.Normal entries ->
    In (parent, parentInfo) entries ->
    nested parentInfo = Some deeper ->
    At deeper path name info ->
    At deps (parent :: path) name info.

(** What [parseNpmDependencies] records for an entry with the value
    [info] under the packages of [chain]. *)
Definition Recorded (chain : list string) (info : Json.t number)
           (entry : LockEntry.t (Json.t number)) : Prop :=
  LockEntry.dependencyChain entry = chain
  /\ LockEntry.isTransitive entry = negb (Nat.eqb (List.length chain) 0)
  /\ exists version,
      Json.prop info "version" = Js.Normal version
      /\ LockEntry.version entry
         = Json.orElse nonZero version (Json.Str "unknown").

(** The entries of the map after a computation are those it had, or
    satisfy [P]. *)
Definition Records (P : string -> LockEntry.t (Json.t number) -> Prop)
           {A : Type} (c : @Npm.M number A) : Prop :=
  forall m name entry,
    JsMap.get name (fst (c m)) = Some entry ->
    JsMap.get name m = Some entry \/ P name entry.

(** The entry of a package of the tree of [deps] read under [chain]. *)
Definition InTree (deps : Json.t number) (chain : list string)
           (name : string) (entry : LockEntry.t (Json.t number)) : Prop :=
  exists path info,
    At deps path name info /\ Recorded (chain ++ path) info entry.

End Tree.

End NpmTree.

Module TreeScenario.

(** The dependencies of a version 1 package-lock.json: [b] is nested in
    [a]. *)
Definition nestedDependencies : Json.t nat :=
  Json.Object
    [ ("a",
       Json.Object
         [ ("version", Json.Str "1.0.0");
           ("dependencies",
            Json.Object [("b", LockScenario.at_version "2.0.0")]) ]) ].

End TreeScenario.

(* ================================================================== *)
(** ** Facts about strings *)
(* ================================================================== *)

Module StringFacts.
Import JsString.

Lemma length_app (a b : string) :
  String.length (a ++ b) = String.length a + String.length b.
Proof. induction a as [|c a IH]; simpl; [reflexivity | now rewrite IH]. Qed.

Lemma app_assoc (a b c : string) : ((a ++ b) ++ c = a ++ (b ++ c))%string.
Proof. induction a as [|x a IH]; simpl; [reflexivity | now rewrite IH]. Qed.

Lemma app_empty_r (a : string) : (a ++ "")%string = a.
Proof. induction a as [|x a IH]; simpl; [reflexivity | now rewrite IH]. Qed.

Lemma substring_all (s : string) : String.substring 0 (String.length s) s = s.
Proof. induction s as [|c s IH]; simpl; [reflexivity | now rewrite IH]. Qed.

Lemma substring_prefix (a b : string) :
  String.substring 0 (String.length a) (a ++ b) = a.
Proof.
  induction a as [|c a IH]; simpl.
  - destruct b; reflexivity.
  - now rewrite IH.
Qed.

Lemma substring_suffix (a b : string) :
  String.substring (String.length a) (String.length b) (a ++ b) = b.
Proof.
  induction a as [|c a IH]; simpl; [apply substring_all | exact IH].
Qed.

(** A string is its first [n] characters followed by the others. *)
Lemma substring_split (n : nat) (s : string) :
  n <= String.length s ->
  s = (String.substring 0 n s
       ++ String.substring n (String.length s - n) s)%string.
Proof.
  revert n; induction s as [|c s IH]; intros n Hn; simpl in *.
  - destruct n; reflexivity.
  - destruct n as [|n]; simpl.
    + now rewrite substring_all.
    + f_equal. apply IH. lia.
Qed.

Lemma prefix_app (a b : string) : String.prefix a (a ++ b) = true.
Proof.
  induction a as [|c a IH]; simpl.
  - destruct b; reflexivity.
  - destruct (ascii_dec c c); [exact IH | congruence].
Qed.

Lemma prefix_inv (p s : string) :
  String.prefix p s = true -> exists r, s = (p ++ r)%string.
Proof.
  revert s; induction p as [|c p IH]; intros s H.
  - exists s. reflexivity.
  - destruct s as [|d s]; simpl in H; [discriminate|].
    destruct (ascii_dec c d) as [->|]; [|discriminate].
    destruct (IH s H) as [r ->]. exists r. reflexivity.
Qed.

Lemma endsWith_app (a p : string) : endsWith (a ++ p) p = true.
Proof.
  unfold endsWith. rewrite length_app.
  replace (String.length a + String.length p - String.length p)
    with (String.length a) by lia.
  rewrite substring_suffix, String.eqb_refl.
  rewrite andb_true_r. apply Nat.leb_le. lia.
Qed.

Lemma endsWith_inv (s p : string) :
  endsWith s p = true ->
  s = (dropLast (String.length p) s ++ p)%string.
Proof.
  unfold endsWith, dropLast. intros H.
  apply andb_true_iff in H. destruct H as [Hlen Heq].
  apply Nat.leb_le in Hlen. apply String.eqb_eq in Heq.
  rewrite (substring_split (String.length s - String.length p) s) at 1 by lia.
  replace (String.length s - (String.length s - String.length p))
    with (String.length p) by lia.
  now rewrite Heq.
Qed.

Lemma dropLast_app (a p : string) : dropLast (String.length p) (a ++ p) = a.
Proof.
  unfold dropLast. rewrite length_app.
  replace (String.length a + String.length p - String.length p)
    with (String.length a) by lia.
  apply substring_prefix.
Qed.

Lemma includes_In (l : list string) (x : string) :
  includes l x = true <-> In x l.
Proof.
  unfold includes. rewrite existsb_exists. split.
  - intros [y [Hy Heq]]. apply String.eqb_eq in Heq. now subst.
  - intros H. exists x. split; [assumption | apply String.eqb_refl].
Qed.

End StringFacts.

(* ================================================================== *)
(** ** The classifier: patterns, trust and the confirmed list *)
(* ================================================================== *)

Module ClassifierFacts.
Import JsString Classifier Spec StringFacts.

(** [matchesPattern] decides the relation between names and patterns. *)
Lemma matchesPattern_spec (name pattern : string) :
  matchesPattern name pattern = true <-> Matches name pattern.
Proof.
  unfold matchesPattern, startsWith. split.
  - destruct (endsWith pattern "/*") eqn:Hend.
    + intros H. apply endsWith_inv in Hend. simpl String.length in Hend.
      apply prefix_inv in H. destruct H as [rest ->].
      rewrite Hend at 2. rewrite app_assoc. constructor.
    + intros H. apply String.eqb_eq in H. subst. constructor.
  - intros [n | scope rest].
    + destruct (endsWith n "/*") eqn:Hend; [|apply String.eqb_refl].
      apply endsWith_inv in Hend. simpl String.length in Hend.
      remember (dropLast 2 n) as d eqn:Hd. clear Hd. subst n.
      replace (d ++ "/*")%string with ((d ++ "/") ++ "*")%string
        by (now rewrite app_assoc).
      apply prefix_app.
    + rewrite (endsWith_app scope "/*").
      change 2 with (String.length "/*"). rewrite dropLast_app.
      rewrite <- app_assoc. apply prefix_app.
Qed.

Lemma isTrusted_database (name : string) (db : ThreatDatabase.t)
      (config : Config.t) (tp : TrustedPackages.t)
      (patterns : list string) (pattern : string) :
  ThreatDatabase.trustedPackages db = Some tp ->
  TrustedPackages.packages tp = Some patterns ->
  In pattern patterns ->
  Matches name pattern ->
  isTrusted name db config = true.
Proof.
  intros Hdb Htp Hin Hm. unfold isTrusted. rewrite Hdb, Htp. simpl.
  apply existsb_exists. exists pattern. split.
  - apply in_or_app. now left.
  - now apply matchesPattern_spec.
Qed.

(** C1. A name that no ignore pattern matches and that a trusted pattern of
    the database matches, as an exact name or under a namespace wildcard, is
    classified Trusted, and so yields no issue, whatever the malicious
    categories, the protestware tiers and the campaigns say about it. *)
Theorem trusted_overrides_detection
        (V W : Type) (text : V -> option string)
        (ignoreList : list string) (name : string) (version : V)
        (db : ThreatDatabase.t) (depInfo : option (DepInfo.t W))
        (config : Config.t) (tp : TrustedPackages.t)
        (patterns : list string) (pattern : string) :
  isIgnored ignoreList name config = false ->
  ThreatDatabase.trustedPackages db = Some tp ->
  TrustedPackages.packages tp = Some patterns ->
  In pattern patterns ->
  Matches name pattern ->
  checkPackage text ignoreList name version db depInfo config
  = Js.Normal Trusted.
Proof.
  intros Hign Hdb Htp Hin Hm. unfold checkPackage. rewrite Hign.
  now rewrite (isTrusted_database name db config tp patterns pattern).
Qed.

End ClassifierFacts.
Module DetectionFacts.
Import JsString Classifier Spec StringFacts.

Section Versions.
Context {V : Type}.
Variable text : V -> option string.

(** Past the ignore and trust checks and the seven lists, the result is
    that of the loop over the campaigns. *)
Lemma checkPackage_campaigns
      (W : Type) (ignoreList : list string) (name : string) (version : V)
      (db : ThreatDatabase.t) (depInfo : option (DepInfo.t W))
      (config : Config.t) :
  isIgnored ignoreList name config = false ->
  isTrusted name db config = false ->
  inNoCategory name db ->
  inNoTier name db ->
  checkPackage text ignoreList name version db depInfo config =
  match checkCampaigns text (baseIssue name version depInfo) name version
          (campaignsOf db) with
  | Js.Normal (Some issue) => Js.Normal (Found issue)
  | Js.Normal None => Js.Normal Clean
  | Js.Throw e => Js.Throw e
  end.
Proof.
  intros Hign Htr (Hc1 & Hc2 & Hc3 & Hc4) (Ht1 & Ht2 & Ht3).
  unfold checkPackage. rewrite Hign, Htr.
  unfold maliciousOf in Hc1, Hc2, Hc3, Hc4.
  unfold protestwareOf, maliciousOf in Ht1, Ht2, Ht3.
  rewrite Hc1, Hc2, Hc3, Hc4. cbv zeta.
  rewrite Ht1, Ht2, Ht3. unfold campaignsOf.
  destruct (checkCampaigns _ _ _ _ _) as [[issue|]|e]; reflexivity.
Qed.

(** A campaign that neither has the name in its packages nor lists the
    version is passed over. *)
Lemma checkCampaigns_skip (base : Issue.t V) (name : string) (version : V)
      (id : string) (campaign : Campaign.t) (rest : Obj.t Campaign.t) :
  optIncludes (Campaign.packages campaign) name = false ->
  (forall listed,
      campaignVersions campaign name = Some listed ->
      isVersionAffected text version (Some listed) = Js.Normal false) ->
  checkCampaigns text base name version ((id, campaign) :: rest) =
  checkCampaigns text base name version rest.
Proof.
  intros Hpk Hv. cbn [checkCampaigns]. rewrite Hpk.
  destruct (campaignVersions campaign name) as [listed|] eqn:E;
    [|reflexivity].
  now rewrite (Hv listed eq_refl).
Qed.

Lemma checkCampaigns_skip_all (base : Issue.t V) (name : string)
      (version : V) (earlier rest : Obj.t Campaign.t) :
  inNoCampaign name earlier ->
  noVersionListed text name version earlier ->
  checkCampaigns text base name version (earlier ++ rest) =
  checkCampaigns text base name version rest.
Proof.
  induction earlier as [|[id c] earlier IH]; intros Hpk Hv; [reflexivity|].
  rewrite <- List.app_comm_cons. rewrite checkCampaigns_skip.
  - apply IH.
    + intros id' c' Hin. apply (Hpk id' c'). now right.
    + intros id' c' vs Hin. apply (Hv id' c' vs). now right.
  - apply (Hpk id c). now left.
  - intros vs. apply (Hv id c vs). now left.
Qed.

End Versions.

End DetectionFacts.

Module ClassifierProperties.
Import JsString Classifier Spec StringFacts ClassifierFacts DetectionFacts.
Import Scenario.

Lemma trusted_overrides_detection_witness :
  isIgnored [] "@scope/anything" Config.empty = false
  /\ optIncludes (KnownMalicious.confirmed (maliciousOf trustOverMalicious))
                 "@scope/anything" = true
  /\ checkPackage Some [] "@scope/anything" "1.0.0" trustOverMalicious
                  noMetadata Config.empty = Js.Normal Trusted.
Proof.
  split; [reflexivity | split; [reflexivity |]].
  apply (trusted_overrides_detection string string Some []
           "@scope/anything" "1.0.0"
           trustOverMalicious noMetadata Config.empty trustedList
           ["@scope/*"] "@scope/*").
  - reflexivity.
  - reflexivity.
  - reflexivity.
  - simpl. left. reflexivity.
  - exact (MatchesNamespace "@scope" "anything").
Defined.

(** C2, as the specification states it, fails: a name that is only a key
    of a campaign's [affectedVersions], with the node's version listed
    there, is not classified Clean. *)
Lemma version_only_entry_is_reported :
  isIgnored [] "P" Config.empty = false
  /\ isTrusted "P" versionOnly Config.empty = false
  /\ inNoCategory "P" versionOnly
  /\ inNoTier "P" versionOnly
  /\ inNoCampaign "P" (campaignsOf versionOnly)
  /\ campaignVersions versionOnlyCampaign "P" = Some (Proto.Data ["1.0.0"])
  /\ checkPackage Some [] "P" "1.0.0" versionOnly noMetadata Config.empty
     = Js.Normal
         (Found (versionIssue "P" "1.0.0" "c1" versionOnlyCampaign
                              (Proto.Data ["1.0.0"])))
  /\ checkPackage Some [] "P" "1.0.0" versionOnly noMetadata Config.empty
     <> Js.Normal Clean.
Proof.
  repeat split; try reflexivity.
  - intros id c [H | []]. inversion H; subst. reflexivity.
  - discriminate.
Qed.

(** C2, amended.  A name that no ignore or trusted pattern matches, that is
    in no malicious category, no protestware tier and no campaign's
    packages, is classified Clean when, in addition, no campaign has under
    the name in its [affectedVersions] anything but a list that is not
    empty and does not hold the cleaned version. *)
Theorem unlisted_name_is_clean
        (V W : Type) (text : V -> option string)
        (ignoreList : list string) (name : string) (version : V)
        (db : ThreatDatabase.t) (depInfo : option (DepInfo.t W))
        (config : Config.t) :
  isIgnored ignoreList name config = false ->
  isTrusted name db config = false ->
  inNoCategory name db ->
  inNoTier name db ->
  inNoCampaign name (campaignsOf db) ->
  noVersionListed text name version (campaignsOf db) ->
  checkPackage text ignoreList name version db depInfo config
  = Js.Normal Clean.
Proof.
  intros Hign Htr Hcat Htier Hpk Hv.
  rewrite checkPackage_campaigns by assumption.
  rewrite <- (List.app_nil_r (campaignsOf db)).
  now rewrite checkCampaigns_skip_all.
Qed.

Lemma unlisted_name_is_clean_witness :
  checkPackage Some [] "P" "2.0.0" versionOnly noMetadata Config.empty
  = Js.Normal Clean.
Proof.
  apply (unlisted_name_is_clean string string Some [] "P" "2.0.0"
           versionOnly noMetadata Config.empty).
  - reflexivity.
  - reflexivity.
  - repeat split.
  - repeat split.
  - intros id c [H | []]. inversion H; subst. reflexivity.
  - intros id c vs [H | []] Hvs. inversion H; subst.
    inversion Hvs; subst. reflexivity.
Defined.

(** C3, as the specification states it, fails twice.  An empty entry of
    [affectedVersions] means that every version is affected: the issue has
    the campaign's severity, not low.  And a campaign that has the name in
    its packages does not decide when an earlier campaign lists the version:
    the issue is the critical one of the earlier campaign. *)
Lemma campaign_member_not_always_split :
  (inCampaign "P" emptyEntryCampaign
   /\ campaignVersions emptyEntryCampaign "P" = Some (Proto.Data [])
   /\ ~ In (cleanVersion "1.0.0") []
   /\ exists issue,
       checkPackage Some [] "P" "1.0.0" emptyEntry noMetadata Config.empty
       = Js.Normal (Found issue)
       /\ Issue.severity issue = "medium"
       /\ Issue.safeVersion issue = false)
  /\
  (inCampaign "P" memberCampaign
   /\ campaignVersions memberCampaign "P" = None
   /\ exists issue,
       checkPackage Some [] "P" "1.0.0" versionThenMember noMetadata
                    Config.empty
       = Js.Normal (Found issue)
       /\ Issue.severity issue = "critical"
       /\ Issue.severity issue
          <> orDefault (Campaign.severity memberCampaign) "high").
Proof.
  split.
  - split; [reflexivity | split; [reflexivity | split; [intros [] |]]].
    eexists. split; [reflexivity | split; reflexivity].
  - split; [reflexivity | split; [reflexivity |]].
    eexists. split; [reflexivity | split; [reflexivity | discriminate]].
Qed.

(** C3, amended.  Take a node whose version is a string, that no ignore or
    trusted pattern matches and that is in no malicious category and no
    protestware tier, and the first campaign, in the order of the loop,
    whose packages hold its name; let no earlier campaign have under the
    name in [affectedVersions] anything but a list that is not empty and
    does not hold the cleaned version, and let the entry of the campaign
    itself, if it has one, be a property of its own.  If the campaign has a
    non-empty entry for the name and the cleaned version is not in it, the
    issue has severity low and the safeVersion marker; otherwise it has the
    campaign's declared severity, high when that is unset or empty, and no
    marker. *)
Theorem campaign_member_severity
        (V W : Type) (text : V -> option string)
        (ignoreList : list string) (name : string) (version : V)
        (given : string)
        (db : ThreatDatabase.t) (depInfo : option (DepInfo.t W))
        (config : Config.t)
        (earlier later : Obj.t Campaign.t) (id : string)
        (campaign : Campaign.t) :
  text version = Some given ->
  isIgnored ignoreList name config = false ->
  isTrusted name db config = false ->
  inNoCategory name db ->
  inNoTier name db ->
  campaignsOf db = earlier ++ (id, campaign) :: later ->
  inNoCampaign name earlier ->
  noVersionListed text name version earlier ->
  inCampaign name campaign ->
  ownEntry name campaign ->
  exists issue,
    checkPackage text ignoreList name version db depInfo config
    = Js.Normal (Found issue)
    /\ Issue.campaign issue = Some id
    /\ match campaignVersions campaign name with
       | Some (Proto.Data (v :: vs)) =>
           if includes (v :: vs) (cleanVersion given)
           then Issue.severity issue
                = orDefault (Campaign.severity campaign) "high"
                /\ Issue.safeVersion issue = false
           else Issue.severity issue = "low"
                /\ Issue.safeVersion issue = true
       | _ =>
           Issue.severity issue = orDefault (Campaign.severity campaign) "high"
           /\ Issue.safeVersion issue = false
       end.
Proof.
  intros Htext Hign Htr Hcat Htier Hcs Hpk Hv Hin Hown.
  rewrite (checkPackage_campaigns text) by assumption.
  rewrite Hcs, checkCampaigns_skip_all by assumption.
  unfold inCampaign in Hin. cbn [checkCampaigns]. rewrite Hin.
  destruct (campaignVersions campaign name) as [[[|v vs]|b]|] eqn:E;
    unfold versionIsSafe, isVersionAffected; cbn [lengthIsZero Js.andThen].
  - eexists. repeat split.
  - rewrite Htext. cbn [versionsInclude Js.andThen].
    destruct (includes (v :: vs) (cleanVersion given));
      eexists; repeat split.
  - exfalso. exact (Hown b E).
  - eexists. repeat split.
Qed.

Lemma campaign_member_severity_witness :
  (exists issue,
      checkPackage Some [] "P" "1.0.0" versionSplit noMetadata Config.empty
      = Js.Normal (Found issue)
      /\ Issue.campaign issue = Some "c1"
      /\ Issue.severity issue = "high" /\ Issue.safeVersion issue = false)
  /\
  (exists issue,
      checkPackage Some [] "P" "^2.0.0" versionSplit noMetadata Config.empty
      = Js.Normal (Found issue)
      /\ Issue.campaign issue = Some "c1"
      /\ Issue.severity issue = "low" /\ Issue.safeVersion issue = true).
Proof.
  split.
  - apply (campaign_member_severity string string Some [] "P" "1.0.0"
             "1.0.0" versionSplit noMetadata Config.empty [] [] "c1"
             splitCampaign).
    + reflexivity.
    + reflexivity.
    + reflexivity.
    + repeat split.
    + repeat split.
    + reflexivity.
    + intros id c [].
    + intros id c vs [].
    + reflexivity.
    + intros b H. discriminate H.
  - apply (campaign_member_severity string string Some [] "P" "^2.0.0"
             "^2.0.0" versionSplit noMetadata Config.empty [] [] "c1"
             splitCampaign).
    + reflexivity.
    + reflexivity.
    + reflexivity.
    + repeat split.
    + repeat split.
    + reflexivity.
    + intros id c [].
    + intros id c vs [].
    + reflexivity.
    + intros b H. discriminate H.
Defined.

(** C9. A name on the confirmed list that no ignore or trusted pattern
    matches yields the Confirmed Malicious issue, of severity critical,
    whatever the version string; the issue is a function of the node alone,
    so that a second classification returns the same issue. *)
Theorem confirmed_is_critical
        (V W : Type) (text : V -> option string)
        (ignoreList : list string) (name : string)
        (db : ThreatDatabase.t) (depInfo : option (DepInfo.t W))
        (config : Config.t) (known : KnownMalicious.t)
        (names : list string) :
  isIgnored ignoreList name config = false ->
  isTrusted name db config = false ->
  ThreatDatabase.knownMalicious db = Some known ->
  KnownMalicious.confirmed known = Some names ->
  In name names ->
  forall version : V,
  exists issue,
    checkPackage text ignoreList name version db depInfo config
    = Js.Normal (Found issue)
    /\ Issue.severity issue = "critical"
    /\ Issue.type issue = "Confirmed Malicious"
    /\ Issue.package issue = name
    /\ Issue.version issue = version
    /\ forall again,
        again = checkPackage text ignoreList name version db depInfo config ->
        again = Js.Normal (Found issue).
Proof.
  intros Hign Htr Hdb Hkn Hin version.
  unfold checkPackage. rewrite Hign, Htr, Hdb. cbv zeta. rewrite Hkn.
  unfold optIncludes. rewrite (proj2 (includes_In names name) Hin).
  eexists. repeat split. intros again ->. reflexivity.
Qed.

Lemma confirmed_is_critical_witness :
  exists issue,
    checkPackage Some [] "dep-b" "2.0.0" depBConfirmed (Some viaDepA)
                 Config.empty
    = Js.Normal (Found issue)
    /\ Issue.severity issue = "critical"
    /\ Issue.type issue = "Confirmed Malicious"
    /\ Issue.package issue = "dep-b"
    /\ Issue.version issue = "2.0.0"
    /\ forall again,
        again = checkPackage Some [] "dep-b" "2.0.0" depBConfirmed
                             (Some viaDepA) Config.empty ->
        again = Js.Normal (Found issue).
Proof.
  apply (confirmed_is_critical string string Some [] "dep-b" depBConfirmed
           (Some viaDepA) Config.empty (confirmedOnly ["dep-b"]) ["dep-b"]).
  - reflexivity.
  - reflexivity.
  - reflexivity.
  - reflexivity.
  - simpl. left. reflexivity.
Defined.

(** The issues of the loop over the campaigns either keep the lineage of
    the base issue or are built without it. *)
Lemma checkCampaigns_lineage (V : Type) (text : V -> option string)
      (base : Issue.t V) (name : string) (version : V)
      (campaigns : Obj.t Campaign.t) (issue : Issue.t V) :
  checkCampaigns text base name version campaigns = Js.Normal (Some issue) ->
  (Issue.isDirect issue = Issue.isDirect base
   /\ Issue.isTransitive issue = Issue.isTransitive base
   /\ Issue.dependencyChain issue = Issue.dependencyChain base)
  \/ (exists id campaign versions,
         issue = versionIssue name version id campaign versions).
Proof.
  induction campaigns as [|[id c] rest IH]; cbn [checkCampaigns];
    [discriminate|].
  destruct (optIncludes (Campaign.packages c) name).
  - destruct (versionIsSafe text version (campaignVersions c name))
      as [[|]|e]; cbn [Js.andThen];
      intros H; inversion H; subst; left; repeat split.
  - destruct (campaignVersions c name) as [vs|]; [|exact IH].
    destruct (isVersionAffected text version (Some vs)) as [[|]|e];
      cbn [Js.andThen]; [| exact IH | discriminate].
    intros H; inversion H; subst. right. now exists id, c, vs.
Qed.

(** C10. Without dependency metadata, every issue built from the base issue
    says that the node is direct, not transitive, and has an empty chain;
    the only other issue is the one of a version listed by a campaign, which
    is built without the base issue and carries no lineage at all. *)
Theorem unknown_lineage_is_direct
        (V W : Type) (text : V -> option string)
        (ignoreList : list string) (name : string) (version : V)
        (db : ThreatDatabase.t) (config : Config.t) (issue : Issue.t V) :
  checkPackage text ignoreList name version db (@None (DepInfo.t W)) config
  = Js.Normal (Found issue) ->
  (Issue.isDirect issue = Some true
   /\ Issue.isTransitive issue = Some false
   /\ Issue.dependencyChain issue = Some [])
  \/ (Issue.isDirect issue = None
      /\ Issue.isTransitive issue = None
      /\ Issue.dependencyChain issue = None
      /\ exists id campaign versions,
          issue = versionIssue name version id campaign versions).
Proof.
  unfold checkPackage.
  destruct (isIgnored ignoreList name config); [discriminate|].
  destruct (isTrusted name db config); [discriminate|].
  cbv zeta.
  repeat match goal with
         | |- context [if ?c then Js.Normal (Found _) else _] => destruct c
         | |- Js.Normal (Found _) = Js.Normal (Found _) -> _ =>
             let H := fresh in
             intros H; inversion H; subst; left; repeat split
         end.
  destruct (checkCampaigns _ _ name version _) as [[i|]|e] eqn:E;
    cbn [Js.andThen]; [| discriminate | discriminate].
  intros H; inversion H; subst.
  apply checkCampaigns_lineage in E. destruct E as [E | (id & c & vs & ->)].
  - left. exact E.
  - right. repeat split. now exists id, c, vs.
Qed.

Lemma unknown_lineage_is_direct_witness :
  checkPackage Some [] "dep-b" "2.0.0" depBConfirmed noMetadata Config.empty
  = Js.Normal (Found depBIssue)
  /\ Issue.isDirect depBIssue = Some true
  /\ Issue.isTransitive depBIssue = Some false
  /\ Issue.dependencyChain depBIssue = Some [].
Proof.
  split; [reflexivity|].
  destruct (unknown_lineage_is_direct string string Some [] "dep-b" "2.0.0"
              depBConfirmed Config.empty depBIssue eq_refl)
    as [H | (H & _)]; [exact H | discriminate H].
Defined.

End ClassifierProperties.

(* ================================================================== *)
(** ** The graph builder *)
(* ================================================================== *)

Module MapFacts.

Lemma get_set_same {V} (k : string) (v : V) (m : JsMap.t V) :
  JsMap.get k (JsMap.set k v m) = Some v.
Proof.
  unfold JsMap.get.
  induction m as [|[k' v'] m IH]; simpl.
  - now rewrite String.eqb_refl.
  - destruct (String.eqb k k') eqn:E; simpl.
    + now rewrite String.eqb_refl.
    + now rewrite E.
Qed.

Lemma get_set_other {V} (k k' : string) (v : V) (m : JsMap.t V) :
  k <> k' -> JsMap.get k (JsMap.set k' v m) = JsMap.get k m.
Proof.
  unfold JsMap.get. intros Hne.
  induction m as [|[k2 v2] m IH]; simpl.
  - apply String.eqb_neq in Hne. now rewrite Hne.
  - destruct (String.eqb k' k2) eqn:E; simpl.
    + apply String.eqb_eq in E. subst k2.
      apply String.eqb_neq in Hne. now rewrite Hne.
    + now rewrite IH.
Qed.

End MapFacts.

Module GraphFacts.
Import Graph MapFacts Spec.

Section Merge.
Context {V : Type}.

Lemma addDirect_keeps (name : string) (entry : string * V)
      (merged : JsMap.t (DepInfo.t V)) :
  saysDirect (JsMap.get name merged) ->
  saysDirect (JsMap.get name (addDirect merged entry)).
Proof.
  intros H. unfold addDirect.
  destruct (string_dec name (fst entry)) as [->|Hne].
  - rewrite get_set_same. now exists (snd entry).
  - now rewrite get_set_other.
Qed.

(** After the first loop every declared name has a direct node. *)
Lemma seed_direct (name : string) (directDeps : Obj.t V)
      (merged : JsMap.t (DepInfo.t V)) :
  In name (Obj.keys directDeps) \/ saysDirect (JsMap.get name merged) ->
  saysDirect (JsMap.get name (fold_left addDirect directDeps merged)).
Proof.
  revert merged.
  induction directDeps as [|[k v] rest IH]; intros merged H; simpl.
  - destruct H as [[] | H]. exact H.
  - apply IH. destruct H as [[Hk | Hin] | H].
    + right. simpl in Hk. subst k. unfold addDirect. simpl.
      rewrite get_set_same. now exists v.
    + now left.
    + right. now apply addDirect_keeps.
Qed.

Lemma addLocked_other (name : string) (entry : string * LockEntry.t V)
      (merged : JsMap.t (DepInfo.t V)) :
  name <> fst entry ->
  JsMap.get name (addLocked merged entry) = JsMap.get name merged.
Proof.
  destruct entry as [k info]. simpl. intros Hne.
  destruct (JsMap.get k merged); now rewrite get_set_other.
Qed.

(** The entries of other names leave the node of [name] alone. *)
Lemma addLocked_frame (name : string)
      (lockPackages : JsMap.t (LockEntry.t V))
      (merged : JsMap.t (DepInfo.t V)) :
  ~ In name (JsMap.keys lockPackages) ->
  JsMap.get name (fold_left addLocked lockPackages merged)
  = JsMap.get name merged.
Proof.
  revert merged.
  induction lockPackages as [|[k info] rest IH]; intros merged Hnot;
    cbn [fold_left]; [reflexivity|].
  rewrite IH.
  - apply addLocked_other. simpl. intros ->. apply Hnot. now left.
  - intros Hin. apply Hnot. now right.
Qed.

(** The entry of [name] overwrites the version of a direct node and
    nothing else. *)
Lemma addLocked_direct (name : string)
      (lockPackages : JsMap.t (LockEntry.t V)) (info : LockEntry.t V)
      (merged : JsMap.t (DepInfo.t V)) :
  NoDup (JsMap.keys lockPackages) ->
  JsMap.get name lockPackages = Some info ->
  saysDirect (JsMap.get name merged) ->
  JsMap.get name (fold_left addLocked lockPackages merged)
  = Some (directNode (LockEntry.version info)).
Proof.
  revert merged.
  induction lockPackages as [|[k i] rest IH]; intros merged Hnd Hget Hdir;
    [discriminate|].
  simpl in Hnd. inversion Hnd as [|? ? Hnotin Hnd']; subst.
  unfold JsMap.get in Hget. simpl in Hget. cbn [fold_left].
  destruct (String.eqb name k) eqn:E.
  - apply String.eqb_eq in E. subst k. inversion Hget; subst i.
    rewrite addLocked_frame by exact Hnotin.
    destruct Hdir as [declared Hdir]. cbn [addLocked]. rewrite Hdir.
    now rewrite get_set_same.
  - apply IH; [assumption | exact Hget |].
    rewrite addLocked_other; [assumption|].
    simpl. now apply String.eqb_neq.
Qed.
End Merge.

(** C5. A directly declared name that the lock file also records keeps its
    direct node after the merge, with the version replaced by the decoded
    one: the node still says direct, not transitive, with an empty chain.
    The lock entries are those of a map, one for a name. *)
Theorem direct_identity_wins
        (V : Type) (directDeps : Obj.t V)
        (lockPackages : JsMap.t (LockEntry.t V))
        (name : string) (info : LockEntry.t V) :
  NoDup (JsMap.keys lockPackages) ->
  In name (Obj.keys directDeps) ->
  JsMap.get name lockPackages = Some info ->
  exists before,
    JsMap.get name (fold_left addDirect directDeps JsMap.empty) = Some before
    /\ JsMap.get name (mergeDependencies directDeps lockPackages)
       = Some (withVersion before (LockEntry.version info))
    /\ withVersion before (LockEntry.version info)
       = {| DepInfo.version := LockEntry.version info;
            DepInfo.isDirect := true;
            DepInfo.isTransitive := false;
            DepInfo.dependencyChain := [] |}.
Proof.
  intros Hnd Hin Hget.
  destruct (seed_direct name directDeps JsMap.empty (or_introl Hin))
    as [declared Hseed].
  exists (directNode declared). split; [exact Hseed|]. split; [|reflexivity].
  unfold mergeDependencies.
  rewrite (addLocked_direct name lockPackages info) ; try assumption.
  - reflexivity.
  - now exists declared.
Qed.

Lemma direct_identity_wins_witness :
  exists before,
    JsMap.get "dep-a"
      (fold_left addDirect GraphScenario.manifest JsMap.empty) = Some before
    /\ JsMap.get "dep-a"
         (mergeDependencies GraphScenario.manifest GraphScenario.resolved)
       = Some (withVersion before "1.2.0")
    /\ withVersion before "1.2.0"
       = {| DepInfo.version := "1.2.0";
            DepInfo.isDirect := true;
            DepInfo.isTransitive := false;
            DepInfo.dependencyChain := [] |}.
Proof.
  apply (direct_identity_wins string GraphScenario.manifest
           GraphScenario.resolved "dep-a" (LockEntry.mk "1.2.0" true [])).
  - repeat constructor; simpl; intuition discriminate.
  - simpl. left. reflexivity.
  - reflexivity.
Defined.

End GraphFacts.

(* ================================================================== *)
(** ** Facts about the matcher *)
(* ================================================================== *)

Module RegexFacts.
Import JsString Regex Chars RegexSpec StringFacts.

Lemma consumed_app (a rest : string) : consumed (a ++ rest) rest = a.
Proof.
  unfold consumed. rewrite length_app.
  replace (String.length a + String.length rest - String.length rest)
    with (String.length a) by lia.
  apply substring_prefix.
Qed.

Lemma consumed_eq (s a rest : string) :
  s = (a ++ rest)%string -> consumed s rest = a.
Proof. intros ->. apply consumed_app. Qed.

Lemma allChars_impl (p q : charclass) (s : string) :
  (forall c, p c = true -> q c = true) ->
  allChars p s = true -> allChars q s = true.
Proof.
  intros Hpq. induction s as [|c s IH]; simpl; [reflexivity|].
  intros H. apply andb_true_iff in H. destruct H as [Hc Hs].
  now rewrite (Hpq c Hc), IH.
Qed.

Lemma allChars_app (p : charclass) (a b : string) :
  allChars p (a ++ b) = allChars p a && allChars p b.
Proof.
  induction a as [|c a IH]; simpl; [reflexivity|].
  now rewrite IH, andb_assoc.
Qed.

Section Greedy.
Context {A : Type}.
Implicit Types (k : string -> captures -> option A) (x : A).

(** A greedy repetition reads a whole run of the class and stops there
    when the class does not go on. *)
Lemma star_m_stop (p : charclass) (run rest : string)
      (k : string -> option A) (x : A) :
  allChars p run = true ->
  stopsAt p rest = true ->
  k rest = Some x ->
  star_m p (run ++ rest) k = Some x.
Proof.
  intros Hrun Hstop Hk. induction run as [|c run IH]; simpl.
  - destruct rest as [|c rest]; simpl; [exact Hk|].
    simpl in Hstop. apply negb_true_iff in Hstop. now rewrite Hstop.
  - simpl in Hrun. apply andb_true_iff in Hrun. destruct Hrun as [Hc Hrun].
    now rewrite Hc, (IH Hrun).
Qed.

(** When the continuation fails after every longer run, the repetition
    gives back characters until it goes through. *)
Lemma star_m_backtrack (p : charclass) (u v rest : string)
      (k : string -> option A) :
  allChars p u = true ->
  allChars p v = true ->
  stopsAt p rest = true ->
  (forall v1 v2, v = (v1 ++ v2)%string -> v1 <> EmptyString ->
                 k (v2 ++ rest)%string = None) ->
  k (v ++ rest)%string <> None ->
  star_m p (u ++ v ++ rest) k = k (v ++ rest)%string.
Proof.
  intros Hu Hv Hstop Hfail Hk.
  assert (Hbase : star_m p (v ++ rest) k = k (v ++ rest)%string).
  { clear Hu Hk. induction v as [|c v IH]; simpl.
    - destruct rest as [|c rest]; simpl; [reflexivity|].
      simpl in Hstop. apply negb_true_iff in Hstop. now rewrite Hstop.
    - simpl in Hv. apply andb_true_iff in Hv. destruct Hv as [Hc Hv].
      rewrite Hc, IH.
      + rewrite (Hfail (String c EmptyString) v); [reflexivity | reflexivity |
                                                   discriminate].
      + exact Hv.
      + intros v1 v2 -> Hne. apply (Hfail (String c v1) v2);
          [reflexivity | discriminate]. }
  induction u as [|c u IH]; simpl; [exact Hbase|].
  simpl in Hu. apply andb_true_iff in Hu. destruct Hu as [Hc Hu].
  rewrite Hc, (IH Hu).
  destruct (k (v ++ rest)%string); [reflexivity | congruence].
Qed.

Lemma rmatch_chr (p : charclass) (c : ascii) (s : string) (cs : captures)
      k x :
  p c = true -> k s cs = Some x ->
  rmatch (Chr p) (String c s) cs k = Some x.
Proof. intros Hc Hk. simpl. now rewrite Hc. Qed.

Lemma rmatch_plus_stop (p : charclass) (run rest : string) (cs : captures)
      k x :
  run <> EmptyString ->
  allChars p run = true -> stopsAt p rest = true ->
  k rest cs = Some x ->
  rmatch (Plus p) (run ++ rest) cs k = Some x.
Proof.
  intros Hne Hrun Hstop Hk. destruct run as [|c run]; [congruence|].
  simpl in Hrun. apply andb_true_iff in Hrun. destruct Hrun as [Hc Hrun].
  unfold Plus. cbn [rmatch append]. rewrite Hc. now apply star_m_stop.
Qed.

Lemma rmatch_plus_backtrack (p : charclass) (u v rest : string)
      (cs : captures) k x :
  u <> EmptyString ->
  allChars p u = true -> allChars p v = true -> stopsAt p rest = true ->
  (forall v1 v2, v = (v1 ++ v2)%string -> v1 <> EmptyString ->
                 k (v2 ++ rest)%string cs = None) ->
  k (v ++ rest)%string cs = Some x ->
  rmatch (Plus p) (u ++ v ++ rest) cs k = Some x.
Proof.
  intros Hne Hu Hv Hstop Hfail Hk. destruct u as [|c u]; [congruence|].
  simpl in Hu. apply andb_true_iff in Hu. destruct Hu as [Hc Hu].
  unfold Plus. cbn [rmatch append]. rewrite Hc.
  rewrite (star_m_backtrack p u v rest (fun s' => k s' cs));
    try assumption.
  congruence.
Qed.

Lemma rmatch_opt_take (r : regex) (s : string) (cs : captures) k x :
  rmatch r s cs k = Some x -> rmatch (Opt r) s cs k = Some x.
Proof. intros H. simpl. now rewrite H. Qed.

Lemma rmatch_opt_skip (r : regex) (s : string) (cs : captures) k x :
  rmatch r s cs k = None -> k s cs = Some x ->
  rmatch (Opt r) s cs k = Some x.
Proof. intros H Hk. simpl. now rewrite H. Qed.
End Greedy.

Lemma rmatch_lit {A} (l s : string) (cs : captures)
      (k : string -> captures -> option A) :
  rmatch (Lit l) (l ++ s) cs k = k s cs.
Proof.
  induction l as [|c l IH]; simpl; [reflexivity|].
  unfold only. now rewrite Ascii.eqb_refl.
Qed.

(** The matcher only reports what the expression can read. *)
Lemma star_m_sound {A} (p : charclass) (s : string)
      (k : string -> option A) (x : A) :
  star_m p s k = Some x ->
  exists rest, Run (Star p) s rest /\ k rest = Some x.
Proof.
  induction s as [|c s IH]; simpl; intros H.
  - exists EmptyString. split; [constructor | exact H].
  - destruct (p c) eqn:Hc.
    + destruct (star_m p s k) as [y|] eqn:E.
      * inversion H; subst y. destruct (IH eq_refl) as [rest [Hr Hk]].
        exists rest. split; [now constructor | exact Hk].
      * exists (String c s). split; [constructor | exact H].
    + exists (String c s). split; [constructor | exact H].
Qed.

Lemma rmatch_sound {A} (r : regex) :
  forall (s : string) (cs : captures)
         (k : string -> captures -> option A) (x : A),
    rmatch r s cs k = Some x ->
    exists rest cs', Run r s rest /\ k rest cs' = Some x.
Proof.
  induction r as [| p | r1 IH1 r2 IH2 | r IH | p | i r IH |];
    intros s cs k x H; simpl in H.
  - exists s, cs. split; [constructor | exact H].
  - destruct s as [|c s]; [discriminate|].
    destruct (p c) eqn:Hc; [|discriminate].
    exists s, cs. split; [now constructor | exact H].
  - apply IH1 in H. destruct H as (s1 & cs1 & Hr1 & H).
    apply IH2 in H. destruct H as (s2 & cs2 & Hr2 & H).
    exists s2, cs2. split; [now apply (RunSeq r1 r2 s s1 s2) | exact H].
  - destruct (rmatch r s cs k) as [y|] eqn:E.
    + inversion H; subst y. apply IH in E.
      destruct E as (rest & cs' & Hr & Hk).
      exists rest, cs'. split; [now apply RunOptTake | exact Hk].
    + exists s, cs. split; [constructor | exact H].
  - apply star_m_sound in H. destruct H as (rest & Hr & Hk).
    now exists rest, cs.
  - apply IH in H. destruct H as (rest & cs' & Hr & Hk).
    eexists rest, _. split; [now constructor | exact Hk].
  - destruct s; [|discriminate].
    exists EmptyString, cs. split; [constructor | exact H].
Qed.

(** What a repetition of a class reads is a run of the class. *)
Lemma Run_star_inv (p : charclass) (s rest : string) :
  Run (Star p) s rest ->
  exists run, s = (run ++ rest)%string /\ allChars p run = true.
Proof.
  intros H. remember (Star p) as r eqn:Hr.
  induction H; try discriminate; inversion Hr; subst.
  - exists EmptyString. split; reflexivity.
  - destruct (IHRun eq_refl) as (run & -> & Hrun).
    exists (String c run). split; [reflexivity|].
    simpl. now rewrite H, Hrun.
Qed.

End RegexFacts.

(* ================================================================== *)
(** ** Scoped names in the entries of the three dialects *)
(* ================================================================== *)

Module ScopedNames.
Import JsString Regex Chars RegexSpec StringFacts RegexFacts.

(** The plain characters are in every class the decoders use for names and
    versions. *)
Ltac by_cases_on_char :=
  intros [[|] [|] [|] [|] [|] [|] [|] [|]]; vm_compute;
  intros; congruence.

Lemma plain_in_scope_pnpm c : plainChar c = true -> noneOf "@/" c = true.
Proof. revert c. by_cases_on_char. Qed.

Lemma plain_in_name_pnpm c : plainChar c = true -> noneOf "@:" c = true.
Proof. revert c. by_cases_on_char. Qed.

Lemma plain_in_version_pnpm c : plainChar c = true -> noneOf ":'" c = true.
Proof. revert c. by_cases_on_char. Qed.

Lemma plain_in_segment_npm c : plainChar c = true -> noneOf "/" c = true.
Proof. revert c. by_cases_on_char. Qed.

Lemma plain_in_scope_yarn c : plainChar c = true -> noneOfWs "@," c = true.
Proof. revert c. by_cases_on_char. Qed.

Lemma plain_in_name_yarn c :
  plainChar c = true -> noneOfWs (String DQUOTE "@,'") c = true.
Proof. revert c. by_cases_on_char. Qed.

Lemma plain_in_range_yarn c :
  plainChar c = true -> noneOfWs (String DQUOTE ",:'") c = true.
Proof. revert c. by_cases_on_char. Qed.

Lemma plain_in_version_yarn c :
  plainChar c = true -> noneOfWs quotes c = true.
Proof. revert c. by_cases_on_char. Qed.

Lemma plain_not_slash c : plainChar c = true -> only "/" c = false.
Proof. revert c. by_cases_on_char. Qed.

Create HintDb plain.
#[export] Hint Resolve plain_in_scope_pnpm plain_in_name_pnpm
  plain_in_version_pnpm plain_in_segment_npm plain_in_scope_yarn
  plain_in_name_yarn plain_in_range_yarn plain_in_version_yarn : plain.

(** The line as one character after the other, as far as it is known. *)
Ltac flat := repeat (progress (cbn [append]; rewrite ?app_assoc)).

(** One step of a match: the head of a sequence is taken apart. *)
Ltac seq :=
  match goal with
  | |- @rmatch ?A (Seq ?a ?b) ?s ?cs ?k = ?x =>
      change (@rmatch A a s cs (fun s1 cs1 => rmatch b s1 cs1 k) = x)
  end.

Ltac group :=
  match goal with
  | |- @rmatch ?A (Group ?i ?r) ?s ?cs ?k = ?x =>
      change (@rmatch A r s cs
                (fun s' cs' => k s' ((i, consumed s s') :: cs')) = x);
      cbv beta
  end.

(** A literal character of the line. *)
Ltac chr := apply rmatch_chr; [reflexivity | cbv beta].

(** An optional character that the line does not have. *)
Ltac skip := apply rmatch_opt_skip; [reflexivity | cbv beta].

(** A run of plain characters up to a delimiter. *)
Ltac run H :=
  apply rmatch_plus_stop;
  [ exact (proj1 H)
  | apply (allChars_impl plainChar); [auto with plain | exact (proj2 H)]
  | reflexivity
  | cbv beta ].

Lemma packageRe_slash_entry (scope base version : string) :
  Plain scope -> Plain base -> Plain version ->
  Pnpm.nameAndVersion
    (exec_at Pnpm.packageRe
       ("/" ++ scoped scope base ++ "@" ++ version ++ ":"))
  = Some (scoped scope base, version).
Proof.
  intros Hs Hb Hv.
  assert (H : exec_at Pnpm.packageRe
                ("/" ++ scoped scope base ++ "@" ++ version ++ ":")
              = Some (EmptyString,
                      [(2, version); (1, scoped scope base)])).
  { unfold exec_at, Pnpm.packageRe, scoped.
    repeat rewrite app_assoc. cbn [append].
    seq. skip. seq. apply rmatch_opt_take. chr.
    seq. group. seq. apply rmatch_opt_take. seq. chr. seq. run Hs. chr.
    run Hb. seq. chr. seq. group. run Hv.
    seq. skip. seq. apply rmatch_opt_take. chr.
    seq. cbn [rmatch star_m].
    f_equal. f_equal. f_equal.
    - f_equal. apply consumed_eq. reflexivity.
    - f_equal. f_equal. apply consumed_eq.
      cbn [append]. now rewrite !app_assoc. }
  now rewrite H.
Qed.

End ScopedNames.

Module RunFacts.
Import JsString Regex Chars RegexSpec StringFacts RegexFacts.

Lemma Run_seq_inv (r1 r2 : regex) (s rest : string) :
  Run (Seq r1 r2) s rest -> exists s1, Run r1 s s1 /\ Run r2 s1 rest.
Proof. intros H. inversion H; subst. now exists s1. Qed.

Lemma Run_chr_inv (p : charclass) (s rest : string) :
  Run (Chr p) s rest -> exists c, s = String c rest /\ p c = true.
Proof. intros H. inversion H; subst. now exists c. Qed.

Lemma Run_opt_inv (r : regex) (s rest : string) :
  Run (Opt r) s rest -> s = rest \/ Run r s rest.
Proof. intros H. inversion H; subst; [now left | now right]. Qed.

Lemma Run_group_inv (i : nat) (r : regex) (s rest : string) :
  Run (Group i r) s rest -> Run r s rest.
Proof. intros H. now inversion H. Qed.

Lemma Run_eol_inv (s rest : string) :
  Run Eol s rest -> s = EmptyString /\ rest = EmptyString.
Proof. intros H. now inversion H. Qed.

Lemma Run_lit_inv (l s rest : string) :
  Run (Lit l) s rest -> s = (l ++ rest)%string.
Proof.
  revert s. induction l as [|c l IH]; intros s H; simpl in H.
  - now inversion H.
  - apply Run_seq_inv in H. destruct H as (s1 & Hc & Hl).
    apply Run_chr_inv in Hc. destruct Hc as (d & -> & Hd).
    unfold only in Hd. apply Ascii.eqb_eq in Hd. subst d.
    simpl. f_equal. now apply IH.
Qed.

Lemma Run_plus_inv (p : charclass) (s rest : string) :
  Run (Plus p) s rest ->
  exists run, s = (run ++ rest)%string /\ allChars p run = true.
Proof.
  unfold Plus. intros H.
  apply Run_seq_inv in H. destruct H as (s1 & Hc & Hs).
  apply Run_chr_inv in Hc. destruct Hc as (c & -> & Hc).
  apply Run_star_inv in Hs. destruct Hs as (run & -> & Hrun).
  exists (String c run). split; [reflexivity|]. simpl. now rewrite Hc, Hrun.
Qed.

Lemma count_app (c : ascii) (a b : string) :
  count c (a ++ b) = count c a + count c b.
Proof. induction a as [|d a IH]; simpl; [reflexivity | rewrite IH; lia]. Qed.

Lemma count_none (c : ascii) (s : string) :
  allChars (noneOf (String c EmptyString)) s = true -> count c s = 0.
Proof.
  induction s as [|d s IH]; simpl; [reflexivity|].
  intros H. apply andb_true_iff in H. destruct H as [Hd Hs].
  rewrite (IH Hs). unfold noneOf, oneOf in Hd. simpl in Hd.
  rewrite orb_false_r in Hd. apply negb_true_iff in Hd.
  rewrite Ascii.eqb_sym in Hd. now rewrite Hd.
Qed.

Lemma before_app (c : ascii) (a b : string) :
  count c a = 0 -> before c (a ++ String c b) = a.
Proof.
  induction a as [|d a IH]; simpl.
  - now rewrite Ascii.eqb_refl.
  - destruct (Ascii.eqb c d); [discriminate|].
    intros H. now rewrite IH.
Qed.

End RunFacts.

Module NpmPaths.
Import JsString Regex Chars RegexSpec StringFacts RegexFacts RunFacts.
Import ScopedNames.

(** A path the expression matches from its first character is
    [node_modules/] followed by at most one more slash. *)
Lemma pathRe_shape (s : string) (m : string * captures) :
  exec_at Npm.pathRe s = Some m ->
  exists tail, s = ("node_modules/" ++ tail)%string /\ count "/" tail <= 1.
Proof.
  unfold exec_at. intros H. apply rmatch_sound in H.
  destruct H as (rest & cs & H & _). unfold Npm.pathRe in H.
  apply Run_seq_inv in H. destruct H as (tail & Hlit & H).
  apply Run_lit_inv in Hlit.
  apply Run_seq_inv in H. destruct H as (s2 & Hg & Heol).
  apply Run_eol_inv in Heol. destruct Heol as [-> ->].
  apply Run_group_inv in Hg.
  apply Run_seq_inv in Hg. destruct Hg as (s3 & Hopt & Hname).
  apply Run_plus_inv in Hname. destruct Hname as (name & -> & Hname).
  exists tail. split; [exact Hlit|].
  apply count_none in Hname.
  apply Run_opt_inv in Hopt. destruct Hopt as [-> | Hscope].
  - rewrite count_app, Hname. simpl. lia.
  - apply Run_seq_inv in Hscope. destruct Hscope as (s4 & Hat & Hscope).
    apply Run_chr_inv in Hat. destruct Hat as (c & -> & Hc).
    apply Run_seq_inv in Hscope. destruct Hscope as (s5 & Hsc & Hslash).
    apply Run_plus_inv in Hsc. destruct Hsc as (sc & -> & Hsc).
    apply Run_chr_inv in Hslash. destruct Hslash as (d & -> & Hd).
    apply count_none in Hsc.
    unfold only in Hc, Hd. apply Ascii.eqb_eq in Hc, Hd. subst c d.
    simpl. rewrite count_app, Hsc. simpl. rewrite count_app, Hname.
    simpl. lia.
Qed.

Lemma plain_no_slash (s : string) :
  allChars plainChar s = true -> count "/" s = 0.
Proof.
  intros H. apply count_none.
  apply (allChars_impl plainChar); [auto with plain | exact H].
Qed.

(** From its first character on, the path of a scoped package matches with
    the whole scoped name as its group. *)
Lemma pathRe_scoped_here (scope base : string) :
  Plain scope -> Plain base ->
  exec_at Npm.pathRe ("node_modules/" ++ scoped scope base)
  = Some (EmptyString, [(1, scoped scope base)]).
Proof.
  intros Hs Hb. unfold exec_at, Npm.pathRe.
  seq. rewrite rmatch_lit. unfold scoped. cbn [append].
  seq. group. seq. apply rmatch_opt_take. seq. chr. seq. run Hs. chr.
  rewrite <- (app_empty_r base) at 1.
  run Hb. cbn [rmatch].
  f_equal. f_equal. f_equal. f_equal. apply consumed_eq.
  now rewrite app_empty_r.
Qed.

(** No match starts before the last [node_modules/] of such a path. *)
Lemma pathRe_not_before (pre scope base : string) :
  pre <> EmptyString ->
  Plain scope -> Plain base ->
  exec_at Npm.pathRe (pre ++ "node_modules/" ++ scoped scope base) = None.
Proof.
  intros Hne [_ Hs] [_ Hb].
  destruct (exec_at Npm.pathRe _) as [m|] eqn:E; [|reflexivity].
  exfalso. apply pathRe_shape in E. destruct E as (tail & Heq & Hcount).
  assert (Hscoped : count "/" (scoped scope base) = 1).
  { unfold scoped.
    rewrite (count_app _ "@"), count_app, (count_app _ "/").
    rewrite (plain_no_slash _ Hs), (plain_no_slash _ Hb). reflexivity. }
  assert (Hpre : count "/" pre = 0).
  { apply (f_equal (count "/")) in Heq.
    rewrite !count_app, Hscoped in Heq.
    change (count "/" "node_modules/") with 1 in Heq. lia. }
  assert (Hb1 : before "/" (pre ++ "node_modules/" ++ scoped scope base)
                = (pre ++ "node_modules")%string).
  { replace (pre ++ "node_modules/" ++ scoped scope base)%string
      with ((pre ++ "node_modules") ++ String "/" (scoped scope base))%string
      by (rewrite app_assoc; reflexivity).
    apply before_app. rewrite count_app, Hpre. reflexivity. }
  rewrite Heq in Hb1.
  change (before "/" ("node_modules/" ++ tail)) with "node_modules" in Hb1.
  apply (f_equal String.length) in Hb1. rewrite length_app in Hb1.
  destruct pre; [congruence | simpl in Hb1; lia].
Qed.

(** The leftmost match of the path of a scoped package, however deep the
    package is nested, has the whole scoped name as its group. *)
Lemma pathRe_scoped (pre scope base : string) :
  Plain scope -> Plain base ->
  search Npm.pathRe (pre ++ "node_modules/" ++ scoped scope base)
  = Some (EmptyString, [(1, scoped scope base)]).
Proof.
  intros Hs Hb. induction pre as [|c pre IH].
  - change (EmptyString ++ "node_modules/" ++ scoped scope base)%string
      with ("node_modules/" ++ scoped scope base)%string.
    pose proof (pathRe_scoped_here scope base Hs Hb) as H.
    destruct ("node_modules/" ++ scoped scope base)%string;
      cbn [search]; now rewrite H.
  - pose proof (pathRe_not_before (String c pre) scope base) as H.
    change (String c pre ++ "node_modules/" ++ scoped scope base)%string
      with (String c (pre ++ "node_modules/" ++ scoped scope base)) in *.
    cbn [search]. rewrite H; [exact IH | discriminate | assumption..].
Qed.

End NpmPaths.

Module PnpmEntries.
Import JsString Regex Chars RegexSpec StringFacts RegexFacts MapFacts.
Import ScopedNames.

Lemma packageRe_quoted_entry (scope base version : string) :
  Plain scope -> Plain base -> Plain version ->
  Pnpm.nameAndVersion
    (exec_at Pnpm.packageRe
       ("'" ++ scoped scope base ++ "@" ++ version ++ "':"))
  = Some (scoped scope base, version).
Proof.
  intros Hs Hb Hv.
  assert (H : exec_at Pnpm.packageRe
                ("'" ++ scoped scope base ++ "@" ++ version ++ "':")
              = Some (EmptyString,
                      [(2, version); (1, scoped scope base)])).
  { unfold exec_at, Pnpm.packageRe, scoped.
    repeat rewrite app_assoc. cbn [append].
    seq. apply rmatch_opt_take. chr. seq. skip.
    seq. group. seq. apply rmatch_opt_take. seq. chr. seq. run Hs. chr.
    run Hb. seq. chr. seq. group. run Hv.
    seq. apply rmatch_opt_take. chr. seq. apply rmatch_opt_take. chr.
    seq. cbn [rmatch star_m].
    f_equal. f_equal. f_equal.
    - f_equal. apply consumed_eq. reflexivity.
    - f_equal. f_equal. apply consumed_eq.
      cbn [append]. now rewrite !app_assoc. }
  now rewrite H.
Qed.

Lemma readEntry_scoped (trimmed scope base version : string)
      (packages : JsMap.t (LockEntry.t string)) :
  Plain scope -> Plain base -> Plain version ->
  pnpmEntry trimmed scope base version ->
  Pnpm.readEntry trimmed packages
  = Pnpm.record (scoped scope base) version packages.
Proof.
  intros Hs Hb Hv [-> | ->]; unfold Pnpm.readEntry.
  - now rewrite packageRe_slash_entry.
  - now rewrite packageRe_quoted_entry.
Qed.

(** Inside the packages section the line of such a key records the scoped
    name, whole, and nothing else. *)
Lemma step_scoped (st : Pnpm.state) (line scope base version : string) :
  Plain scope -> Plain base -> Plain version ->
  Pnpm.inPackages st = true ->
  pnpmEntry (trim line) scope base version ->
  Pnpm.step st line
  = Pnpm.mkState true
      (Pnpm.record (scoped scope base) version (Pnpm.packages st)).
Proof.
  intros Hs Hb Hv Hin Hentry.
  rewrite <- (readEntry_scoped (trim line) scope base version) by assumption.
  unfold Pnpm.step. rewrite Hin. cbv zeta.
  destruct (startsWith line " "), (startsWith line tab);
    destruct Hentry as [-> | ->]; cbn [append]; reflexivity.
Qed.

Lemma has_set {V} (k k' : string) (v : V) (m : JsMap.t V) :
  JsMap.has k m = true -> JsMap.has k (JsMap.set k' v m) = true.
Proof.
  unfold JsMap.has. intros H.
  destruct (string_dec k k') as [->|Hne].
  - now rewrite get_set_same.
  - now rewrite get_set_other.
Qed.

Lemma has_set_same {V} (k : string) (v : V) (m : JsMap.t V) :
  JsMap.has k (JsMap.set k v m) = true.
Proof. unfold JsMap.has. now rewrite get_set_same. Qed.

Lemma has_record (name version : string)
      (packages : JsMap.t (LockEntry.t string)) :
  JsMap.has name (Pnpm.record name version packages) = true.
Proof.
  unfold Pnpm.record. destruct (JsMap.has name packages) eqn:E;
    [exact E | apply has_set_same].
Qed.

Lemma record_keeps (k name version : string)
      (packages : JsMap.t (LockEntry.t string)) :
  JsMap.has k packages = true ->
  JsMap.has k (Pnpm.record name version packages) = true.
Proof.
  unfold Pnpm.record. intros H.
  destruct (JsMap.has name packages); [exact H | now apply has_set].
Qed.

Lemma readEntry_keeps (k trimmed : string)
      (packages : JsMap.t (LockEntry.t string)) :
  JsMap.has k packages = true ->
  JsMap.has k (Pnpm.readEntry trimmed packages) = true.
Proof.
  intros H. unfold Pnpm.readEntry.
  destruct (Pnpm.nameAndVersion (exec_at Pnpm.packageRe trimmed))
    as [[n v]|]; [now apply record_keeps|].
  destruct (Pnpm.nameAndVersion (exec_at Pnpm.snapshotRe trimmed))
    as [[n v]|]; [|exact H].
  destruct (negb (String.eqb n EmptyString)
            && negb (String.eqb v EmptyString));
    [now apply record_keeps | exact H].
Qed.

(** The decoder never forgets a name. *)
Lemma pnpm_step_keeps (k : string) (st : Pnpm.state) (line : string) :
  JsMap.has k (Pnpm.packages st) = true ->
  JsMap.has k (Pnpm.packages (Pnpm.step st line)) = true.
Proof.
  intros H. unfold Pnpm.step.
  repeat match goal with
         | |- context [if ?c then _ else _] => destruct c
         end; simpl; try exact H.
  now apply readEntry_keeps.
Qed.

Lemma pnpm_steps_keep (k : string) (lines : list string) (st : Pnpm.state) :
  JsMap.has k (Pnpm.packages st) = true ->
  JsMap.has k (Pnpm.packages (fold_left Pnpm.step lines st)) = true.
Proof.
  revert st. induction lines as [|l lines IH]; intros st H; simpl;
    [exact H | apply IH; now apply pnpm_step_keeps].
Qed.

End PnpmEntries.

Module YarnEntries.
Import JsString Regex Chars RegexSpec StringFacts RegexFacts MapFacts.
Import ScopedNames PnpmEntries.

(** A proper end of [/base] is an end of [base]. *)
Lemma end_of_slash_base (base v1 v2 : string) :
  String "/" base = (v1 ++ v2)%string -> v1 <> EmptyString ->
  allChars plainChar base = true ->
  allChars plainChar v2 = true.
Proof.
  intros Heq Hne Hb. destruct v1 as [|c v1]; [congruence|].
  simpl in Heq. inversion Heq; subst.
  rewrite allChars_app in Hb. now apply andb_true_iff in Hb.
Qed.

(** The declaration of a scoped package matches once, from its first
    character to the colon, with the whole scoped name as its group. *)
Lemma declarationRe_scoped (scope base range : string) :
  Plain scope -> Plain base -> Plain range ->
  exec_at Yarn.declarationRe (yarnDeclaration scope base range)
  = Some (":", [(1, scoped scope base)]).
Proof.
  intros Hs Hb Hr.
  unfold exec_at, Yarn.declarationRe, yarnDeclaration, quoted, scoped.
  flat.
  seq. apply rmatch_opt_take. chr.
  seq. group. seq. apply rmatch_opt_take. seq. chr. seq.
  change (scope ++ String "/" (base ++ String "@" (range ++ String DQUOTE ":")))%string
    with (scope ++ String "/" base
                ++ String "@" (range ++ String DQUOTE ":"))%string.
  apply rmatch_plus_backtrack.
  - exact (proj1 Hs).
  - apply (allChars_impl plainChar); [auto with plain | exact (proj2 Hs)].
  - cbn [allChars]. apply andb_true_iff. split; [reflexivity|].
    apply (allChars_impl plainChar); [auto with plain | exact (proj2 Hb)].
  - reflexivity.
  - intros v1 v2 Heq Hne.
    pose proof (end_of_slash_base base v1 v2 Heq Hne (proj2 Hb)) as Hv2.
    destruct v2 as [|d v2]; [reflexivity|].
    simpl in Hv2. apply andb_true_iff in Hv2. destruct Hv2 as [Hd _].
    cbn [append rmatch]. now rewrite (plain_not_slash d Hd).
  - cbn [append]. chr. run Hb. seq. chr. seq. run Hr.
    apply rmatch_opt_take. chr.
    f_equal. f_equal. f_equal. f_equal. apply consumed_eq.
    cbn [append]. now rewrite !app_assoc.
Qed.

Lemma matchAll_skip (r : regex) (a b : string) :
  matchAll_from r (a ++ b) (String.length a) = matchAll_from r b 0.
Proof. induction a as [|c a IH]; [reflexivity | exact IH]. Qed.

(** The names of the declaration line of a scoped package: the scoped name,
    once. *)
Lemma declaredNames_scoped (scope base range : string) :
  Plain scope -> Plain base -> Plain range ->
  Yarn.declaredNames (yarnDeclaration scope base range) = [scoped scope base].
Proof.
  intros Hs Hb Hr.
  pose proof (declarationRe_scoped scope base range Hs Hb Hr) as H.
  unfold Yarn.declaredNames, matchAll.
  unfold yarnDeclaration, quoted in *. cbn [append] in *.
  cbn [matchAll_from]. rewrite H.
  replace (String.length
             (String DQUOTE
                (((scoped scope base ++ String "@" range)
                    ++ String DQUOTE EmptyString) ++ ":"))
           - String.length ":" - 1)
    with (String.length ((scoped scope base ++ String "@" range)
                           ++ String DQUOTE EmptyString))
    by (cbn [String.length]; rewrite (length_app _ ":"); simpl; lia).
  rewrite matchAll_skip.
  reflexivity.
Qed.

(** The version line gives its version. *)
Lemma versionRe_quoted (version : string) :
  Plain version ->
  search Yarn.versionRe (yarnVersion version)
  = Some (EmptyString, [(1, version)]).
Proof.
  intros Hv.
  assert (H : exec_at Yarn.versionRe (yarnVersion version)
              = Some (EmptyString, [(1, version)])).
  { unfold exec_at, Yarn.versionRe, yarnVersion, quoted.
    change ("version " ++ String DQUOTE (version ++ String DQUOTE EmptyString))%string
      with ("version"
              ++ String " " (String DQUOTE (version ++ String DQUOTE EmptyString)))%string.
    seq. rewrite rmatch_lit.
    seq. apply (rmatch_plus_stop is_ws " "); try reflexivity; [discriminate|].
    cbv beta.
    seq. apply rmatch_opt_take. chr. seq. group. run Hv.
    apply rmatch_opt_take. chr.
    f_equal. f_equal. f_equal. f_equal. now apply consumed_eq. }
  unfold yarnVersion in *. cbn [append search] in *. now rewrite H.
Qed.

Lemma indented (line : string) :
  startsWith line "  version" = true -> startsWith line " " = true.
Proof.
  unfold startsWith. intros H. apply prefix_inv in H. destruct H as [r ->].
  apply (prefix_app " " (" version" ++ r)).
Qed.

Lemma not_indented (line : string) :
  startsWith line " " = false -> startsWith line "  version" = false.
Proof.
  intros H. destruct (startsWith line "  version") eqn:E; [|reflexivity].
  apply indented in E. congruence.
Qed.

(** An unindented declaration line of a scoped package makes the scoped
    name, whole, the current package. *)
Lemma step_declaration (st : Yarn.state) (line scope base range : string) :
  Plain scope -> Plain base -> Plain range ->
  startsWith line " " = false ->
  startsWith line tab = false ->
  trim line = yarnDeclaration scope base range ->
  Yarn.step st line = Yarn.mkState [scoped scope base] (Yarn.packages st).
Proof.
  intros Hs Hb Hr Hsp Htab Htrim.
  unfold Yarn.step. rewrite Htrim, Hsp, Htab, (not_indented line Hsp).
  rewrite declaredNames_scoped by assumption. reflexivity.
Qed.

(** The version line that follows commits the version to it. *)
Lemma step_version (st : Yarn.state) (line version : string) :
  Plain version ->
  Yarn.currentPackages st <> [] ->
  startsWith line "  version" = true ->
  trim line = yarnVersion version ->
  Yarn.step st line
  = Yarn.mkState (Yarn.currentPackages st)
      (fold_left (Yarn.commit version) (Yarn.currentPackages st)
                 (Yarn.packages st)).
Proof.
  intros Hv Hcur Hline Htrim.
  unfold Yarn.step. rewrite Htrim, Hline, (indented line Hline).
  rewrite versionRe_quoted by assumption.
  destruct st as [[|n names] packages]; [simpl in Hcur; congruence|].
  reflexivity.
Qed.

Lemma commit_keeps (k version name : string)
      (packages : JsMap.t (LockEntry.t string)) :
  JsMap.has k packages = true ->
  JsMap.has k (Yarn.commit version packages name) = true.
Proof.
  unfold Yarn.commit. intros H.
  destruct (JsMap.has name packages); [exact H | now apply has_set].
Qed.

Lemma commits_keep (k version : string) (names : list string)
      (packages : JsMap.t (LockEntry.t string)) :
  JsMap.has k packages = true ->
  JsMap.has k (fold_left (Yarn.commit version) names packages) = true.
Proof.
  revert packages. induction names as [|n names IH]; intros packages H;
    simpl; [exact H | apply IH; now apply commit_keeps].
Qed.

Lemma has_commit (version name : string)
      (packages : JsMap.t (LockEntry.t string)) :
  JsMap.has name (Yarn.commit version packages name) = true.
Proof.
  unfold Yarn.commit. destruct (JsMap.has name packages) eqn:E;
    [exact E | apply has_set_same].
Qed.

(** The decoder never forgets a name. *)
Lemma yarn_step_keeps (k : string) (st : Yarn.state) (line : string) :
  JsMap.has k (Yarn.packages st) = true ->
  JsMap.has k (Yarn.packages (Yarn.step st line)) = true.
Proof.
  intros H. unfold Yarn.step.
  destruct (String.eqb (trim line) EmptyString || startsWith (trim line) "#");
    [exact H|].
  cbv zeta.
  set (st1 := if negb (startsWith line " ") && negb (startsWith line tab)
              then Yarn.mkState (Yarn.declaredNames (trim line))
                                (Yarn.packages st)
              else st).
  assert (H1 : JsMap.has k (Yarn.packages st1) = true).
  { unfold st1.
    destruct (negb (startsWith line " ") && negb (startsWith line tab));
      exact H. }
  destruct (startsWith line "  version"
            && negb (Nat.eqb (List.length (Yarn.currentPackages st1)) 0));
    [|exact H1].
  destruct (search Yarn.versionRe (trim line)) as [[rest cs]|]; [|exact H1].
  destruct (capture 1 cs); [|exact H1].
  simpl. now apply commits_keep.
Qed.

Lemma yarn_steps_keep (k : string) (lines : list string) (st : Yarn.state) :
  JsMap.has k (Yarn.packages st) = true ->
  JsMap.has k (Yarn.packages (fold_left Yarn.step lines st)) = true.
Proof.
  revert st. induction lines as [|l lines IH]; intros st H; simpl;
    [exact H | apply IH; now apply yarn_step_keeps].
Qed.

End YarnEntries.

(* ================================================================== *)
(** ** What the walk over a package-lock.json keeps *)
(* ================================================================== *)

Module NpmInvariants.
Import JsString Regex Chars RegexSpec NpmSpec StringFacts MapFacts PnpmEntries.

Section Json.
Context {number : Type}.

(** Induction on a JSON value, with the hypothesis for every element of an
    array and for every value of an object. *)
Lemma json_induction (P : Json.t number -> Prop) :
  P Json.Null ->
  (forall b, P (Json.Bool b)) ->
  (forall n, P (Json.Num n)) ->
  (forall s, P (Json.Str s)) ->
  (forall items, Forall P items -> P (Json.Arr items)) ->
  (forall fields,
      Forall (fun field => P (snd field)) fields -> P (Json.Object fields)) ->
  forall v, P v.
Proof.
  intros HNull HBool HNum HStr HArr HObj.
  fix IH 1. intros [| b | n | s | items | fields].
  - exact HNull.
  - apply HBool.
  - apply HNum.
  - apply HStr.
  - apply HArr. induction items as [|v items IHitems]; constructor.
    + apply IH.
    + exact IHitems.
  - apply HObj. induction fields as [|[k v] fields IHfields]; constructor.
    + apply IH.
    + exact IHfields.
Qed.

Variable nonZero : number -> bool.

(** A property of the map that every [set] keeps. *)
Variable Inv : JsMap.t (LockEntry.t (Json.t number)) -> Prop.
Hypothesis Inv_set :
  forall k v m, Inv m -> Inv (JsMap.set k v m).

Lemma ret_keeps {A} (a : A) : Keeps Inv (Js.ret a).
Proof. intros m H. exact H. Qed.

Lemma throw_keeps {A} (e : Js.error) : Keeps Inv (@Js.throw _ A e).
Proof. intros m H. exact H. Qed.

Lemma lift_keeps {A} (c : Js.completion A) : Keeps Inv (Npm.lift c).
Proof. destruct c; [apply ret_keeps | apply throw_keeps]. Qed.

Lemma bind_keeps {A B} (c : Npm.M A) (k : A -> Npm.M B) :
  Keeps Inv c -> (forall a, Keeps Inv (k a)) -> Keeps Inv (Js.bind c k).
Proof.
  intros Hc Hk m H. unfold Js.bind. specialize (Hc m H).
  destruct (c m) as [m' [a|e]]; [now apply Hk | exact Hc].
Qed.

Lemma modify_set_keeps (k : string) (v : LockEntry.t (Json.t number)) :
  Keeps Inv (Js.modify (JsMap.set k v)).
Proof. intros m H. now apply Inv_set. Qed.

Lemma forEach_keeps {X} (xs : list X) (body : X -> Npm.M unit) :
  (forall x, In x xs -> Keeps Inv (body x)) -> Keeps Inv (Js.forEach xs body).
Proof.
  induction xs as [|x xs IH]; intros Hbody; cbn [Js.forEach].
  - apply ret_keeps.
  - apply bind_keeps; [apply Hbody; now left|].
    intros _. apply IH. intros y Hy. apply Hbody. now right.
Qed.

Lemma versionOf_keeps (info : Json.t number) :
  Keeps Inv (Npm.versionOf nonZero info).
Proof.
  unfold Npm.versionOf. apply bind_keeps; [apply lift_keeps|].
  intros v. apply ret_keeps.
Qed.

Lemma readPath_keeps (entry : string * Json.t number) :
  Keeps Inv (Npm.readPath nonZero entry).
Proof.
  destruct entry as [pkgPath pkgInfo]. unfold Npm.readPath.
  destruct (String.eqb pkgPath EmptyString); [apply ret_keeps|].
  destruct (search Npm.pathRe pkgPath) as [[rest cs]|]; [|apply ret_keeps].
  destruct (capture 1 cs) as [name|]; [|apply ret_keeps].
  apply bind_keeps; [apply versionOf_keeps|]. intros version.
  apply bind_keeps; [apply lift_keeps|]. intros dev.
  apply bind_keeps; [apply lift_keeps|]. intros peer.
  apply modify_set_keeps.
Qed.

Lemma readDependency_keeps (chain : list string) (name : string)
      (info : Json.t number)
      (nested : option (list string -> Npm.M unit)) :
  (forall recurse, nested = Some recurse -> forall c, Keeps Inv (recurse c)) ->
  Keeps Inv (Npm.readDependency nonZero chain name info nested).
Proof.
  intros Hnested. unfold Npm.readDependency.
  apply bind_keeps; [apply versionOf_keeps|]. intros version.
  apply bind_keeps; [apply modify_set_keeps|]. intros _.
  destruct nested as [recurse|]; [now apply Hnested | apply ret_keeps].
Qed.

(** The recursive walk keeps the property, and so does the call that
    [nestedOf] prepares. *)
Lemma parseNpmDependencies_keeps (deps : Json.t number) :
  (forall chain, Keeps Inv (Npm.parseNpmDependencies nonZero deps chain))
  /\ (forall recurse,
         Npm.nestedOf nonZero deps = Some recurse ->
         forall chain, Keeps Inv (recurse chain)).
Proof.
  induction deps as [| b | n | s | items IH | fields IH]
    using json_induction.
  - split; [intros chain; apply throw_keeps | discriminate].
  - split; [intros chain; apply ret_keeps | discriminate].
  - split; [intros chain; apply ret_keeps | discriminate].
  - split; [|discriminate]. intros chain. cbn [Npm.parseNpmDependencies].
    apply forEach_keeps. intros x _.
    apply readDependency_keeps. discriminate.
  - split; [|discriminate]. intros chain. cbn [Npm.parseNpmDependencies].
    match goal with
    | |- Keeps Inv (?loop 0 items) =>
        cut (forall i, Keeps Inv (loop i items)); [intros H; apply H|]
    end.
    induction IH as [|info items Hinfo _ IHitems]; intros i.
    + apply ret_keeps.
    + apply bind_keeps.
      * apply readDependency_keeps. exact (proj2 Hinfo).
      * intros _. apply IHitems.
  - split.
    + intros chain. cbn [Npm.parseNpmDependencies].
      induction IH as [|[name info] fields Hinfo _ IHfields].
      * apply ret_keeps.
      * apply bind_keeps.
        -- apply readDependency_keeps. exact (proj2 Hinfo).
        -- intros _. apply IHfields.
    + cbn [Npm.nestedOf].
      induction IH as [|[key value] fields Hvalue _ IHfields];
        [discriminate|].
      intros recurse. destruct (String.eqb "dependencies" key).
      * destruct (Json.truthy nonZero value); [|discriminate].
        intros H. inversion H; subst. cbn [snd] in Hvalue.
        exact (proj1 Hvalue).
      * apply IHfields.
Qed.

End Json.

(** [parseNpmLock] returns the map as its body left it. *)
Lemma parseNpmLock_state {number : Type} (nonZero : number -> bool)
      (JSON_parse : string -> option (Json.t number)) (content : string) :
  Npm.parseNpmLock nonZero JSON_parse content
  = Js.Normal (fst (Npm.parseNpmLockBody nonZero JSON_parse content
                                         JsMap.empty)).
Proof.
  unfold Npm.parseNpmLock, Js.tryCatch.
  destruct (Npm.parseNpmLockBody nonZero JSON_parse content JsMap.empty)
    as [packages [[]|e]]; reflexivity.
Qed.

(** The body keeps every property that [set] keeps. *)
Lemma parseNpmLockBody_keeps {number : Type} (nonZero : number -> bool)
      (JSON_parse : string -> option (Json.t number))
      (Inv : JsMap.t (LockEntry.t (Json.t number)) -> Prop) :
  (forall k v m, Inv m -> Inv (JsMap.set k v m)) ->
  forall content, Keeps Inv (Npm.parseNpmLockBody nonZero JSON_parse content).
Proof.
  intros Hset content. unfold Npm.parseNpmLockBody.
  destruct (JSON_parse content) as [lockfile|]; [|now apply throw_keeps].
  apply bind_keeps; [now apply lift_keeps|]. intros packages.
  apply bind_keeps.
  - destruct packages as [p|]; [|now apply ret_keeps].
    destruct (Json.truthy nonZero p); [|now apply ret_keeps].
    apply bind_keeps; [now apply lift_keeps|]. intros es.
    apply forEach_keeps. intros x _. now apply readPath_keeps.
  - intros _. apply bind_keeps; [now apply lift_keeps|]. intros dependencies.
    destruct dependencies as [d|]; [|now apply ret_keeps].
    destruct (Json.truthy nonZero d); [|now apply ret_keeps].
    now apply parseNpmDependencies_keeps.
Qed.

(** A map keeps its keys apart. *)
Lemma set_keys {V} (k : string) (v : V) (m : JsMap.t V) :
  JsMap.keys (JsMap.set k v m)
  = if JsMap.has k m then JsMap.keys m else JsMap.keys m ++ [k].
Proof.
  unfold JsMap.has, JsMap.get, JsMap.keys.
  induction m as [|[k' v'] m IH]; cbn [JsMap.set Obj.get map app fst];
    [reflexivity|].
  destruct (String.eqb k k') eqn:E; cbn [map fst].
  - apply String.eqb_eq in E. now subst.
  - rewrite IH. now destruct (Obj.get k m).
Qed.

Lemma has_false_not_key {V} (k : string) (m : JsMap.t V) :
  JsMap.has k m = false -> ~ In k (JsMap.keys m).
Proof.
  unfold JsMap.has, JsMap.get, JsMap.keys.
  induction m as [|[k' v'] m IH]; cbn [Obj.get map fst];
    [intros _ []|].
  destruct (String.eqb k k') eqn:E; [discriminate|].
  intros H [Hk | Hin]; [|now apply IH].
  apply String.eqb_neq in E. congruence.
Qed.

Lemma set_NoDup {V} (k : string) (v : V) (m : JsMap.t V) :
  NoDup (JsMap.keys m) -> NoDup (JsMap.keys (JsMap.set k v m)).
Proof.
  intros H. rewrite set_keys. destruct (JsMap.has k m) eqn:E; [exact H|].
  apply NoDup_app; [exact H | repeat constructor; intros [] |].
  intros x Hx [<- | []]. now apply (has_false_not_key k m).
Qed.

(** The three decoders return maps: no key comes twice. *)
Lemma parseNpmLock_NoDup {number : Type} (nonZero : number -> bool)
      (JSON_parse : string -> option (Json.t number)) (content : string)
      (decoded : JsMap.t (LockEntry.t (Json.t number))) :
  Npm.parseNpmLock nonZero JSON_parse content = Js.Normal decoded ->
  NoDup (JsMap.keys decoded).
Proof.
  rewrite parseNpmLock_state. intros H. inversion H; subst.
  apply (parseNpmLockBody_keeps nonZero JSON_parse
           (fun m => NoDup (JsMap.keys m))).
  - intros k v m. apply set_NoDup.
  - constructor.
Qed.

Lemma parsePnpmLock_NoDup (content : string) :
  NoDup (JsMap.keys (Pnpm.parsePnpmLock content)).
Proof.
  unfold Pnpm.parsePnpmLock.
  assert (H : forall lines st,
             NoDup (JsMap.keys (Pnpm.packages st)) ->
             NoDup (JsMap.keys (Pnpm.packages (fold_left Pnpm.step lines st)))).
  { induction lines as [|l lines IH]; intros st Hst; [exact Hst|].
    cbn [fold_left]. apply IH. unfold Pnpm.step.
    repeat match goal with
           | |- context [if ?c then _ else _] => destruct c
           end; cbn [Pnpm.packages]; try exact Hst.
    unfold Pnpm.readEntry, Pnpm.record.
    repeat match goal with
           | |- context [match ?c with _ => _ end] => destruct c
           end; try exact Hst; now apply set_NoDup. }
  apply H. constructor.
Qed.

Lemma parseYarnLock_NoDup (content : string) :
  NoDup (JsMap.keys (Yarn.parseYarnLock content)).
Proof.
  unfold Yarn.parseYarnLock.
  assert (Hcommit : forall version names packages,
             NoDup (JsMap.keys packages) ->
             NoDup (JsMap.keys
                      (fold_left (Yarn.commit version) names packages))).
  { induction names as [|n names IH]; intros packages Hp; [exact Hp|].
    cbn [fold_left]. apply IH. unfold Yarn.commit.
    destruct (JsMap.has n packages); [exact Hp | now apply set_NoDup]. }
  assert (H : forall lines st,
             NoDup (JsMap.keys (Yarn.packages st)) ->
             NoDup (JsMap.keys (Yarn.packages (fold_left Yarn.step lines st)))).
  { induction lines as [|l lines IH]; intros st Hst; [exact Hst|].
    cbn [fold_left]. apply IH. unfold Yarn.step.
    destruct (String.eqb (trim l) EmptyString || startsWith (trim l) "#");
      [exact Hst|].
    cbv zeta.
    set (st1 := if negb (startsWith l " ") && negb (startsWith l tab)
                then Yarn.mkState (Yarn.declaredNames (trim l))
                                  (Yarn.packages st)
                else st).
    assert (H1 : NoDup (JsMap.keys (Yarn.packages st1))).
    { unfold st1.
      destruct (negb (startsWith l " ") && negb (startsWith l tab));
        exact Hst. }
    destruct (startsWith l "  version"
              && negb (Nat.eqb (List.length (Yarn.currentPackages st1)) 0));
      [|exact H1].
    destruct (search Yarn.versionRe (trim l)) as [[rest cs]|]; [|exact H1].
    destruct (capture 1 cs); [|exact H1].
    cbn [Yarn.packages]. now apply Hcommit. }
  apply H. constructor.
Qed.

End NpmInvariants.

Module DecoderProperties.
Import JsString Regex Chars RegexSpec StringFacts RegexFacts MapFacts.
Import ScopedNames NpmPaths PnpmEntries NpmSpec NpmInvariants.

Lemma path_not_empty (pre rest : string) :
  String.eqb (pre ++ "node_modules/" ++ rest) EmptyString = false.
Proof. destruct pre; reflexivity. Qed.

(** The entry of a scoped package in [lockfile.packages] is stored under
    the scoped name, whole. *)
Lemma readPath_scoped {number : Type} (nonZero : number -> bool)
      (pre scope base : string) (fields : list (string * Json.t number))
      (packages : JsMap.t (LockEntry.t (Json.t number))) :
  Plain scope -> Plain base ->
  exists entry,
    Npm.readPath nonZero
      ((pre ++ "node_modules/" ++ scoped scope base)%string,
       Json.Object fields)
      packages
    = (JsMap.set (scoped scope base) entry packages, Js.Normal tt).
Proof.
  intros Hs Hb. unfold Npm.readPath.
  rewrite path_not_empty, pathRe_scoped by assumption.
  eexists. reflexivity.
Qed.

(** An entry that is not [null] is read without exception. *)
Lemma readPath_returns {number : Type} (nonZero : number -> bool)
      (pkgPath : string) (pkgInfo : Json.t number) :
  pkgInfo <> Json.Null ->
  Returns (Npm.readPath nonZero (pkgPath, pkgInfo)).
Proof.
  intros Hinfo m. unfold Npm.readPath.
  destruct (String.eqb pkgPath EmptyString); [now exists tt|].
  destruct (search Npm.pathRe pkgPath) as [[rest cs]|]; [|now exists tt].
  destruct (capture 1 cs) as [name|]; [|now exists tt].
  destruct pkgInfo; [congruence | now exists tt..].
Qed.

Lemma forEach_returns {number : Type} {X : Type} (xs : list X)
      (body : X -> @Npm.M number unit) :
  (forall x, In x xs -> Returns (body x)) -> Returns (Js.forEach xs body).
Proof.
  induction xs as [|x xs IH]; intros Hbody m; cbn [Js.forEach].
  - now exists tt.
  - unfold Js.bind. destruct (Hbody x (or_introl eq_refl) m) as [[] Hx].
    destruct (body x m) as [m' c]. cbn [snd] in Hx. subst c.
    apply IH. intros y Hy. apply Hbody. now right.
Qed.

Lemma forEach_app {S X : Type} (xs ys : list X) (body : X -> Js.M S unit)
      (m : S) :
  Js.forEach (xs ++ ys) body m
  = Js.bind (Js.forEach xs body) (fun _ => Js.forEach ys body) m.
Proof.
  revert m. induction xs as [|x xs IH]; intros m; cbn [Js.forEach app].
  - reflexivity.
  - unfold Js.bind in *. destruct (body x m) as [m' [[]|e]];
      [apply IH | reflexivity].
Qed.

Lemma bind_ret {S A B : Type} (a : A) (k : A -> Js.M S B) (m : S) :
  Js.bind (Js.ret a) k m = k a m.
Proof. reflexivity. Qed.

(** What holds when the first part is over, and is kept by the second,
    holds at the end, also when the first part throws. *)
Lemma bind_after {number : Type}
      (Inv : JsMap.t (LockEntry.t (Json.t number)) -> Prop)
      {A B : Type} (c : Npm.M A) (k : A -> Npm.M B)
      (m : JsMap.t (LockEntry.t (Json.t number))) :
  Inv (fst (c m)) -> (forall a, Keeps Inv (k a)) ->
  Inv (fst (Js.bind c k m)).
Proof.
  intros Hc Hk. unfold Js.bind. destruct (c m) as [m' [a|e]];
    [now apply Hk | exact Hc].
Qed.

(** The loop over [lockfile.packages] stores a scoped package under its
    scoped name when no entry before it is [null]. *)
Lemma packages_loop_scoped {number : Type} (nonZero : number -> bool)
      (earlier later : list (string * Json.t number))
      (pre scope base : string) (fields : list (string * Json.t number))
      (m : JsMap.t (LockEntry.t (Json.t number))) :
  Plain scope -> Plain base ->
  (forall entry, In entry earlier -> snd entry <> Json.Null) ->
  JsMap.has (scoped scope base)
    (fst (Js.forEach
            (earlier
               ++ ((pre ++ "node_modules/" ++ scoped scope base)%string,
                   Json.Object fields) :: later)
            (Npm.readPath nonZero) m)) = true.
Proof.
  intros Hs Hb Hearlier. rewrite forEach_app. unfold Js.bind at 1.
  destruct (forEach_returns earlier (Npm.readPath nonZero)) with (m := m)
    as [[] Hret].
  { intros [p info] Hin. apply readPath_returns. exact (Hearlier _ Hin). }
  destruct (Js.forEach earlier (Npm.readPath nonZero) m) as [m1 c].
  cbn [snd] in Hret. subst c. cbn [Js.forEach]. unfold Js.bind at 1.
  destruct (readPath_scoped nonZero pre scope base fields m1 Hs Hb)
    as [entry Hentry].
  rewrite Hentry.
  apply (forEach_keeps (fun m => JsMap.has (scoped scope base) m = true)).
  - intros x _. apply readPath_keeps. intros k v m'. apply has_set.
  - apply has_set_same.
Qed.

Lemma parseNpmLock_scoped {number : Type} (nonZero : number -> bool)
      (JSON_parse : string -> option (Json.t number)) (content : string)
      (top : list (string * Json.t number))
      (earlier later : list (string * Json.t number))
      (pre scope base : string) (fields : list (string * Json.t number)) :
  Plain scope -> Plain base ->
  JSON_parse content = Some (Json.Object top) ->
  Obj.get "packages" top
  = Some (Json.Object
            (earlier
               ++ ((pre ++ "node_modules/" ++ scoped scope base)%string,
                   Json.Object fields) :: later)) ->
  (forall entry, In entry earlier -> snd entry <> Json.Null) ->
  exists decoded,
    Npm.parseNpmLock nonZero JSON_parse content = Js.Normal decoded
    /\ JsMap.has (scoped scope base) decoded = true.
Proof.
  intros Hs Hb Hparse Hpackages Hearlier.
  rewrite parseNpmLock_state. eexists. split; [reflexivity|].
  unfold Npm.parseNpmLockBody. rewrite Hparse.
  cbn [Json.prop Npm.lift]. rewrite bind_ret, Hpackages.
  apply (bind_after (fun m => JsMap.has (scoped scope base) m = true)).
  - cbn [Json.truthy Json.entries Npm.lift]. rewrite bind_ret.
    now apply packages_loop_scoped.
  - intros _. apply bind_keeps; [apply ret_keeps|].
    intros dependencies. destruct dependencies as [d|]; [|now apply ret_keeps].
    destruct (Json.truthy nonZero d); [|now apply ret_keeps].
    apply parseNpmDependencies_keeps. intros k v m'. apply has_set.
Qed.

Lemma parsePnpmLock_scoped
      (content : string) (earlier later : list string)
      (line scope base version : string) :
  Plain scope -> Plain base -> Plain version ->
  split newline content = earlier ++ line :: later ->
  Pnpm.inPackages (fold_left Pnpm.step earlier Pnpm.initial) = true ->
  pnpmEntry (trim line) scope base version ->
  JsMap.has (scoped scope base) (Pnpm.parsePnpmLock content) = true.
Proof.
  intros Hs Hb Hv Hsplit Hin Hentry.
  unfold Pnpm.parsePnpmLock. rewrite Hsplit, fold_left_app. cbn [fold_left].
  rewrite (step_scoped _ line scope base version) by assumption.
  apply PnpmEntries.pnpm_steps_keep. apply has_record.
Qed.

Lemma parseYarnLock_scoped
      (content : string) (earlier later : list string)
      (declaration versionLine scope base range version : string) :
  Plain scope -> Plain base -> Plain range -> Plain version ->
  split newline content = earlier ++ declaration :: versionLine :: later ->
  startsWith declaration " " = false ->
  startsWith declaration tab = false ->
  trim declaration = yarnDeclaration scope base range ->
  startsWith versionLine "  version" = true ->
  trim versionLine = yarnVersion version ->
  JsMap.has (scoped scope base) (Yarn.parseYarnLock content) = true.
Proof.
  intros Hs Hb Hr Hv Hsplit Hsp Htab Hdecl Hline Hver.
  unfold Yarn.parseYarnLock. rewrite Hsplit, fold_left_app. cbn [fold_left].
  rewrite (YarnEntries.step_declaration _ declaration scope base range)
    by assumption.
  rewrite (YarnEntries.step_version _ versionLine version);
    [| assumption | discriminate | assumption | assumption].
  apply YarnEntries.yarn_steps_keep. cbn [Yarn.currentPackages Yarn.packages fold_left].
  apply YarnEntries.has_commit.
Qed.




End DecoderProperties.

Module DecoderTotality.
Import JsString Regex Chars RegexSpec StringFacts.

(** [parseNpmLock] catches whatever its body throws. *)
Lemma parseNpmLock_returns {number : Type} (nonZero : number -> bool)
      (JSON_parse : string -> option (Json.t number)) (content : string) :
  exists packages,
    Npm.parseNpmLock nonZero JSON_parse content = Js.Normal packages.
Proof.
  unfold Npm.parseNpmLock, Js.tryCatch.
  destruct (Npm.parseNpmLockBody nonZero JSON_parse content JsMap.empty)
    as [packages [[]|e]]; now exists packages.
Qed.

Lemma decode_returns {number : Type} (nonZero : number -> bool)
      (JSON_parse : string -> option (Json.t number))
      (type : Scan.LockType) (content : string) :
  exists decoded,
    Scan.decode nonZero JSON_parse type content = Js.Normal decoded.
Proof.
  destruct type; simpl.
  - eexists. reflexivity.
  - apply parseNpmLock_returns.
  - eexists. reflexivity.
Qed.

(** Outside the packages section, a line that is not its header changes
    nothing. *)
Lemma pnpm_step_outside (st : Pnpm.state) (line : string) :
  Pnpm.inPackages st = false ->
  trim line <> "packages:" ->
  Pnpm.step st line = st.
Proof.
  intros Hout Hline. unfold Pnpm.step. rewrite Hout.
  apply String.eqb_neq in Hline. rewrite Hline.
  destruct (String.eqb (trim line) EmptyString || startsWith (trim line) "#");
    reflexivity.
Qed.

Lemma pnpm_no_section (lines : list string) (st : Pnpm.state) :
  Pnpm.inPackages st = false ->
  (forall line, In line lines -> trim line <> "packages:") ->
  fold_left Pnpm.step lines st = st.
Proof.
  revert st. induction lines as [|l lines IH]; intros st Hout Hlines;
    [reflexivity|].
  cbn [fold_left]. rewrite pnpm_step_outside.
  - apply IH; [exact Hout|]. intros line Hin. apply Hlines. now right.
  - exact Hout.
  - apply Hlines. now left.
Qed.

(** A line that is not a version line leaves the map alone. *)
Lemma yarn_step_no_version (st : Yarn.state) (line : string) :
  startsWith line "  version" = false ->
  Yarn.packages (Yarn.step st line) = Yarn.packages st.
Proof.
  intros Hline. unfold Yarn.step. rewrite Hline.
  destruct (String.eqb (trim line) EmptyString || startsWith (trim line) "#");
    [reflexivity|].
  cbv zeta. rewrite andb_false_l.
  destruct (negb (startsWith line " ") && negb (startsWith line tab));
    reflexivity.
Qed.

Lemma yarn_no_version (lines : list string) (st : Yarn.state) :
  (forall line, In line lines -> startsWith line "  version" = false) ->
  Yarn.packages (fold_left Yarn.step lines st) = Yarn.packages st.
Proof.
  revert st. induction lines as [|l lines IH]; intros st Hlines;
    [reflexivity|].
  cbn [fold_left]. rewrite IH.
  - apply yarn_step_no_version. apply Hlines. now left.
  - intros line Hin. apply Hlines. now right.
Qed.

(** C7. Each of the three lock decoders returns a map for every input: the
    two line decoders use nothing that throws, and [parseNpmLock] catches
    what [JSON.parse] and the walk over the parsed value throw.  An empty
    file gives an empty map, and so does a file without marker: a
    pnpm-lock.yaml without a [packages:] line, a yarn.lock without a version
    line, a package-lock.json that is not JSON or that is an object with
    neither [packages] nor [dependencies]. *)
Theorem decoders_return_a_map
        (number : Type) (nonZero : number -> bool)
        (JSON_parse : string -> option (Json.t number)) :
  (forall (type : Scan.LockType) (content : string),
      exists decoded,
        Scan.decode nonZero JSON_parse type content = Js.Normal decoded)
  /\ Pnpm.parsePnpmLock EmptyString = []
  /\ Yarn.parseYarnLock EmptyString = []
  /\ (forall content,
         JSON_parse content = None ->
         Npm.parseNpmLock nonZero JSON_parse content = Js.Normal [])
  /\ (forall content,
         (forall line, In line (split newline content) ->
                       trim line <> "packages:") ->
         Pnpm.parsePnpmLock content = [])
  /\ (forall content,
         (forall line, In line (split newline content) ->
                       startsWith line "  version" = false) ->
         Yarn.parseYarnLock content = [])
  /\ (forall content fields,
         JSON_parse content = Some (Json.Object fields) ->
         Obj.get "packages" fields = None ->
         Obj.get "dependencies" fields = None ->
         Npm.parseNpmLock nonZero JSON_parse content = Js.Normal []).
Proof.
  repeat split.
  - intros type content. apply decode_returns.
  - intros content Hparse.
    unfold Npm.parseNpmLock, Js.tryCatch, Npm.parseNpmLockBody.
    now rewrite Hparse.
  - intros content Hlines. unfold Pnpm.parsePnpmLock.
    now rewrite pnpm_no_section.
  - intros content Hlines. unfold Yarn.parseYarnLock.
    now rewrite yarn_no_version.
  - intros content fields Hparse Hp Hd.
    unfold Npm.parseNpmLock, Js.tryCatch, Npm.parseNpmLockBody.
    rewrite Hparse. unfold Js.bind, Npm.lift, Json.prop.
    now rewrite Hp, Hd.
Qed.

Lemma decoders_return_a_map_witness :
  (exists decoded,
      Scan.decode LockScenario.nonZero LockScenario.parseScenario Scan.npm
                  "not json at all" = Js.Normal decoded)
  /\ Npm.parseNpmLock LockScenario.nonZero LockScenario.parseScenario
                      EmptyString = Js.Normal []
  /\ Pnpm.parsePnpmLock "lockfileVersion: '6.0'" = []
  /\ Yarn.parseYarnLock "# yarn lockfile v1" = []
  /\ Npm.parseNpmLock LockScenario.nonZero LockScenario.parseScenario "{}"
     = Js.Normal [].
Proof.
  destruct (decoders_return_a_map nat LockScenario.nonZero
              LockScenario.parseScenario)
    as (Hall & _ & _ & Hbad & Hpnpm & Hyarn & Hnpm).
  split; [apply Hall | split; [| split; [| split]]].
  - apply Hbad. reflexivity.
  - apply Hpnpm. intros line [<- | []]. discriminate.
  - apply Hyarn. intros line [<- | []]. reflexivity.
  - apply (Hnpm "{}" []); reflexivity.
Defined.

(** C6, on the code: the chain of a nested path is cut at [/node_modules/],
    and the path starts with [node_modules/] without a slash before it, so
    that the first ancestor keeps the marker: the chain of
    [node_modules/a/node_modules/b] is [node_modules/a], not [a].  The name
    is the last component. *)
Theorem nested_chain_keeps_marker :
  Npm.extractDependencyChain "node_modules/a/node_modules/b"
  = ["node_modules/a"]
  /\ Npm.extractDependencyChain
       "node_modules/@s/a/node_modules/b/node_modules/c"
     = ["node_modules/@s/a"; "b"]
  /\ Npm.parseNpmLock LockScenario.nonZero LockScenario.parseScenario "nested"
     = Js.Normal
         [ ("a", LockEntry.mk (Json.Str "1.0.0") true []);
           ("b", LockEntry.mk (Json.Str "2.0.0") true ["node_modules/a"]) ].
Proof. repeat split. Qed.

End DecoderTotality.
(* ================================================================== *)
(** ** Loading the lock file *)
(* ================================================================== *)

Module ScanFacts.
Import JsString Graph MapFacts Spec ScanSpec GraphFacts DecoderTotality.

Lemma size_zero {V} (m : JsMap.t V) : JsMap.size m = 0 -> m = [].
Proof. destruct m; [reflexivity | discriminate]. Qed.

Section Collect.
Context {number : Type}.
Variable nonZero : number -> bool.
Variable JSON_parse : string -> option (Json.t number).

(** Reading and decoding a lock file returns exactly when the file can be
    read. *)
Lemma readAndDecode_content (files : Scan.LockFiles) (type : Scan.LockType)
      (content : string) :
  Scan.fileOf files type = Scan.Content content ->
  Scan.readAndDecode nonZero JSON_parse files type
  = Scan.decode nonZero JSON_parse type content.
Proof.
  intros H. unfold Scan.readAndDecode, Scan.readLock. now rewrite H.
Qed.

Lemma readAndDecode_returns (files : Scan.LockFiles) (type : Scan.LockType)
      (content : string) :
  Scan.fileOf files type = Scan.Content content ->
  exists decoded,
    Scan.readAndDecode nonZero JSON_parse files type = Js.Normal decoded
    /\ Scan.decode nonZero JSON_parse type content = Js.Normal decoded.
Proof.
  intros H. rewrite (readAndDecode_content files type content H).
  destruct (decode_returns nonZero JSON_parse type content) as [decoded E].
  now exists decoded.
Qed.

Lemma readAndDecode_throws (files : Scan.LockFiles) (type : Scan.LockType) :
  (forall content, Scan.fileOf files type <> Scan.Content content) ->
  Scan.readAndDecode nonZero JSON_parse files type
  = Js.Throw Js.SystemError.
Proof.
  intros H. unfold Scan.readAndDecode, Scan.readLock.
  destruct (Scan.fileOf files type) as [| |content]; try reflexivity.
  now elim (H content).
Qed.

End Collect.

End ScanFacts.

Module NestedChains.
Import JsString Regex Chars RegexSpec StringFacts RegexFacts RunFacts.
Import ScopedNames NpmPaths.

(** Characters that are not slashes go to the piece being read. *)
Lemma split_aux_plain (sep x rest cur : string) :
  allChars plainChar x = true ->
  split_aux (String "/" sep) (x ++ rest) cur 0
  = split_aux (String "/" sep) rest (cur ++ x) 0.
Proof.
  revert cur. induction x as [|c x IH]; intros cur Hx.
  - now rewrite app_empty_r.
  - simpl in Hx. apply andb_true_iff in Hx. destruct Hx as [Hc Hx].
    cbn [append split_aux prefix].
    destruct (ascii_dec "/" c) as [<-|_]; [discriminate Hc|].
    rewrite IH by exact Hx. now rewrite app_assoc.
Qed.

(** A character where the separator does not start goes there too. *)
Lemma split_aux_miss (sep rest cur : string) (c : ascii) :
  prefix sep (String c rest) = false ->
  split_aux sep (String c rest) cur 0
  = split_aux sep rest (cur ++ String c EmptyString) 0.
Proof. intros H. cbn [split_aux]. now rewrite H. Qed.

(** The characters of a separator that was found are passed over. *)
Lemma split_aux_skip (sep y rest cur : string) :
  split_aux sep (y ++ rest) cur (String.length y)
  = split_aux sep rest cur 0.
Proof. induction y as [|c y IH]; [reflexivity | exact IH]. Qed.

(** Where the separator starts, the piece being read ends. *)
Lemma split_aux_found (c : ascii) (sep rest cur : string) :
  split_aux (String c sep) (String c sep ++ rest) cur 0
  = cur :: split_aux (String c sep) rest EmptyString 0.
Proof.
  pose proof (prefix_app (String c sep) rest) as H.
  cbn [append] in *. cbn [split_aux]. rewrite H.
  replace (String.length (String c sep) - 1) with (String.length sep)
    by (cbn [String.length]; lia).
  now rewrite split_aux_skip.
Qed.

Lemma plain_before_slash (a rest : string) :
  allChars plainChar a = true -> before "/" (a ++ String "/" rest) = a.
Proof. intros Ha. apply before_app. now apply plain_no_slash. Qed.

(** The separator does not start at the slash of the leading marker. *)
Lemma no_separator_at_marker (a rest : string) :
  allChars plainChar a = true -> a <> "node_modules" ->
  prefix "/node_modules/" (String "/" (a ++ String "/" rest)) = false.
Proof.
  intros Ha Hne.
  destruct (prefix "/node_modules/" (String "/" (a ++ String "/" rest)))
    eqn:E; [|reflexivity].
  exfalso. apply prefix_inv in E. destruct E as [r E].
  change ("/node_modules/" ++ r)%string
    with (String "/" ("node_modules" ++ String "/" r)) in E.
  injection E as E.
  apply (f_equal (before "/")) in E.
  rewrite plain_before_slash in E by exact Ha.
  simpl in E. now apply Hne.
Qed.

(** The pieces of a path of two levels. *)
Lemma split_nested (a b : string) :
  allChars plainChar a = true -> allChars plainChar b = true ->
  a <> "node_modules" ->
  split "/node_modules/" ("node_modules/" ++ a ++ "/node_modules/" ++ b)
  = ["node_modules/" ++ a; b]%string.
Proof.
  intros Ha Hb Hne. unfold split.
  change ("node_modules/" ++ a ++ "/node_modules/" ++ b)%string
    with ("node_modules"
            ++ String "/" (a ++ String "/" ("node_modules/" ++ b)))%string.
  rewrite (split_aux_plain "node_modules/" "node_modules") by reflexivity.
  rewrite split_aux_miss by (now apply no_separator_at_marker).
  change (a ++ String "/" ("node_modules/" ++ b))%string
    with (a ++ (String "/" "node_modules/" ++ b))%string.
  rewrite (split_aux_plain "node_modules/" a) by exact Ha.
  rewrite split_aux_found.
  rewrite <- (app_empty_r b) at 1.
  rewrite (split_aux_plain "node_modules/" b) by exact Hb.
  reflexivity.
Qed.

(** The chain of every path of two levels: whatever the two unscoped
    names, it is the first component with its marker. *)
Lemma nested_chain_of_two (a b : string) :
  Plain a -> Plain b ->
  a <> "node_modules" -> b <> "node_modules" ->
  Npm.extractDependencyChain ("node_modules/" ++ a ++ "/node_modules/" ++ b)
  = ["node_modules/" ++ a]%string.
Proof.
  intros [Hane Ha] [Hbne Hb] Ha' Hb'.
  unfold Npm.extractDependencyChain.
  rewrite split_nested by assumption.
  cbn [filter].
  replace (String.eqb ("node_modules/" ++ a) EmptyString) with false
    by reflexivity.
  replace (String.eqb ("node_modules/" ++ a) "node_modules") with false
    by reflexivity.
  apply String.eqb_neq in Hbne, Hb'. rewrite Hbne, Hb'.
  reflexivity.
Qed.

End NestedChains.

(* ================================================================== *)
(** ** What the classifier returns, case by case *)
(* ================================================================== *)

Module ClassifierCases.
Import JsString Regex Classifier Spec ClassifierSpec.
Import StringFacts ClassifierFacts DetectionFacts RegexFacts.

Section Versions.
Context {V : Type}.
Variable text : V -> option string.

Lemma CampaignIssue_later (base : Issue.t V) (name : string) (version : V)
      (entry : string * Campaign.t) (campaigns : Obj.t Campaign.t)
      (issue : Issue.t V) :
  CampaignIssue text base name version campaigns issue ->
  CampaignIssue text base name version (entry :: campaigns) issue.
Proof.
  intros [id c given v vs Hin H1 H2 H3 H4 H5
         | id c Hin H1 H2 H3
         | id c listed Hin H1 H2 H3 H4].
  - apply (SafeVersion _ _ _ _ _ _ id c given v vs); auto. now right.
  - apply (Member _ _ _ _ _ _ id c); auto. now right.
  - apply (VersionOnly _ _ _ _ _ _ id c listed); auto. now right.
Qed.

(** When [isVersionAffected] returns false, the version is a string and
    what the campaign has under the name is a list that is not empty and
    does not hold the cleaned version. *)
Lemma not_affected (version : V) (listed : Proto.value (list string)) :
  isVersionAffected text version (Some listed) = Js.Normal false ->
  exists given v vs,
    text version = Some given
    /\ listed = Proto.Data (v :: vs)
    /\ includes (v :: vs) (cleanVersion given) = false.
Proof.
  unfold isVersionAffected.
  destruct (lengthIsZero listed) eqn:Hzero; [discriminate|].
  destruct (text version) as [given|]; [|discriminate].
  destruct listed as [[|v vs]|b]; cbn [versionsInclude];
    [discriminate Hzero | | discriminate].
  intros H. inversion H. now exists given, v, vs.
Qed.

Lemma checkCampaigns_cases (base : Issue.t V) (name : string) (version : V)
      (campaigns : Obj.t Campaign.t) (issue : Issue.t V) :
  checkCampaigns text base name version campaigns = Js.Normal (Some issue) ->
  CampaignIssue text base name version campaigns issue.
Proof.
  induction campaigns as [|[id c] rest IH]; cbn [checkCampaigns];
    [discriminate|].
  destruct (optIncludes (Campaign.packages c) name) eqn:Hpk.
  - unfold versionIsSafe.
    destruct (campaignVersions c name) as [listed|] eqn:Hav.
    + destruct (isVersionAffected text version (Some listed))
        as [[|]|e] eqn:Haff; cbn [Js.andThen negb];
        [| | discriminate]; intros H; inversion H; subst.
      * apply (Member _ _ _ _ _ _ id c); [now left | exact Hpk | |];
          rewrite Hav; [exact Haff | reflexivity].
      * destruct (not_affected version listed Haff)
          as (given & v & vs & Hgiven & -> & Hnot).
        apply (SafeVersion _ _ _ _ _ _ id c given v vs);
          [now left | exact Hpk | exact Hav | exact Hgiven | exact Hnot
          | reflexivity].
    + cbn [Js.andThen]. intros H; inversion H; subst.
      apply (Member _ _ _ _ _ _ id c); [now left | exact Hpk | |];
        rewrite Hav; reflexivity.
  - destruct (campaignVersions c name) as [listed|] eqn:Hav.
    + destruct (isVersionAffected text version (Some listed))
        as [[|]|e] eqn:Haff; cbn [Js.andThen]; [| | discriminate].
      * intros H; inversion H; subst.
        apply (VersionOnly _ _ _ _ _ _ id c listed);
          [now left | exact Hpk | exact Hav | exact Haff | reflexivity].
      * intros H. apply CampaignIssue_later. now apply IH.
    + intros H. apply CampaignIssue_later. now apply IH.
Qed.

(** An issue is built from one of the seven lists, with a fixed level, or
    by the loop over the campaigns. *)
Lemma checkPackage_found
      (W : Type) (ignoreList : list string) (name : string) (version : V)
      (db : ThreatDatabase.t) (depInfo : option (DepInfo.t W))
      (config : Config.t) (issue : Issue.t V) :
  checkPackage text ignoreList name version db depInfo config
  = Js.Normal (Found issue) ->
  (exists severity type reason action,
      issue = withFinding (baseIssue name version depInfo)
                          severity type reason action
      /\ isLevel severity = true)
  \/ checkCampaigns text (baseIssue name version depInfo) name version
                    (campaignsOf db) = Js.Normal (Some issue).
Proof.
  unfold checkPackage.
  destruct (isIgnored ignoreList name config); [discriminate|].
  destruct (isTrusted name db config); [discriminate|].
  cbv zeta.
  repeat match goal with
         | |- context [if ?c then Js.Normal (Found _) else _] => destruct c
         | |- Js.Normal (Found _) = Js.Normal (Found _) -> _ =>
             let H := fresh in
             intros H; inversion H; subst; left;
             do 4 eexists; split; [reflexivity | reflexivity]
         end.
  fold (campaignsOf db).
  destruct (checkCampaigns _ _ name version _) as [[i|]|e] eqn:E;
    cbn [Js.andThen]; [| discriminate | discriminate].
  intros H; inversion H; subst. now right.
Qed.

(** When the campaigns declare levels, an issue has one. *)
Lemma found_has_level
      (W : Type) (ignoreList : list string) (name : string) (version : V)
      (db : ThreatDatabase.t) (depInfo : option (DepInfo.t W))
      (config : Config.t) (issue : Issue.t V) :
  declaresLevels db ->
  checkPackage text ignoreList name version db depInfo config
  = Js.Normal (Found issue) ->
  isLevel (Issue.severity issue) = true.
Proof.
  intros Hdb H. apply checkPackage_found in H.
  destruct H as [(sev & ty & re & ac & -> & Hlev) | H]; [exact Hlev|].
  apply checkCampaigns_cases in H.
  destruct H as [id c given v vs Hin _ _ _ _ ->
                | id c Hin _ _ ->
                | id c listed Hin _ _ _ ->].
  - reflexivity.
  - simpl. exact (Hdb id c Hin).
  - reflexivity.
Qed.

(** The classifier throws nothing but a TypeError. *)
Lemma isVersionAffected_throws (version : V)
      (listed : option (Proto.value (list string))) (e : Js.error) :
  isVersionAffected text version listed = Js.Throw e -> e = Js.TypeError.
Proof.
  unfold isVersionAffected. destruct listed as [listed|]; [|discriminate].
  destruct (lengthIsZero listed); [discriminate|].
  destruct (text version); [|intros H; now inversion H].
  destruct listed; cbn [versionsInclude]; intros H; now inversion H.
Qed.

Lemma checkCampaigns_throws (base : Issue.t V) (name : string) (version : V)
      (campaigns : Obj.t Campaign.t) (e : Js.error) :
  checkCampaigns text base name version campaigns = Js.Throw e ->
  e = Js.TypeError.
Proof.
  induction campaigns as [|[id c] rest IH]; cbn [checkCampaigns];
    [discriminate|].
  destruct (optIncludes (Campaign.packages c) name).
  - unfold versionIsSafe.
    destruct (campaignVersions c name) as [listed|];
      cbn [Js.andThen]; [|discriminate].
    destruct (isVersionAffected text version (Some listed))
      as [[|]|e'] eqn:E; cbn [Js.andThen negb]; try discriminate.
    intros H. inversion H; subst. exact (isVersionAffected_throws _ _ _ E).
  - destruct (campaignVersions c name) as [listed|]; [|exact IH].
    destruct (isVersionAffected text version (Some listed))
      as [[|]|e'] eqn:E; cbn [Js.andThen]; [discriminate | exact IH |].
    intros H. inversion H; subst. exact (isVersionAffected_throws _ _ _ E).
Qed.

Lemma checkPackage_throws_TypeError
      (W : Type) (ignoreList : list string) (name : string) (version : V)
      (db : ThreatDatabase.t) (depInfo : option (DepInfo.t W))
      (config : Config.t) (e : Js.error) :
  checkPackage text ignoreList name version db depInfo config = Js.Throw e ->
  e = Js.TypeError.
Proof.
  unfold checkPackage.
  repeat match goal with
         | |- context [if ?c then Js.Normal _ else _] =>
             destruct c; [discriminate|]
         end.
  cbv zeta.
  repeat match goal with
         | |- context [if ?c then Js.Normal _ else _] =>
             destruct c; [discriminate|]
         end.
  destruct (checkCampaigns _ _ name version _) as [[i|]|e'] eqn:E;
    cbn [Js.andThen]; try discriminate.
  intros H. inversion H; subst. exact (checkCampaigns_throws _ _ _ _ _ E).
Qed.

(** The classifier returns when the version is a string and what it reads
    under the name in the campaigns is not inherited. *)
Lemma isVersionAffected_returns (version : V) (given : string)
      (listed : option (Proto.value (list string))) :
  text version = Some given ->
  (forall b, listed <> Some (Proto.Builtin b)) ->
  exists affected, isVersionAffected text version listed = Js.Normal affected.
Proof.
  intros Htext Hown. unfold isVersionAffected.
  destruct listed as [[versions|b]|]; [| now elim (Hown b) | now eexists].
  destruct (lengthIsZero (Proto.Data versions)); [now eexists|].
  rewrite Htext. cbn [versionsInclude]. now eexists.
Qed.

Lemma checkCampaigns_returns (base : Issue.t V) (name : string)
      (version : V) (given : string) (campaigns : Obj.t Campaign.t) :
  text version = Some given ->
  (forall id campaign, In (id, campaign) campaigns -> ownEntry name campaign) ->
  exists found,
    checkCampaigns text base name version campaigns = Js.Normal found.
Proof.
  intros Htext. induction campaigns as [|[id c] rest IH]; intros Hown;
    cbn [checkCampaigns]; [now eexists|].
  assert (Hrest : forall id campaign,
             In (id, campaign) rest -> ownEntry name campaign).
  { intros id' c' Hin. apply (Hown id' c'). now right. }
  destruct (isVersionAffected_returns version given
              (campaignVersions c name) Htext (Hown id c (or_introl eq_refl)))
    as [affected E].
  destruct (optIncludes (Campaign.packages c) name).
  - unfold versionIsSafe.
    destruct (campaignVersions c name) as [listed|];
      cbn [Js.andThen]; [|now eexists].
    rewrite E. cbn [Js.andThen]. destruct (negb affected); now eexists.
  - destruct (campaignVersions c name) as [listed|]; [|exact (IH Hrest)].
    rewrite E. cbn [Js.andThen].
    destruct affected; [now eexists | exact (IH Hrest)].
Qed.

Lemma checkPackage_returns
      (W : Type) (ignoreList : list string) (name : string) (version : V)
      (given : string) (db : ThreatDatabase.t)
      (depInfo : option (DepInfo.t W)) (config : Config.t) :
  text version = Some given ->
  (forall id campaign,
      In (id, campaign) (campaignsOf db) -> ownEntry name campaign) ->
  exists result,
    checkPackage text ignoreList name version db depInfo config
    = Js.Normal result.
Proof.
  intros Htext Hown. unfold checkPackage.
  repeat match goal with
         | |- context [if ?c then Js.Normal _ else _] =>
             destruct c; [now eexists|]
         end.
  cbv zeta.
  repeat match goal with
         | |- context [if ?c then Js.Normal _ else _] =>
             destruct c; [now eexists|]
         end.
  destruct (checkCampaigns_returns
              (baseIssue name version depInfo) name version given
              (campaignsOf db) Htext Hown) as [found E].
  unfold campaignsOf in E. rewrite E. cbn [Js.andThen].
  destruct found; now eexists.
Qed.

End Versions.

(** A greedy repetition at the start of the string cuts the whole run of
    the class. *)
Lemma removeAtStart_star (p : charclass) (run rest : string) :
  RegexSpec.allChars p run = true ->
  RegexSpec.stopsAt p rest = true ->
  removeAtStart (Star p) (run ++ rest) = rest.
Proof.
  intros Hrun Hstop. unfold removeAtStart, exec_at. cbn [rmatch].
  match goal with
  | |- context [star_m p _ ?k] =>
      now rewrite (star_m_stop p run rest k (rest, []) Hrun Hstop eq_refl)
  end.
Qed.

(** Cutting a string at a separator of one character. *)
Lemma split_aux_char (c : ascii) (s cur : string) :
  RegexSpec.count c s = 0 ->
  split_aux (String c EmptyString) s cur 0 = [(cur ++ s)%string].
Proof.
  revert cur. induction s as [|d s IH]; intros cur Hc.
  - simpl. now rewrite app_empty_r.
  - simpl in Hc. cbn [split_aux prefix].
    destruct (Ascii.eqb c d) eqn:E; [discriminate|].
    destruct (ascii_dec c d) as [->|_].
    + now rewrite Ascii.eqb_refl in E.
    + rewrite IH by exact Hc. now rewrite app_assoc.
Qed.

Lemma split_aux_char_found (c : ascii) (a rest cur : string) :
  RegexSpec.count c a = 0 ->
  split_aux (String c EmptyString) (a ++ String c rest) cur 0
  = (cur ++ a)%string :: split_aux (String c EmptyString) rest EmptyString 0.
Proof.
  revert cur. induction a as [|d a IH]; intros cur Hc.
  - cbn [append split_aux prefix String.length Nat.sub].
    destruct (ascii_dec c c) as [_|N]; [|now elim N].
    destruct rest; now rewrite app_empty_r.
  - simpl in Hc. cbn [append split_aux prefix].
    destruct (Ascii.eqb c d) eqn:E; [discriminate|].
    destruct (ascii_dec c d) as [->|_].
    + now rewrite Ascii.eqb_refl in E.
    + rewrite IH by exact Hc. now rewrite app_assoc.
Qed.

Lemma split_char_whole (c : ascii) (s : string) :
  RegexSpec.count c s = 0 -> split (String c EmptyString) s = [s].
Proof. intros H. unfold split. now rewrite split_aux_char. Qed.

Lemma split_char_first (c : ascii) (a rest : string) :
  RegexSpec.count c a = 0 ->
  hd EmptyString (split (String c EmptyString) (a ++ String c rest)) = a.
Proof. intros H. unfold split. now rewrite split_aux_char_found. Qed.

Lemma matchesPattern_refl (name : string) : matchesPattern name name = true.
Proof. apply matchesPattern_spec. constructor. Qed.

(** One matching pattern is enough to be ignored. *)
Lemma isIgnored_matches (ignoreList : list string) (name : string)
      (config : Config.t) (pattern : string) :
  In pattern (ignorePatterns ignoreList config) ->
  Matches name pattern ->
  isIgnored ignoreList name config = true.
Proof.
  intros Hin Hm. unfold isIgnored. apply existsb_exists. exists pattern.
  split; [exact Hin | now apply matchesPattern_spec].
Qed.

End ClassifierCases.

(* ================================================================== *)
(** ** Invariants of the classifier *)
(* ================================================================== *)

Module ClassifierInvariants.
Import JsString Regex Classifier Spec ClassifierSpec.
Import StringFacts ClassifierFacts DetectionFacts ClassifierCases.
Import Scenario ClassifierScenario.

(** X1. A name that an ignore pattern matches, of the command line or of
    the configuration file, is classified Ignored: the database is not
    read, so neither trust nor any detection applies. *)
Theorem ignored_overrides_everything
        (V W : Type) (text : V -> option string)
        (ignoreList : list string) (name : string) (version : V)
        (db : ThreatDatabase.t) (depInfo : option (DepInfo.t W))
        (config : Config.t) (pattern : string) :
  In pattern (ignorePatterns ignoreList config) ->
  Matches name pattern ->
  checkPackage text ignoreList name version db depInfo config
  = Js.Normal Ignored.
Proof.
  intros Hin Hm. unfold checkPackage.
  now rewrite (isIgnored_matches ignoreList name config pattern Hin Hm).
Qed.

Lemma ignored_overrides_everything_witness :
  isTrusted "@scope/anything" everywhere (Config.mk (Some ["@scope/*"]) None)
  = true
  /\ inSomeCategory "@scope/anything" everywhere
  /\ checkPackage Some [] "@scope/anything" "1.0.0" everywhere noMetadata
                  (Config.mk (Some ["@scope/*"]) None) = Js.Normal Ignored.
Proof.
  split; [reflexivity | split; [left; reflexivity |]].
  apply (ignored_overrides_everything string string Some []
           "@scope/anything" "1.0.0"
           everywhere noMetadata (Config.mk (Some ["@scope/*"]) None)
           "@scope/*").
  - simpl. left. reflexivity.
  - exact (MatchesNamespace "@scope" "anything").
Defined.

(** X2. A name in any of the four malicious categories, not ignored and not
    trusted, gives a critical issue whatever the version, the lineage, the
    protestware tiers and the campaigns; the issue is built from the base
    issue and carries no campaign and no safe-version marker. *)
Theorem listed_malicious_is_critical
        (V W : Type) (text : V -> option string)
        (ignoreList : list string) (name : string)
        (db : ThreatDatabase.t) (config : Config.t) :
  isIgnored ignoreList name config = false ->
  isTrusted name db config = false ->
  inSomeCategory name db ->
  forall (version : V) (depInfo : option (DepInfo.t W)),
  exists type reason action,
    checkPackage text ignoreList name version db depInfo config
    = Js.Normal
        (Found (withFinding (baseIssue name version depInfo)
                            "critical" type (Proto.Data reason) action))
    /\ startsWith action "REMOVE IMMEDIATELY" = true.
Proof.
  intros Hign Htr Hcat version depInfo.
  unfold checkPackage. rewrite Hign, Htr. cbv zeta.
  unfold inSomeCategory, maliciousOf in Hcat.
  repeat match goal with
         | |- context [if ?c then Js.Normal (Found _) else _] =>
             destruct c eqn:?;
             [do 3 eexists; split; [reflexivity | reflexivity] |]
         end.
  exfalso. destruct Hcat as [H | [H | [H | H]]]; congruence.
Qed.

Lemma listed_malicious_is_critical_witness :
  inTier (Protestware.low (protestwareOf typoEverywhere)) "P" = true
  /\ inCampaign "P" splitCampaign
  /\ exists type reason action,
      checkPackage Some [] "P" "^2.0.0" typoEverywhere (Some transitiveP)
                   Config.empty
      = Js.Normal
          (Found (withFinding (baseIssue "P" "^2.0.0" (Some transitiveP))
                              "critical" type (Proto.Data reason) action))
      /\ startsWith action "REMOVE IMMEDIATELY" = true.
Proof.
  split; [reflexivity | split; [reflexivity |]].
  apply (listed_malicious_is_critical string string Some [] "P"
           typoEverywhere Config.empty).
  - reflexivity.
  - reflexivity.
  - right. left. reflexivity.
Defined.

(** X3. When every campaign of the database declares one of the four
    levels (or none), the severity of every issue is one of critical, high,
    medium and low. *)
Theorem issue_severity_is_a_level
        (V W : Type) (text : V -> option string)
        (ignoreList : list string) (name : string) (version : V)
        (db : ThreatDatabase.t) (depInfo : option (DepInfo.t W))
        (config : Config.t) (issue : Issue.t V) :
  declaresLevels db ->
  checkPackage text ignoreList name version db depInfo config
  = Js.Normal (Found issue) ->
  isLevel (Issue.severity issue) = true.
Proof.
  intros Hdb H.
  exact (found_has_level text W ignoreList name version db depInfo config
           issue Hdb H).
Qed.

Lemma issue_severity_is_a_level_witness :
  isLevel "high" = true
  /\ exists issue,
      checkPackage Some [] "P" "1.0.0" versionSplit noMetadata Config.empty
      = Js.Normal (Found issue)
      /\ isLevel (Issue.severity issue) = true.
Proof.
  split; [reflexivity|].
  eexists. split; [reflexivity|].
  apply (issue_severity_is_a_level string string Some [] "P" "1.0.0"
           versionSplit noMetadata Config.empty).
  - intros id c [H | []]. inversion H; subst. reflexivity.
  - reflexivity.
Defined.

(** X4. The safe-version marker is sound: an issue that carries it has
    severity low and comes from a campaign that has the name in its
    packages and whose list of affected versions of the name is not empty
    and does not hold the cleaned version; that list is the one the issue
    shows. *)
Theorem safe_marker_is_sound
        (V W : Type) (text : V -> option string)
        (ignoreList : list string) (name : string) (version : V)
        (db : ThreatDatabase.t) (depInfo : option (DepInfo.t W))
        (config : Config.t) (issue : Issue.t V) :
  checkPackage text ignoreList name version db depInfo config
  = Js.Normal (Found issue) ->
  Issue.safeVersion issue = true ->
  Issue.severity issue = "low"
  /\ exists id campaign versions given,
      In (id, campaign) (campaignsOf db)
      /\ inCampaign name campaign
      /\ Issue.campaign issue = Some id
      /\ campaignVersions campaign name = Some (Proto.Data versions)
      /\ Issue.affectedVersions issue = Some (Proto.Data versions)
      /\ versions <> []
      /\ text version = Some given
      /\ ~ In (cleanVersion given) versions.
Proof.
  intros H Hsafe. apply checkPackage_found in H.
  destruct H as [(sev & ty & re & ac & -> & _) | H]; [discriminate Hsafe|].
  apply checkCampaigns_cases in H.
  destruct H as [id c given v vs Hin Hpk Hav Hgiven Hnot ->
                | id c _ _ _ ->
                | id c listed _ _ _ _ ->];
    [| discriminate Hsafe | discriminate Hsafe].
  split; [reflexivity|].
  exists id, c, (v :: vs), given. repeat split; auto.
  - discriminate.
  - intros Hin'. apply includes_In in Hin'. congruence.
Qed.

Lemma safe_marker_is_sound_witness :
  exists issue,
    checkPackage Some [] "P" "^2.0.0" versionSplit noMetadata Config.empty
    = Js.Normal (Found issue)
    /\ Issue.severity issue = "low"
    /\ exists id campaign versions given,
        In (id, campaign) (campaignsOf versionSplit)
        /\ inCampaign "P" campaign
        /\ Issue.campaign issue = Some id
        /\ campaignVersions campaign "P" = Some (Proto.Data versions)
        /\ Issue.affectedVersions issue = Some (Proto.Data versions)
        /\ versions <> []
        /\ Some "^2.0.0" = Some given
        /\ ~ In (cleanVersion given) versions.
Proof.
  eexists. split; [reflexivity|].
  apply (safe_marker_is_sound string string Some [] "P" "^2.0.0"
           versionSplit noMetadata Config.empty); reflexivity.
Defined.

(** X5. Every issue names the package and the version it was asked about,
    the version as given and not cleaned.  An issue built for a node with
    dependency metadata carries the flags and the chain of the node, except
    the issue of a version listed by a campaign that does not have the name
    in its packages: that one carries no lineage at all. *)
Theorem issue_describes_the_node
        (V W : Type) (text : V -> option string)
        (ignoreList : list string) (name : string) (version : V)
        (db : ThreatDatabase.t) (node : DepInfo.t W)
        (config : Config.t) (issue : Issue.t V) :
  checkPackage text ignoreList name version db (Some node) config
  = Js.Normal (Found issue) ->
  Issue.package issue = name
  /\ Issue.version issue = version
  /\ ((Issue.isDirect issue = Some (DepInfo.isDirect node)
       /\ Issue.isTransitive issue = Some (DepInfo.isTransitive node)
       /\ Issue.dependencyChain issue = Some (DepInfo.dependencyChain node))
      \/ (Issue.isDirect issue = None
          /\ Issue.isTransitive issue = None
          /\ Issue.dependencyChain issue = None
          /\ Issue.severity issue = "critical"
          /\ exists id campaign versions,
              In (id, campaign) (campaignsOf db)
              /\ optIncludes (Campaign.packages campaign) name = false
              /\ campaignVersions campaign name = Some versions
              /\ issue = versionIssue name version id campaign versions)).
Proof.
  intros H. apply checkPackage_found in H.
  destruct H as [(sev & ty & re & ac & -> & _) | H].
  { repeat split; left; repeat split. }
  apply checkCampaigns_cases in H.
  destruct H as [id c given v vs Hin _ _ _ _ ->
                | id c Hin _ _ ->
                | id c listed Hin Hpk Hav _ ->].
  - repeat split; left; repeat split.
  - repeat split; left; repeat split.
  - repeat split. right. repeat split. now exists id, c, listed.
Qed.

Lemma issue_describes_the_node_witness :
  exists issue,
    checkPackage Some [] "P" "^2.0.0" versionSplit (Some transitiveP)
                 Config.empty
    = Js.Normal (Found issue)
    /\ Issue.package issue = "P"
    /\ Issue.version issue = "^2.0.0"
    /\ Issue.isTransitive issue = Some true
    /\ Issue.dependencyChain issue = Some ["dep-a"].
Proof.
  eexists. split; [reflexivity|].
  destruct (issue_describes_the_node string string Some [] "P" "^2.0.0"
              versionSplit transitiveP Config.empty _ eq_refl)
    as (Hp & Hv & [(_ & Ht & Hc) | (_ & Ht & _)]).
  - repeat split; assumption.
  - discriminate Ht.
Defined.

(** X6. A version is compared without the range operators in front of it
    and without what follows its first space: a declared range such as
    [^1.2.3] or [>=1.2.3 <2.0.0] is looked up as the exact version
    [1.2.3]. *)
Theorem range_operators_are_ignored
        (V : Type) (text : V -> option string) (version : V)
        (operators v rest : string) (versions : list string) :
  RegexSpec.allChars rangeOperator operators = true ->
  exactVersion v ->
  text version = Some (operators ++ v)%string ->
  cleanVersion (operators ++ v) = v
  /\ cleanVersion (operators ++ v ++ " " ++ rest) = v
  /\ isVersionAffected text version (Some (Proto.Data versions))
     = Js.Normal match versions with
                 | [] => true
                 | _ => includes versions v
                 end.
Proof.
  intros Hops (Hne & Hstop & Hsp) Htext.
  unfold rangeOperator in Hops, Hstop.
  assert (E1 : cleanVersion (operators ++ v) = v).
  { unfold cleanVersion, rangePrefix.
    rewrite (removeAtStart_star _ operators v Hops Hstop).
    now rewrite split_char_whole. }
  assert (Hstop' : RegexSpec.stopsAt (oneOf "^~>=<") (v ++ " " ++ rest) = true).
  { destruct v; [now elim Hne | exact Hstop]. }
  repeat split.
  - exact E1.
  - unfold cleanVersion, rangePrefix.
    rewrite (removeAtStart_star _ operators _ Hops Hstop').
    now apply split_char_first.
  - destruct versions as [|w ws]; [reflexivity|].
    unfold isVersionAffected. cbn [lengthIsZero]. rewrite Htext.
    cbn [versionsInclude]. now rewrite E1.
Qed.

Lemma range_operators_are_ignored_witness :
  cleanVersion "^1.2.3" = "1.2.3"
  /\ cleanVersion ">=1.2.3 <2.0.0" = "1.2.3"
  /\ isVersionAffected Some "^1.2.3" (Some (Proto.Data ["1.2.3"]))
     = Js.Normal true.
Proof.
  destruct (range_operators_are_ignored string Some "^1.2.3" "^" "1.2.3"
              "<2.0.0" ["1.2.3"])
    as (H1 & _ & H3);
    [reflexivity | repeat split; discriminate | reflexivity |].
  destruct (range_operators_are_ignored string Some ">=1.2.3" ">=" "1.2.3"
              "<2.0.0" ["1.2.3"])
    as (_ & H2 & _);
    [reflexivity | repeat split; discriminate | reflexivity |].
  repeat split; assumption.
Defined.

(** X7. A pattern matches a name exactly when it is the name, or when it
    ends with [/*] and the name starts with what precedes the star, the
    slash included: the wildcard covers a namespace and nothing else. *)
Theorem pattern_is_name_or_namespace (name pattern : string) :
  matchesPattern name pattern = true
  <-> name = pattern
      \/ exists scope rest,
          pattern = (scope ++ "/*")%string
          /\ name = (scope ++ "/" ++ rest)%string.
Proof.
  rewrite matchesPattern_spec. split.
  - intros [n | scope rest]; [now left | right; now exists scope, rest].
  - intros [-> | (scope & rest & -> & ->)]; constructor.
Qed.

End ClassifierInvariants.

(* ================================================================== *)
(** ** The shape of the merged graph *)
(* ================================================================== *)

Module MergeShape.
Import JsString Graph GraphSpec MapFacts StringFacts NpmInvariants.

Lemma has_includes {X : Type} (k : string) (m : JsMap.t X) :
  JsMap.has k m = includes (JsMap.keys m) k.
Proof.
  unfold JsMap.has, JsMap.get, includes.
  induction m as [|[k' v] m IH]; simpl; [reflexivity|].
  destruct (String.eqb k k'); [reflexivity | exact IH].
Qed.

Lemma has_In {X : Type} (k : string) (m : JsMap.t X) :
  JsMap.has k m = true <-> In k (JsMap.keys m).
Proof. rewrite has_includes. apply includes_In. Qed.

Lemma has_keys {X Y : Type} (k : string) (m : JsMap.t X) (m' : JsMap.t Y) :
  JsMap.keys m = JsMap.keys m' -> JsMap.has k m = JsMap.has k m'.
Proof. intros H. now rewrite !has_includes, H. Qed.

Lemma get_not_key {X : Type} (k : string) (m : JsMap.t X) :
  ~ In k (JsMap.keys m) -> JsMap.get k m = None.
Proof.
  intros H. destruct (JsMap.get k m) eqn:E; [|reflexivity].
  elim H. apply has_In. unfold JsMap.has. now rewrite E.
Qed.

Lemma set_new {X : Type} (k : string) (v : X) (m : JsMap.t X) :
  JsMap.has k m = false -> JsMap.set k v m = m ++ [(k, v)].
Proof.
  unfold JsMap.has, JsMap.get.
  induction m as [|[k' v'] m IH]; simpl; [reflexivity|].
  destruct (String.eqb k k'); [discriminate|].
  intros H. now rewrite IH.
Qed.

Lemma NoDup_snoc {X : Type} (l : list X) (x : X) :
  NoDup l -> ~ In x l -> NoDup (l ++ [x]).
Proof.
  induction l as [|y l IH]; intros Hnd Hx; simpl.
  - constructor; [intros [] | constructor].
  - inversion Hnd as [|? ? Hy Hl]; subst. constructor.
    + rewrite in_app_iff. intros [H | [H | []]]; [now apply Hy|].
      subst. apply Hx. now left.
    + apply IH; [exact Hl|]. intros H. apply Hx. now right.
Qed.

Section Merge.
Context {V : Type}.

(** The second loop on a name the map knows: the version of its node is
    replaced, where it stands. *)
Lemma addLocked_known (name : string) (info : LockEntry.t V)
      (merged : JsMap.t (DepInfo.t V)) :
  NoDup (JsMap.keys merged) ->
  JsMap.has name merged = true ->
  addLocked merged (name, info)
  = map (fun entry =>
           if String.eqb name (fst entry)
           then (fst entry, withVersion (snd entry) (LockEntry.version info))
           else entry)
        merged.
Proof.
  unfold addLocked, JsMap.has, JsMap.get.
  induction merged as [|[k v] merged IH]; simpl; [discriminate|].
  intros Hnd Hhas. inversion Hnd as [|? ? Hk Hnd']; subst.
  destruct (String.eqb name k) eqn:E.
  - apply String.eqb_eq in E. subst k. simpl.
    f_equal. rewrite <- (map_id merged) at 1.
    apply map_ext_in. intros [k' v'] Hin. cbn [fst snd].
    destruct (String.eqb name k') eqn:E'; [|reflexivity].
    apply String.eqb_eq in E'. subst k'. elim Hk.
    change name with (fst (name, v')). now apply in_map.
  - specialize (IH Hnd' Hhas).
    destruct (Obj.get name merged) as [existing|] eqn:G; [|discriminate].
    simpl. f_equal. exact IH.
Qed.

(** The second loop on a name the map does not know: a transitive node
    is added at the end. *)
Lemma addLocked_new (name : string) (info : LockEntry.t V)
      (merged : JsMap.t (DepInfo.t V)) :
  JsMap.has name merged = false ->
  addLocked merged (name, info) = merged ++ [asTransitive (name, info)].
Proof.
  intros H. unfold addLocked.
  assert (G : JsMap.get name merged = None).
  { unfold JsMap.has in H. now destruct (JsMap.get name merged). }
  rewrite G. now apply set_new.
Qed.

Lemma resolved_nothing (merged : JsMap.t (DepInfo.t V)) :
  map (resolved []) merged = merged.
Proof.
  rewrite <- (map_id merged) at 2. apply map_ext. now intros [k v].
Qed.

Lemma keys_map_fst {X Y : Type} (f : string * X -> string * Y)
      (m : JsMap.t X) :
  (forall e, fst (f e) = fst e) -> JsMap.keys (map f m) = JsMap.keys m.
Proof.
  intros H. unfold JsMap.keys. rewrite map_map. apply map_ext. exact H.
Qed.

(** The second loop as a whole: the nodes the map had, each at the
    version the lock file records for its name, then the packages of the
    lock file the map did not have, in the order of the lock file. *)
Lemma addLocked_shape (lockPackages : JsMap.t (LockEntry.t V)) :
  NoDup (JsMap.keys lockPackages) ->
  forall merged : JsMap.t (DepInfo.t V),
    NoDup (JsMap.keys merged) ->
    fold_left addLocked lockPackages merged
    = map (resolved lockPackages) merged
      ++ map asTransitive (unknownTo merged lockPackages).
Proof.
  induction lockPackages as [|[name info] rest IH]; intros Hnd merged Hm.
  - simpl. now rewrite resolved_nothing, app_nil_r.
  - inversion Hnd as [|? ? Hname Hrest]; subst.
    cbn [fold_left]. destruct (JsMap.has name merged) eqn:Hhas.
    + rewrite (addLocked_known name info merged Hm Hhas).
      rewrite IH; [| exact Hrest |].
      * f_equal.
        -- rewrite map_map. apply map_ext. intros [k v].
           unfold resolved. cbn [fst snd JsMap.get Obj.get].
           destruct (String.eqb name k) eqn:E.
           ++ apply String.eqb_eq in E. subst k. cbn [fst snd].
              rewrite String.eqb_refl.
              change (Obj.get name rest) with (JsMap.get name rest).
              now rewrite (get_not_key name rest Hname).
           ++ cbn [fst snd]. rewrite String.eqb_sym, E. reflexivity.
        -- f_equal. unfold unknownTo. cbn [filter fst]. rewrite Hhas.
           cbn [negb]. apply filter_ext. intros [k i]. f_equal.
           apply has_keys. apply keys_map_fst.
           intros [k' v']. cbn [fst snd]. now destruct (String.eqb name k').
      * rewrite keys_map_fst; [exact Hm|].
        intros [k' v']. cbn [fst snd]. now destruct (String.eqb name k').
    + rewrite (addLocked_new name info merged Hhas).
      assert (Hnot : ~ In name (JsMap.keys merged)).
      { intros Hin. apply has_In in Hin. congruence. }
      rewrite IH; [| exact Hrest |].
      * rewrite map_app. cbn [map]. rewrite <- List.app_assoc. f_equal.
        -- apply map_ext_in. intros [k v] Hin.
           unfold resolved. cbn [fst snd JsMap.get Obj.get].
           destruct (String.eqb k name) eqn:E; [|reflexivity].
           apply String.eqb_eq in E. subst k. elim Hnot.
           change name with (fst (name, v)). now apply in_map.
        -- unfold unknownTo. cbn [filter fst app]. rewrite Hhas. cbn [negb map].
           f_equal.
           ++ unfold resolved, asTransitive. cbn [fst snd].
              now rewrite (get_not_key name rest Hname).
           ++ f_equal. apply filter_ext_in. intros [k i] Hin. f_equal.
              cbn [fst]. rewrite !has_includes.
              unfold JsMap.keys. rewrite map_app. cbn [map fst].
              unfold includes. rewrite existsb_app.
              cbn [existsb asTransitive fst].
              destruct (String.eqb k name) eqn:E.
              ** apply String.eqb_eq in E. subst k. elim Hname.
                 change name with (fst (name, i)). now apply in_map.
              ** now rewrite !orb_false_r.
      * unfold JsMap.keys. rewrite map_app. cbn [map fst asTransitive].
        now apply NoDup_snoc.
Qed.

End Merge.

End MergeShape.

Module GraphShape.
Import JsString Graph GraphSpec MapFacts StringFacts NpmInvariants MergeShape.

(** A loop that sets one key after the other, all of them new and
    different, appends its entries in order. *)
Lemma set_each_new {X Y : Type} (f : string * X -> Y)
      (entries : list (string * X)) :
  forall merged : JsMap.t Y,
    NoDup (map fst entries) ->
    (forall k, In k (map fst entries) -> ~ In k (JsMap.keys merged)) ->
    fold_left (fun all entry => JsMap.set (fst entry) (f entry) all)
              entries merged
    = merged ++ map (fun entry => (fst entry, f entry)) entries.
Proof.
  induction entries as [|[k v] rest IH]; intros merged Hnd Hnew.
  - simpl. now rewrite app_nil_r.
  - inversion Hnd as [|? ? Hk Hrest]; subst. cbn [fold_left map fst].
    rewrite set_new.
    + rewrite IH; [now rewrite <- List.app_assoc | exact Hrest |].
      intros k' Hin. unfold JsMap.keys. rewrite map_app, in_app_iff.
      intros [H | [H | []]].
      * apply (Hnew k'); [now right | exact H].
      * cbn [fst] in H. subst k'. now apply Hk.
    + destruct (JsMap.has k merged) eqn:E; [|reflexivity].
      apply has_In in E. elim (Hnew k); [now left | exact E].
Qed.

Section Merge.
Context {V : Type}.

(** The first loop: the direct nodes, in the order of the manifest. *)
Lemma seed_shape (directDeps : Obj.t V) :
  NoDup (Obj.keys directDeps) ->
  fold_left addDirect directDeps JsMap.empty
  = map (fun entry => (fst entry, directNode (snd entry))) directDeps.
Proof.
  intros Hnd.
  exact (set_each_new (fun entry => directNode (snd entry)) directDeps []
           Hnd (fun k _ H => H)).
Qed.

(** The merge in closed form. *)
Lemma merge_shape (directDeps : Obj.t V)
      (lockPackages : JsMap.t (LockEntry.t V)) :
  NoDup (Obj.keys directDeps) ->
  NoDup (JsMap.keys lockPackages) ->
  mergeDependencies directDeps lockPackages
  = map (declared lockPackages) directDeps
    ++ map asTransitive (lockOnly directDeps lockPackages).
Proof.
  intros Hd Hl. unfold mergeDependencies.
  rewrite (seed_shape directDeps Hd).
  rewrite (addLocked_shape lockPackages Hl).
  - f_equal.
    + rewrite map_map. apply map_ext. intros [k v].
      unfold resolved, declared. cbn [fst snd].
      now destruct (JsMap.get k lockPackages).
    + f_equal. unfold unknownTo, lockOnly. apply filter_ext.
      intros [k i]. f_equal. rewrite has_includes. f_equal.
      unfold JsMap.keys, Obj.keys. rewrite map_map. now apply map_ext.
  - unfold JsMap.keys. rewrite map_map. exact Hd.
Qed.

Lemma flagged_app (flag : DepInfo.t V -> bool)
      (a b : JsMap.t (DepInfo.t V)) :
  flagged flag (a ++ b) = flagged flag a + flagged flag b.
Proof. unfold flagged. now rewrite filter_app, List.length_app. Qed.

Lemma flagged_all {X : Type} (flag : DepInfo.t V -> bool)
      (f : X -> string * DepInfo.t V) (l : list X) :
  (forall x, flag (snd (f x)) = true) ->
  flagged flag (map f l) = List.length l.
Proof.
  intros H. unfold flagged.
  induction l as [|x l IH]; simpl; [reflexivity|].
  rewrite H. simpl. now rewrite IH.
Qed.

Lemma flagged_none {X : Type} (flag : DepInfo.t V -> bool)
      (f : X -> string * DepInfo.t V) (l : list X) :
  (forall x, flag (snd (f x)) = false) ->
  flagged flag (map f l) = 0.
Proof.
  intros H. unfold flagged.
  induction l as [|x l IH]; simpl; [reflexivity|].
  now rewrite H.
Qed.

End Merge.

(** X8. The merge in closed form: first the declared dependencies in the
    order of the manifest, each a direct node with an empty chain, at the
    version of the lock file when the lock file records the name and at
    the declared range otherwise; then the packages only the lock file
    records, in its order, each a transitive node with the version and the
    chain of its entry. *)
Theorem merged_graph_is_manifest_then_lock
        (V : Type) (directDeps : Obj.t V)
        (lockPackages : JsMap.t (LockEntry.t V)) :
  NoDup (Obj.keys directDeps) ->
  NoDup (JsMap.keys lockPackages) ->
  mergeDependencies directDeps lockPackages
  = map (declared lockPackages) directDeps
    ++ map asTransitive (lockOnly directDeps lockPackages).
Proof. apply merge_shape. Qed.

Lemma merged_graph_is_manifest_then_lock_witness :
  mergeDependencies MergeScenario.manifest MergeScenario.resolved
  = [ ("dep-a", DepInfo.mk "^1.0.0" true false []);
      ("dep-c", DepInfo.mk "3.0.1" true false []);
      ("dep-b", DepInfo.mk "2.0.0" false true ["dep-c"]) ].
Proof.
  rewrite (merged_graph_is_manifest_then_lock string MergeScenario.manifest
             MergeScenario.resolved).
  - reflexivity.
  - repeat constructor; simpl; intuition discriminate.
  - repeat constructor; simpl; intuition discriminate.
Defined.

End GraphShape.

(* ================================================================== *)
(** ** The statistics of the scan *)
(* ================================================================== *)

Module ScanCounts.
Import JsString Graph GraphSpec MapFacts StringFacts NpmInvariants.
Import MergeShape GraphShape.

Section Collect.
Context {number : Type}.
Variable nonZero : number -> bool.
Variable JSON_parse : string -> option (Json.t number).
Variable arrayPrototype : string -> bool.

(** A decoded lock file has every name once. *)
Lemma decode_NoDup (type : Scan.LockType) (content : string)
      (decoded : JsMap.t (LockEntry.t (Json.t number))) :
  Scan.decode nonZero JSON_parse type content = Js.Normal decoded ->
  NoDup (JsMap.keys decoded).
Proof.
  destruct type; cbn [Scan.decode]; intros H.
  - inversion H; subst. rewrite keys_map_fst; [|reflexivity].
    apply parsePnpmLock_NoDup.
  - exact (parseNpmLock_NoDup nonZero JSON_parse content decoded H).
  - inversion H; subst. rewrite keys_map_fst; [|reflexivity].
    apply parseYarnLock_NoDup.
Qed.

Lemma loadLockFile_NoDup (files : Scan.LockFiles)
      (lockFile : Scan.LockFile) :
  Scan.loadLockFile nonZero JSON_parse files = Some lockFile ->
  NoDup (JsMap.keys (Scan.packages lockFile)).
Proof.
  unfold Scan.loadLockFile.
  destruct (Scan.detectLockFile files) as [info|]; [|discriminate].
  unfold Scan.readAndDecode.
  destruct (Scan.readLock files (Scan.infoType info)) as [content|e];
    cbn [Js.andThen]; [|discriminate].
  destruct (Scan.decode nonZero JSON_parse (Scan.infoType info) content)
    as [decoded|e] eqn:E; [|discriminate].
  intros H. inversion H; subst. cbn [Scan.packages].
  exact (decode_NoDup _ _ _ E).
Qed.

(** The nodes of a scan of the direct dependencies. *)
Lemma directOnly_shape (lockedVersions : Scan.Versions)
      (directDependencies : Obj.t (Json.t number)) :
  NoDup (Obj.keys directDependencies) ->
  Scan.directOnly nonZero arrayPrototype lockedVersions directDependencies
  = map (fun entry =>
           (fst entry,
            directNode (Scan.lockedOr nonZero arrayPrototype lockedVersions
                                      (fst entry) (snd entry))))
        directDependencies.
Proof.
  intros Hnd. unfold Scan.directOnly.
  exact (set_each_new
           (fun entry =>
              directNode (Scan.lockedOr nonZero arrayPrototype lockedVersions
                                        (fst entry) (snd entry)))
           directDependencies [] Hnd (fun k _ H => H)).
Qed.

(** The flags of the nodes do not depend on the kind of their versions. *)
Lemma flagged_parsed (flag : forall V, DepInfo.t V -> bool)
      (nodes : JsMap.t (DepInfo.t (Json.t number))) :
  (forall node : string * DepInfo.t (Json.t number),
      flag _ (snd (Scan.parsed node)) = flag _ (snd node)) ->
  flagged (flag _) (map Scan.parsed nodes) = flagged (flag _) nodes.
Proof.
  intros H. unfold flagged.
  induction nodes as [|node rest IH]; [reflexivity|].
  cbn [map filter]. rewrite H.
  destruct (flag _ (snd node)); cbn [List.length]; now rewrite IH.
Qed.

End Collect.

(** X9. The statistics of the scan agree with the flags of the nodes, in
    a deep scan as in a scan of the direct dependencies: [direct] is the
    number of nodes flagged direct, [transitive] the number of nodes
    flagged transitive, and [total], the number of nodes, is their sum. *)
Theorem counts_agree_with_flags
        (number : Type) (nonZero : number -> bool)
        (JSON_parse : string -> option (Json.t number))
        (arrayPrototype : string -> bool)
        (deep : bool)
        (directDependencies : Obj.t (Json.t number))
        (lockedVersions : Scan.Versions)
        (files : Scan.LockFiles)
        (allDependencies : JsMap.t (DepInfo.t Scan.value))
        (scanStats : Scan.ScanStats) :
  NoDup (Obj.keys directDependencies) ->
  Scan.collectDependencies nonZero JSON_parse arrayPrototype deep
                           directDependencies lockedVersions files
  = (allDependencies, scanStats) ->
  Scan.total scanStats = JsMap.size allDependencies
  /\ Scan.direct scanStats = flagged DepInfo.isDirect allDependencies
  /\ Scan.transitive scanStats
     = flagged DepInfo.isTransitive allDependencies
  /\ Scan.total scanStats
     = Scan.direct scanStats + Scan.transitive scanStats.
Proof.
  intros Hnd. unfold Scan.collectDependencies.
  assert (Hfallback :
            forall all stats,
              (Scan.directOnly nonZero arrayPrototype lockedVersions
                               directDependencies,
               Scan.mkScanStats (List.length (Obj.keys directDependencies))
                 (List.length (Obj.keys directDependencies)) 0 None 0 0)
              = (all, stats) ->
              Scan.total stats = JsMap.size all
              /\ Scan.direct stats = flagged DepInfo.isDirect all
              /\ Scan.transitive stats = flagged DepInfo.isTransitive all
              /\ Scan.total stats = Scan.direct stats + Scan.transitive stats).
  { intros all stats H. inversion H; subst. cbn [Scan.total Scan.direct Scan.transitive].
    rewrite (directOnly_shape nonZero arrayPrototype lockedVersions
                              directDependencies Hnd).
    unfold JsMap.size, Obj.keys. rewrite !length_map.
    rewrite flagged_all by reflexivity. rewrite flagged_none by reflexivity.
    repeat split; lia. }
  destruct deep; [|apply Hfallback].
  destruct (Scan.loadLockFile nonZero JSON_parse files) as [lockFile|] eqn:L;
    [|apply Hfallback].
  destruct (Nat.ltb 0 (JsMap.size (Scan.packages lockFile)));
    [|apply Hfallback].
  intros H. inversion H; subst.
  cbn [Scan.total Scan.direct Scan.transitive].
  rewrite (flagged_parsed (@DepInfo.isDirect)) by reflexivity.
  rewrite (flagged_parsed (@DepInfo.isTransitive)) by reflexivity.
  unfold JsMap.size. rewrite length_map.
  match goal with
  | |- context [@mergeDependencies ?T ?d ?l] =>
      rewrite (@merge_shape T d l Hnd
                 (loadLockFile_NoDup nonZero JSON_parse files lockFile L))
  end.
  unfold Obj.keys.
  rewrite !flagged_app, List.length_app, !length_map.
  rewrite (flagged_all DepInfo.isDirect) by reflexivity.
  rewrite (flagged_none DepInfo.isDirect) by reflexivity.
  rewrite (flagged_none DepInfo.isTransitive) by reflexivity.
  rewrite (flagged_all DepInfo.isTransitive) by reflexivity.
  rewrite ?List.length_app, ?length_map.
  repeat split; lia.
Qed.

Lemma counts_agree_with_flags_witness :
  let collected :=
    Scan.collectDependencies LockScenario.nonZero LockScenario.parseScenario
      ScanScenario.noArrayName true ScanScenario.manifest Scan.noVersions
      CountScenario.pnpmProject in
  (Scan.total (snd collected) = JsMap.size (fst collected)
   /\ Scan.direct (snd collected) = flagged DepInfo.isDirect (fst collected)
   /\ Scan.transitive (snd collected)
      = flagged DepInfo.isTransitive (fst collected)
   /\ Scan.total (snd collected)
      = Scan.direct (snd collected) + Scan.transitive (snd collected))
  /\ Scan.direct (snd collected) = 1
  /\ Scan.transitive (snd collected) = 1.
Proof.
  intros collected. split; [| split; reflexivity].
  apply (counts_agree_with_flags nat LockScenario.nonZero
           LockScenario.parseScenario ScanScenario.noArrayName true
           ScanScenario.manifest Scan.noVersions
           CountScenario.pnpmProject).
  - repeat constructor; simpl; intuition discriminate.
  - apply surjective_pairing.
Defined.

(** X10. The lock file of a deep scan and the versions of a scan of the
    direct dependencies.  When [loadLockFile] returns a lock file, it is
    the first that exists of pnpm-lock.yaml, package-lock.json and
    yarn.lock, in this order, and the locked versions are those of its
    packages.  It returns null when no lock file exists, and then there is
    no locked version, or when the first that exists cannot be read; but
    [getLockedVersions] then goes on to the next file: with a
    pnpm-lock.yaml that cannot be read, a deep scan has no lock file and
    the versions are those of package-lock.json. *)
Theorem locked_versions_come_from_the_scanned_lock
        (number : Type) (nonZero : number -> bool)
        (JSON_parse : string -> option (Json.t number))
        (files : Scan.LockFiles) :
  (forall lockFile,
      Scan.loadLockFile nonZero JSON_parse files = Some lockFile ->
      Scan.getLockedVersions nonZero JSON_parse files
      = Scan.versionsOf (Scan.packages lockFile)
      /\ Scan.detectLockFile files
         = Some (Scan.mkLockInfo (Scan.type lockFile)
                                 (Scan.filename lockFile))
      /\ exists content,
          Scan.fileOf files (Scan.type lockFile) = Scan.Content content
          /\ Scan.decode nonZero JSON_parse (Scan.type lockFile) content
             = Js.Normal (Scan.packages lockFile))
  /\ (Scan.loadLockFile nonZero JSON_parse files = None ->
      (Scan.detectLockFile files = None
       /\ Scan.getLockedVersions nonZero JSON_parse files = Scan.noVersions)
      \/ exists lockInfo,
          Scan.detectLockFile files = Some lockInfo
          /\ Scan.fileOf files (Scan.infoType lockInfo) = Scan.Unreadable)
  /\ (forall content,
         Scan.pnpmLockYaml files = Scan.Unreadable ->
         Scan.packageLockJson files = Scan.Content content ->
         Scan.loadLockFile nonZero JSON_parse files = None
         /\ exists decoded,
             Scan.decode nonZero JSON_parse Scan.npm content
             = Js.Normal decoded
             /\ Scan.getLockedVersions nonZero JSON_parse files
                = Scan.versionsOf decoded).
Proof.
  split; [|split].
  - intros lockFile.
    destruct files as [[| |p] [| |n] [| |y]];
      unfold Scan.getLockedVersions, Scan.loadLockFile, Scan.detectLockFile;
      cbn [Scan.lockedVersionsFrom Scan.lockFileTable find Scan.fileOf
           Scan.existsLock Scan.infoType Scan.infoFilename
           Scan.pnpmLockYaml Scan.packageLockJson Scan.yarnLock];
      unfold Scan.readAndDecode, Scan.readLock;
      cbn [Scan.fileOf Js.andThen
           Scan.pnpmLockYaml Scan.packageLockJson Scan.yarnLock Scan.decode];
      try discriminate;
      try (destruct (DecoderTotality.parseNpmLock_returns
                       nonZero JSON_parse n) as [decoded E]; rewrite E);
      intros H; inversion H; subst;
      cbn [Scan.packages Scan.type Scan.filename Scan.fileOf
           Scan.pnpmLockYaml Scan.packageLockJson Scan.yarnLock Scan.decode];
      (split; [reflexivity | split; [reflexivity |]]);
      eexists; split; try reflexivity; assumption.
  - destruct files as [[| |p] [| |n] [| |y]];
      unfold Scan.getLockedVersions, Scan.loadLockFile, Scan.detectLockFile;
      cbn [Scan.lockedVersionsFrom Scan.lockFileTable find Scan.fileOf
           Scan.existsLock Scan.infoType Scan.infoFilename
           Scan.pnpmLockYaml Scan.packageLockJson Scan.yarnLock];
      unfold Scan.readAndDecode, Scan.readLock;
      cbn [Scan.fileOf Js.andThen
           Scan.pnpmLockYaml Scan.packageLockJson Scan.yarnLock Scan.decode];
      try (destruct (DecoderTotality.parseNpmLock_returns
                       nonZero JSON_parse n) as [decoded E]; rewrite E);
      intros H; try discriminate H;
      solve [ left; split; reflexivity
            | right; eexists; split; reflexivity ].
  - intros content Hp Hn. destruct files as [p n y].
    cbn [Scan.pnpmLockYaml Scan.packageLockJson] in Hp, Hn. subst p n.
    destruct (DecoderTotality.decode_returns nonZero JSON_parse Scan.npm
                content) as [decoded E].
    split; [reflexivity|]. exists decoded. split; [exact E|].
    unfold Scan.getLockedVersions.
    cbn [Scan.lockedVersionsFrom Scan.existsLock Scan.fileOf
         Scan.pnpmLockYaml Scan.packageLockJson].
    unfold Scan.readAndDecode, Scan.readLock.
    cbn [Scan.fileOf Scan.pnpmLockYaml Scan.packageLockJson Js.andThen].
    now rewrite E.
Qed.

Lemma locked_versions_come_from_the_scanned_lock_witness :
  Scan.loadLockFile LockScenario.nonZero LockScenario.parseScenario
                    CountScenario.pnpmUnreadable = None
  /\ exists decoded,
      Scan.decode LockScenario.nonZero LockScenario.parseScenario Scan.npm
                  "nested" = Js.Normal decoded
      /\ Scan.getLockedVersions LockScenario.nonZero
                                LockScenario.parseScenario
                                CountScenario.pnpmUnreadable
         = Scan.versionsOf decoded.
Proof.
  destruct (locked_versions_come_from_the_scanned_lock nat
              LockScenario.nonZero LockScenario.parseScenario
              CountScenario.pnpmUnreadable) as (_ & _ & H).
  apply (H "nested"); reflexivity.
Defined.

End ScanCounts.

(* ================================================================== *)
(** ** Invariants of the line decoders *)
(* ================================================================== *)

Module LineDecoders.
Import JsString Regex Chars RegexSpec StringFacts MapFacts DecoderSpec.
Import ClassifierCases MergeShape DecoderTotality.

Lemma Extends_refl (m : JsMap.t (LockEntry.t string)) : Extends m m.
Proof. split; intros name entry H; [exact H | now left]. Qed.

Lemma Extends_trans (a b c : JsMap.t (LockEntry.t string)) :
  Extends a b -> Extends b c -> Extends a c.
Proof.
  intros [H1 H2] [H3 H4]. split; intros name entry H.
  - apply H3. now apply H1.
  - destruct (H4 name entry H) as [H' | H']; [now apply H2 | now right].
Qed.

(** A name is recorded only when the map does not have it. *)
Lemma set_unless_known (name version : string)
      (packages : JsMap.t (LockEntry.t string)) :
  Extends packages
    (if JsMap.has name packages then packages
     else JsMap.set name (lockedAt version) packages).
Proof.
  destruct (JsMap.has name packages) eqn:E; [apply Extends_refl|].
  split; intros k entry H.
  - rewrite get_set_other; [exact H|].
    intros ->. unfold JsMap.has in E. now rewrite H in E.
  - destruct (string_dec k name) as [->|Hne].
    + rewrite get_set_same in H. inversion H; subst.
      right. now exists version.
    + rewrite get_set_other in H by exact Hne. now left.
Qed.

Lemma record_extends (name version : string)
      (packages : JsMap.t (LockEntry.t string)) :
  Extends packages (Pnpm.record name version packages).
Proof. apply set_unless_known. Qed.

Lemma readEntry_extends (trimmed : string)
      (packages : JsMap.t (LockEntry.t string)) :
  Extends packages (Pnpm.readEntry trimmed packages).
Proof.
  unfold Pnpm.readEntry.
  destruct (Pnpm.nameAndVersion (exec_at Pnpm.packageRe trimmed))
    as [[n v]|]; [apply record_extends|].
  destruct (Pnpm.nameAndVersion (exec_at Pnpm.snapshotRe trimmed))
    as [[n v]|]; [|apply Extends_refl].
  destruct (negb (String.eqb n EmptyString)
            && negb (String.eqb v EmptyString));
    [apply record_extends | apply Extends_refl].
Qed.

Lemma pnpm_step_extends (st : Pnpm.state) (line : string) :
  Extends (Pnpm.packages st) (Pnpm.packages (Pnpm.step st line)).
Proof.
  unfold Pnpm.step.
  repeat match goal with
         | |- context [if ?c then _ else _] => destruct c
         end; simpl; try apply Extends_refl.
  apply readEntry_extends.
Qed.

Lemma pnpm_steps_extend (lines : list string) (st : Pnpm.state) :
  Extends (Pnpm.packages st) (Pnpm.packages (fold_left Pnpm.step lines st)).
Proof.
  revert st. induction lines as [|l lines IH]; intros st; simpl.
  - apply Extends_refl.
  - eapply Extends_trans; [apply pnpm_step_extends | apply IH].
Qed.

Lemma commit_extends (version name : string)
      (packages : JsMap.t (LockEntry.t string)) :
  Extends packages (Yarn.commit version packages name).
Proof. apply set_unless_known. Qed.

Lemma commits_extend (version : string) (names : list string)
      (packages : JsMap.t (LockEntry.t string)) :
  Extends packages (fold_left (Yarn.commit version) names packages).
Proof.
  revert packages. induction names as [|n names IH]; intros packages; simpl.
  - apply Extends_refl.
  - eapply Extends_trans; [apply commit_extends | apply IH].
Qed.

Lemma yarn_step_extends (st : Yarn.state) (line : string) :
  Extends (Yarn.packages st) (Yarn.packages (Yarn.step st line)).
Proof.
  unfold Yarn.step.
  repeat match goal with
         | |- context [if ?c then _ else _] => destruct c
         | |- context [match ?c with Some _ => _ | None => _ end] =>
             destruct c
         | |- context [let (_, _) := ?p in _] => destruct p
         end; simpl; try apply Extends_refl; apply commits_extend.
Qed.

Lemma yarn_steps_extend (lines : list string) (st : Yarn.state) :
  Extends (Yarn.packages st) (Yarn.packages (fold_left Yarn.step lines st)).
Proof.
  revert st. induction lines as [|l lines IH]; intros st; simpl.
  - apply Extends_refl.
  - eapply Extends_trans; [apply yarn_step_extends | apply IH].
Qed.

Lemma prefix_empty (s : string) : prefix EmptyString s = true.
Proof. now destruct s. Qed.

(** The lines of a text that has a line feed in it: those before it, then
    those after it. *)
Lemma split_aux_app (c : ascii) (a b cur : string) :
  split_aux (String c EmptyString) (a ++ String c b) cur 0
  = split_aux (String c EmptyString) a cur 0
    ++ split_aux (String c EmptyString) b EmptyString 0.
Proof.
  revert cur. induction a as [|d a IH]; intros cur.
  - cbn [append split_aux prefix String.length Nat.sub].
    destruct (ascii_dec c c) as [_|N]; [|now elim N].
    now destruct b.
  - cbn [append split_aux prefix String.length Nat.sub].
    destruct (ascii_dec c d) as [->|_].
    + rewrite !prefix_empty. now rewrite IH.
    + apply IH.
Qed.

Lemma split_lines (a b : string) :
  split newline (a ++ newline ++ b) = split newline a ++ split newline b.
Proof. unfold split, newline. apply split_aux_app. Qed.

End LineDecoders.

Module DecoderInvariants.
Import JsString Regex Chars RegexSpec StringFacts MapFacts DecoderSpec.
Import LineDecoders DecoderTotality.

(** X11. In pnpm-lock.yaml and in yarn.lock the first entry of a name
    wins: what is read after a name has been recorded changes neither its
    version nor anything else of its entry, whatever follows in the
    file. *)
Theorem first_entry_wins (head tail name : string)
        (entry : LockEntry.t string) :
  (JsMap.get name (Pnpm.parsePnpmLock head) = Some entry ->
   JsMap.get name (Pnpm.parsePnpmLock (head ++ newline ++ tail))
   = Some entry)
  /\ (JsMap.get name (Yarn.parseYarnLock head) = Some entry ->
      JsMap.get name (Yarn.parseYarnLock (head ++ newline ++ tail))
      = Some entry).
Proof.
  unfold Pnpm.parsePnpmLock, Yarn.parseYarnLock.
  rewrite split_lines, !fold_left_app. split; intros H.
  - now apply (proj1 (pnpm_steps_extend (split newline tail) _)).
  - now apply (proj1 (yarn_steps_extend (split newline tail) _)).
Qed.

Lemma first_entry_wins_witness :
  JsMap.get "@babel/core"
    (Pnpm.parsePnpmLock
       (LockScenario.pnpmLock ++ newline ++ DecoderScenario.pnpmAgain))
  = Some (lockedAt "7.24.0")
  /\ JsMap.get "@babel/core"
       (Yarn.parseYarnLock
          (LockScenario.yarnLock ++ newline ++ DecoderScenario.yarnAgain))
     = Some (lockedAt "7.24.0").
Proof.
  split.
  - apply (proj1 (first_entry_wins LockScenario.pnpmLock
                    DecoderScenario.pnpmAgain "@babel/core"
                    (lockedAt "7.24.0"))).
    reflexivity.
  - apply (proj2 (first_entry_wins LockScenario.yarnLock
                    DecoderScenario.yarnAgain "@babel/core"
                    (lockedAt "7.24.0"))).
    reflexivity.
Defined.

(** X12. The decoders of pnpm-lock.yaml and of yarn.lock record no
    lineage: every entry they return is flagged transitive and has an
    empty dependency chain. *)
Theorem line_decoders_record_no_chain (content name : string)
        (entry : LockEntry.t string) :
  JsMap.get name (Pnpm.parsePnpmLock content) = Some entry
  \/ JsMap.get name (Yarn.parseYarnLock content) = Some entry ->
  LockEntry.isTransitive entry = true
  /\ LockEntry.dependencyChain entry = [].
Proof.
  intros [H | H].
  - destruct (proj2 (pnpm_steps_extend (split newline content) Pnpm.initial)
                name entry H) as [H' | [v ->]]; [discriminate H'|].
    now split.
  - destruct (proj2 (yarn_steps_extend (split newline content) Yarn.initial)
                name entry H) as [H' | [v ->]]; [discriminate H'|].
    now split.
Qed.

Lemma line_decoders_record_no_chain_witness :
  exists entry,
    JsMap.get "@babel/core" (Pnpm.parsePnpmLock LockScenario.pnpmLock)
    = Some entry
    /\ LockEntry.isTransitive entry = true
    /\ LockEntry.dependencyChain entry = [].
Proof.
  exists (lockedAt "7.24.0"). split; [reflexivity|].
  apply (line_decoders_record_no_chain LockScenario.pnpmLock "@babel/core").
  left. reflexivity.
Defined.

(** X13. The decoder of pnpm-lock.yaml reads the packages section only:
    whatever stands before the first [packages:] line, the dependency
    lists of the importers among it, is not decoded. *)
Theorem pnpm_reads_the_packages_section_only (head tail : string) :
  (forall line, In line (split newline head) -> trim line <> "packages:") ->
  Pnpm.parsePnpmLock (head ++ newline ++ tail) = Pnpm.parsePnpmLock tail.
Proof.
  intros H. unfold Pnpm.parsePnpmLock.
  rewrite split_lines, fold_left_app.
  now rewrite (pnpm_no_section (split newline head) Pnpm.initial eq_refl H).
Qed.

Lemma pnpm_reads_the_packages_section_only_witness :
  Pnpm.parsePnpmLock
    (DecoderScenario.pnpmHead ++ newline ++ LockScenario.pnpmLock)
  = [("@babel/core", lockedAt "7.24.0")].
Proof.
  rewrite (pnpm_reads_the_packages_section_only DecoderScenario.pnpmHead
             LockScenario.pnpmLock).
  - reflexivity.
  - intros line Hin. vm_compute in Hin.
    repeat (destruct Hin as [<- | Hin]; [vm_compute; discriminate|]).
    destruct Hin.
Defined.

End DecoderInvariants.

(* ================================================================== *)
(** ** Top-level packages of package-lock.json *)
(* ================================================================== *)

Module TextFacts.
Import JsString JsText StringFacts.

Lemma includes_Occurs (s sub : string) :
  includes s sub = true <-> Occurs sub s.
Proof.
  split.
  - induction s as [|c s IH]; cbn [includes]; intros H.
    + rewrite orb_false_r in H. apply prefix_inv in H.
      destruct H as [r ->]. now exists EmptyString, r.
    + apply orb_true_iff in H. destruct H as [H | H].
      * apply prefix_inv in H. destruct H as [r ->].
        now exists EmptyString, r.
      * destruct (IH H) as (b & a & ->). now exists (String c b), a.
  - intros (b & a & ->). induction b as [|c b IH].
    + cbn [append]. destruct (sub ++ a)%string eqn:E; cbn [includes];
        rewrite <- E, prefix_app; reflexivity.
    + cbn [append includes]. rewrite IH. apply orb_true_r.
Qed.

Lemma toLowerCase_app (a b : string) :
  toLowerCase (a ++ b) = (toLowerCase a ++ toLowerCase b)%string.
Proof. induction a as [|c a IH]; simpl; [reflexivity | now rewrite IH]. Qed.

(** A text in which the separator does not occur is one piece. *)
Lemma split_aux_whole (sep s cur : string) :
  includes s sep = false ->
  split_aux sep s cur 0 = [(cur ++ s)%string].
Proof.
  revert cur. induction s as [|c s IH]; intros cur H.
  - cbn [split_aux]. now rewrite app_empty_r.
  - cbn [includes] in H. apply orb_false_iff in H. destruct H as [Hp Hs].
    cbn [split_aux]. rewrite Hp. rewrite (IH _ Hs). now rewrite app_assoc.
Qed.

Lemma split_whole (sep s : string) :
  includes s sep = false -> split sep s = [s].
Proof. intros H. unfold split. now rewrite split_aux_whole. Qed.

End TextFacts.

Module TopLevelPaths.
Import JsString JsText StringFacts TextFacts.

(** X14. A path of package-lock.json in which [/node_modules/] does not
    occur, the path of a package installed at the top level, gives an empty
    dependency chain. *)
Theorem top_level_package_has_no_chain (pkgPath : string) :
  JsText.includes pkgPath "/node_modules/" = false ->
  Npm.extractDependencyChain pkgPath = [].
Proof.
  intros H. unfold Npm.extractDependencyChain.
  rewrite (split_whole _ _ H). cbn [filter].
  now destruct (negb (String.eqb pkgPath EmptyString)
                && negb (String.eqb pkgPath "node_modules")).
Qed.

Lemma top_level_package_has_no_chain_witness :
  Npm.extractDependencyChain "node_modules/@babel/core" = [].
Proof.
  apply (top_level_package_has_no_chain "node_modules/@babel/core").
  reflexivity.
Defined.

End TopLevelPaths.

(* ================================================================== *)
(** ** The analysis of install scripts *)
(* ================================================================== *)

Module ScriptFacts.
Import JsText Scripts StringFacts TextFacts.

(** The loop of [analyzeScript] keeps the patterns that occur, in their
    order. *)
Lemma matches_filter (f : string -> bool) (patterns matches : list string) :
  fold_left (fun matches pattern =>
               if f pattern then matches ++ [pattern] else matches)
            patterns matches
  = matches ++ filter f patterns.
Proof.
  revert matches. induction patterns as [|p patterns IH]; intros matches;
    simpl.
  - now rewrite app_nil_r.
  - rewrite IH. destruct (f p); [|reflexivity].
    now rewrite <- List.app_assoc.
Qed.

Lemma analyzeScript_filter (script : string) (patterns : list string) :
  script <> EmptyString ->
  analyzeScript (Some script) patterns
  = filter (fun pattern =>
              includes (toLowerCase script) (toLowerCase pattern))
           patterns.
Proof.
  intros H. destruct script as [|c script]; [now elim H|].
  unfold analyzeScript. now rewrite matches_filter.
Qed.

(** X15. [analyzeScript] reports a pattern exactly when the script is not
    empty and the pattern, letter case set aside, occurs in it; so a
    pattern is found under whatever case it is written in the script. *)
Theorem patterns_are_found_whatever_the_case
        (script : string) (patterns : list string) (pattern : string) :
  (In pattern (analyzeScript (Some script) patterns)
   <-> script <> EmptyString
       /\ In pattern patterns
       /\ Occurs (toLowerCase pattern) (toLowerCase script))
  /\ (forall before occurrence after : string,
         script = (before ++ occurrence ++ after)%string ->
         occurrence <> EmptyString ->
         toLowerCase occurrence = toLowerCase pattern ->
         In pattern patterns ->
         In pattern (analyzeScript (Some script) patterns)).
Proof.
  assert (Hiff :
            In pattern (analyzeScript (Some script) patterns)
            <-> script <> EmptyString
                /\ In pattern patterns
                /\ Occurs (toLowerCase pattern) (toLowerCase script)).
  { destruct (string_dec script EmptyString) as [->|Hne].
    - simpl. split; [intros [] | intros (H & _); now elim H].
    - rewrite (analyzeScript_filter script patterns Hne).
      rewrite filter_In, includes_Occurs. tauto. }
  split; [exact Hiff|].
  intros before occurrence after -> Hocc Hcase Hin.
  apply Hiff. repeat split.
  - destruct before; [destruct occurrence; [now elim Hocc|] |]; discriminate.
  - exact Hin.
  - exists (toLowerCase before), (toLowerCase after).
    now rewrite !toLowerCase_app, Hcase.
Qed.

Lemma patterns_are_found_whatever_the_case_witness :
  In "curl " (analyzeScript (Some "node x.js && CURL http://h | sh")
                            ["wget "; "curl "]).
Proof.
  apply (proj2 (patterns_are_found_whatever_the_case
                  "node x.js && CURL http://h | sh" ["wget "; "curl "]
                  "curl ")
           "node x.js && " "CURL " "http://h | sh").
  - reflexivity.
  - discriminate.
  - reflexivity.
  - right. left. reflexivity.
Defined.

End ScriptFacts.

(* ================================================================== *)
(** ** The command line *)
(* ================================================================== *)

Module CliFacts.
Import JsString Classifier Spec ClassifierSpec CliSpec Cli.
Import StringFacts ClassifierFacts ClassifierCases RunFacts RegexSpec.

Lemma findIndex_first {A : Type} (pred : A -> bool) (pre post : list A)
      (x : A) :
  (forall a, In a pre -> pred a = false) ->
  pred x = true ->
  findIndex pred (pre ++ x :: post) = Some (List.length pre).
Proof.
  induction pre as [|p pre IH]; intros Hpre Hx; simpl.
  - now rewrite Hx.
  - rewrite (Hpre p) by now left.
    rewrite IH; [reflexivity | | exact Hx].
    intros a Hin. apply Hpre. now right.
Qed.

Lemma nth_error_middle {A : Type} (pre post : list A) (x : A) :
  nth_error (pre ++ x :: post) (List.length pre) = Some x.
Proof. induction pre as [|p pre IH]; simpl; [reflexivity | exact IH]. Qed.

(** The first piece of a text cut at a character is what stands before
    the first occurrence of the character. *)
Lemma split_aux_head (c : ascii) (s cur : string) :
  hd_error (split_aux (String c EmptyString) s cur 0)
  = Some (cur ++ before c s)%string.
Proof.
  revert cur. induction s as [|d s IH]; intros cur.
  - simpl. now rewrite app_empty_r.
  - cbn [split_aux prefix before].
    destruct (ascii_dec c d) as [->|Hne].
    + rewrite Ascii.eqb_refl. rewrite LineDecoders.prefix_empty.
      simpl. now rewrite app_empty_r.
    + destruct (Ascii.eqb c d) eqn:E.
      * apply Ascii.eqb_eq in E. now elim Hne.
      * rewrite IH. now rewrite app_assoc.
Qed.

Lemma before_all (c : ascii) (s : string) :
  count c s = 0 -> before c s = s.
Proof.
  induction s as [|d s IH]; simpl; [reflexivity|].
  destruct (Ascii.eqb c d); [discriminate|].
  intros H. now rewrite IH.
Qed.

(** The value given with an equals sign. *)
Lemma getArgValue_equals (pre post : list string) (name value : string) :
  noEqualsForm name pre ->
  count "=" name = 0 ->
  getArgValue (pre ++ ("--" ++ name ++ "=" ++ value)%string :: post) name
  = Some (before "=" value).
Proof.
  intros Hpre Hname. unfold getArgValue.
  rewrite (findIndex_first _ pre post).
  - rewrite nth_error_middle.
    change ("--" ++ name ++ "=" ++ value)%string
      with (("--" ++ name) ++ String "=" value)%string.
    unfold split.
    rewrite (split_aux_char_found "=" ("--" ++ name) value EmptyString).
    + cbn [nth_error append].
      pose proof (split_aux_head "=" value EmptyString) as H.
      destruct (split_aux "=" value EmptyString 0); [discriminate H|].
      exact H.
    + exact Hname.
  - exact Hpre.
  - unfold startsWith.
    change ("--" ++ name ++ "=" ++ value)%string
      with ("--" ++ (name ++ "=" ++ value))%string.
    rewrite <- (app_assoc name "=" value).
    rewrite <- (app_assoc "--" (name ++ "=") value).
    apply prefix_app.
Qed.

(** A list joined with commas and cut at the commas again. *)
Lemma split_concat (names : list string) :
  names <> [] ->
  Forall (fun name => count "," name = 0) names ->
  split "," (String.concat "," names) = names.
Proof.
  induction names as [|n names IH]; intros Hne Hall; [now elim Hne|].
  inversion Hall as [|? ? Hn Hrest]; subst.
  destruct names as [|m names].
  - simpl. now apply split_char_whole.
  - change (String.concat "," (n :: m :: names))
      with (n ++ String "," (String.concat "," (m :: names)))%string.
    unfold split. rewrite split_aux_char_found by exact Hn.
    cbn [append]. f_equal. apply IH; [discriminate | exact Hrest].
Qed.

Lemma count_concat (c : ascii) (names : list string) :
  Forall (fun name => count c name = 0) names ->
  count c "," = 0 ->
  count c (String.concat "," names) = 0.
Proof.
  intros Hall Hsep. induction Hall as [|n names Hn Hrest IH];
    [reflexivity|].
  destruct names as [|m names]; [exact Hn|].
  change (String.concat "," (n :: m :: names))
    with (n ++ "," ++ String.concat "," (m :: names))%string.
  rewrite !count_app, Hn, Hsep, IH. reflexivity.
Qed.

Lemma options_ignore (args : list string) :
  value (options args) "ignore" = getArgValue args "ignore".
Proof. reflexivity. Qed.

Lemma options_deep (args : list string) :
  flag (options args) "deep" = includes args "--deep".
Proof. reflexivity. Qed.

(** The ignore list of a command line that gives the names with an equals
    sign. *)
Lemma ignoreList_equals (pre post names : list string) :
  noEqualsForm "ignore" pre ->
  Forall listable names ->
  ignoreList (options (pre ++ ("--ignore=" ++ String.concat "," names)%string
                           :: post))
  = names.
Proof.
  intros Hpre Hall. unfold ignoreList. rewrite options_ignore.
  change ("--ignore=" ++ String.concat "," names)%string
    with ("--" ++ "ignore" ++ "=" ++ String.concat "," names)%string.
  rewrite (getArgValue_equals pre post "ignore" (String.concat "," names)
             Hpre eq_refl).
  assert (Hcomma : Forall (fun name => count "," name = 0) names).
  { eapply Forall_impl; [|exact Hall]. now intros n (_ & H & _). }
  assert (Hequals : Forall (fun name => count "=" name = 0) names).
  { eapply Forall_impl; [|exact Hall]. now intros n (_ & _ & H & _). }
  rewrite before_all by (now apply count_concat).
  destruct names as [|n names]; [reflexivity|].
  assert (Hne : String.concat "," (n :: names) <> EmptyString).
  { inversion Hall as [|? ? (Hn & _) _]; subst.
    destruct names as [|m names]; [exact Hn|].
    change (String.concat "," (n :: m :: names))
      with (n ++ "," ++ String.concat "," (m :: names))%string.
    destruct n; [now elim Hn | discriminate]. }
  destruct (String.concat "," (n :: names)) eqn:E; [now elim Hne|].
  rewrite <- E. rewrite split_concat; [| discriminate | exact Hcomma].
  rewrite <- (map_id (n :: names)) at 2. apply map_ext_in.
  intros x Hin. rewrite Forall_forall in Hall.
  now destruct (Hall x Hin) as (_ & _ & _ & H).
Qed.

End CliFacts.

Module CliProperties.
Import JsString Classifier Spec ClassifierSpec CliSpec Cli.
Import StringFacts ClassifierFacts ClassifierCases RegexSpec CliFacts.
Import Scenario ClassifierScenario.

(** X16. A value given as [--name=value] is the one [getArgValue]
    returns, also when an earlier argument gives one with a space, and it
    is cut at its first equals sign. *)
Theorem value_after_equals_is_cut_at_equals
        (pre post : list string) (name value : string) :
  noEqualsForm name pre ->
  count "=" name = 0 ->
  getArgValue (pre ++ ("--" ++ name ++ "=" ++ value)%string :: post) name
  = Some (before "=" value).
Proof. apply getArgValue_equals. Qed.

Lemma value_after_equals_is_cut_at_equals_witness :
  getArgValue CliScenario.ignoreTwice "ignore" = Some "a".
Proof.
  apply (value_after_equals_is_cut_at_equals ["--ignore"; "x"] []
           "ignore" "a=b").
  - intros a [<- | [<- | []]]; reflexivity.
  - reflexivity.
Defined.

(** X17. The names given on the command line as [--ignore=a,b,...] are
    the ignore list of the scan, and the classifier returns Ignored for
    each of them, whatever the threat database says. *)
Theorem ignore_option_reaches_the_classifier
        (V W : Type) (text : V -> option string)
        (pre post names : list string) (name : string) (version : V)
        (db : ThreatDatabase.t) (depInfo : option (DepInfo.t W))
        (config : Config.t) :
  noEqualsForm "ignore" pre ->
  Forall listable names ->
  In name names ->
  let args :=
    pre ++ ("--ignore=" ++ String.concat "," names)%string :: post in
  ignoreList (options args) = names
  /\ checkPackage text (ignoreList (options args)) name version db depInfo
                  config
     = Js.Normal Ignored.
Proof.
  intros Hpre Hall Hin args. subst args.
  rewrite (ignoreList_equals pre post names Hpre Hall).
  split; [reflexivity|]. unfold checkPackage.
  rewrite (isIgnored_matches names name config name); [reflexivity | |].
  - unfold ignorePatterns. apply in_or_app. now left.
  - constructor.
Qed.

Lemma ignore_option_reaches_the_classifier_witness :
  let args := ["--json"; "--ignore=left-pad,@scope/anything"] in
  ignoreList (options args) = ["left-pad"; "@scope/anything"]
  /\ checkPackage Some (ignoreList (options args)) "@scope/anything" "1.0.0"
                  everywhere noMetadata Config.empty = Js.Normal Ignored.
Proof.
  apply (ignore_option_reaches_the_classifier string string Some ["--json"]
           [] ["left-pad"; "@scope/anything"] "@scope/anything" "1.0.0"
           everywhere noMetadata Config.empty).
  - intros a [<- | []]. reflexivity.
  - repeat constructor; discriminate.
  - right. left. reflexivity.
Defined.

(** X18. The deep scan is switched on by [--deep] and by [scanDeep] of
    the configuration file only.  The short flag [-d] is not read: the
    property [deep] of [options] is defined a second time without it.  A
    command line without [--deep] gives a scan of the direct dependencies,
    whatever lock file the project has. *)
Theorem short_deep_flag_is_not_read
        (number : Type) (nonZero : number -> bool)
        (JSON_parse : string -> option (Json.t number))
        (arrayPrototype : string -> bool)
        (args : list string) (config : RunConfig.t)
        (directDependencies : Obj.t (Json.t number))
        (lockedVersions : Scan.Versions)
        (files : Scan.LockFiles) :
  includes args "--deep" = false ->
  RunConfig.scanDeep config = false ->
  MergedOptions.deep (MergedOptions.merge (options args) config) = false
  /\ Scan.collectDependencies nonZero JSON_parse arrayPrototype
       (MergedOptions.deep (MergedOptions.merge (options args) config))
       directDependencies lockedVersions files
     = (Scan.directOnly nonZero arrayPrototype lockedVersions
                        directDependencies,
        Scan.mkScanStats (List.length (Obj.keys directDependencies))
                         (List.length (Obj.keys directDependencies))
                         0 None 0 0).
Proof.
  intros Hargs Hconfig.
  assert (E : MergedOptions.deep (MergedOptions.merge (options args) config)
              = false).
  { unfold MergedOptions.merge. cbn [MergedOptions.deep].
    now rewrite options_deep, Hargs, Hconfig. }
  split; [exact E|]. rewrite E. reflexivity.
Qed.

Lemma short_deep_flag_is_not_read_witness :
  includes CliScenario.shortDeep "-d" = true
  /\ Scan.lockFileType
       (snd (Scan.collectDependencies LockScenario.nonZero
               LockScenario.parseScenario ScanScenario.noArrayName
               (MergedOptions.deep
                  (MergedOptions.merge (options CliScenario.shortDeep)
                                       RunConfig.empty))
               ScanScenario.manifest Scan.noVersions
               CountScenario.pnpmProject))
     = None.
Proof.
  split; [reflexivity|].
  exact (f_equal (fun collected => Scan.lockFileType (snd collected))
           (proj2 (short_deep_flag_is_not_read nat LockScenario.nonZero
                     LockScenario.parseScenario ScanScenario.noArrayName
                     CliScenario.shortDeep
                     RunConfig.empty ScanScenario.manifest Scan.noVersions
                     CountScenario.pnpmProject eq_refl eq_refl))).
Defined.

End CliProperties.

(* ================================================================== *)
(** ** The loop over the packages *)
(* ================================================================== *)

Module ClassificationLoop.
Import JsString Classifier ClassifierSpec Proc Report RunSpec.
Import StringFacts ClassifierCases.

Lemma bind_returned {W A B : Type} (c : @Proc.M W A) (k : A -> @Proc.M W B)
      (w w' : W) (a : A) :
  c w = (w', Returned a) -> Proc.bind c k w = k a w'.
Proof. intros H. unfold Proc.bind. now rewrite H. Qed.

Lemma bind_thrown {W A B : Type} (c : @Proc.M W A) (k : A -> @Proc.M W B)
      (w w' : W) (e : Js.error) :
  c w = (w', Thrown e) -> Proc.bind c k w = (w', Thrown e).
Proof. intros H. unfold Proc.bind. now rewrite H. Qed.

Lemma isLevel_cases (severity : string) :
  isLevel severity = true ->
  severity = "critical" \/ severity = "high"
  \/ severity = "medium" \/ severity = "low".
Proof.
  unfold isLevel. rewrite includes_In. simpl. intuition.
Qed.

Section Issues.
Context {V : Type}.

Lemma atLevel_cons (level : string) (issue : Issue.t V)
      (issues : list (Issue.t V)) :
  atLevel level (issue :: issues)
  = atLevel level [issue] ++ atLevel level issues.
Proof.
  unfold atLevel. cbn [filter].
  now destruct (String.eqb (Issue.severity issue) level).
Qed.

Lemma followedBy_sorted_cons (results : Scan.Results V) (issue : Issue.t V)
      (issues : list (Issue.t V)) :
  followedBy (followedBy results (sorted [issue])) (sorted issues)
  = followedBy results (sorted (issue :: issues)).
Proof.
  unfold followedBy, sorted. cbn [Scan.critical Scan.high Scan.medium Scan.low].
  rewrite (atLevel_cons "critical" issue issues),
          (atLevel_cons "high" issue issues),
          (atLevel_cons "medium" issue issues),
          (atLevel_cons "low" issue issues).
  now rewrite <- !List.app_assoc.
Qed.

Lemma followedBy_nothing (results : Scan.Results V) :
  followedBy results (sorted []) = results.
Proof.
  destruct results. unfold followedBy, sorted. simpl.
  now rewrite !app_nil_r.
Qed.

(** An issue with one of the four levels goes to the end of the list of
    its level. *)
Lemma push_level (results : Scan.Results V) (issue : Issue.t V) :
  isLevel (Issue.severity issue) = true ->
  push results issue = Some (followedBy results (sorted [issue])).
Proof.
  intros H. apply isLevel_cases in H.
  unfold push, followedBy, sorted, atLevel. cbn [filter].
  cbn [Scan.critical Scan.high Scan.medium Scan.low].
  destruct H as [-> | [-> | [-> | ->]]]; simpl; now rewrite !app_nil_r.
Qed.

Lemma push_other (results : Scan.Results V) (issue : Issue.t V) :
  isLevel (Issue.severity issue) = false ->
  push results issue = None.
Proof.
  unfold isLevel, levels, includes, push. cbn [existsb].
  intros H. rewrite !orb_false_iff in H.
  destruct H as (H1 & H2 & H3 & H4 & _).
  now rewrite H1, H2, H3, H4.
Qed.

End Issues.

Lemma counted_nothing (s : Scan.ScanStats) : counted 0 0 s = s.
Proof. now destruct s. Qed.

Lemma counted_ignored (i t : nat) (s : Scan.ScanStats) :
  counted i t (countIgnored s) = counted (S i) t s.
Proof.
  unfold counted, countIgnored. simpl. f_equal. lia.
Qed.

Lemma counted_trusted (i t : nat) (s : Scan.ScanStats) :
  counted i t (countTrusted s) = counted i (S t) s.
Proof.
  unfold counted, countTrusted. simpl. f_equal. lia.
Qed.

Section Loop.
Context {V : Type}.
Variable text : V -> option string.
Variable printable : V -> bool.
Variable options : Obj.t Cli.optionValue.
Variable db : ThreatDatabase.t.
Variable config : Config.t.

Let World := @Report.World V.
Let verdict := RunSpec.verdict text options db config.
Let classified := RunSpec.classified text printable options db config.
Let issuesOf := RunSpec.issuesOf text options db config.
Let verdicts := RunSpec.verdicts text options db config.
Let classify := Report.classify text printable options db config.
Let classifyAll := Report.classifyAll text printable options db config.

(** One iteration of the loop, when it returns. *)
Lemma classify_returns (entry : string * DepInfo.t V)
      (scanStats : Scan.ScanStats) (results : Scan.Results V) (w : World) :
  classified entry = true ->
  classify (scanStats, results) entry w
  = (w, Returned
          (counted (verdicts isIgnoredVerdict [entry])
                   (verdicts isTrustedVerdict [entry]) scanStats,
           followedBy results (sorted (issuesOf [entry])))).
Proof.
  subst verdict classified issuesOf verdicts classify classifyAll.
  destruct entry as [name node].
  unfold RunSpec.classified, RunSpec.verdicts, RunSpec.issuesOf,
    Report.classify, RunSpec.verdict, RunSpec.loud.
  cbn [fst snd flat_map filter].
  destruct (checkPackage text (Cli.ignoreList options) name
                         (DepInfo.version node) db (Some node) config)
    as [[| | issue |]|e]; cbn [lift]; intros H.
  - erewrite bind_returned by reflexivity.
    cbn [isIgnoredVerdict isTrustedVerdict List.length app].
    now rewrite followedBy_nothing.
  - erewrite bind_returned by reflexivity.
    cbn [isIgnoredVerdict isTrustedVerdict List.length app].
    now rewrite followedBy_nothing.
  - erewrite bind_returned by reflexivity.
    apply andb_true_iff in H. destruct H as [Hprint Hlevel].
    cbn [isIgnoredVerdict isTrustedVerdict List.length app].
    rewrite counted_nothing, (push_level results issue Hlevel).
    unfold when, interpolate.
    destruct (Cli.flag options "verbose" && negb (Cli.flag options "json"));
      cbn [negb orb] in Hprint.
    + rewrite Hprint. now erewrite bind_returned by reflexivity.
    + now erewrite bind_returned by reflexivity.
  - erewrite bind_returned by reflexivity.
    cbn [isIgnoredVerdict isTrustedVerdict List.length app].
    now rewrite counted_nothing, followedBy_nothing.
  - discriminate H.
Qed.

(** One iteration of the loop, when it throws. *)
Lemma classify_throws (entry : string * DepInfo.t V)
      (state : Scan.ScanStats * Scan.Results V) (w : World) :
  classified entry = false ->
  classify state entry w = (w, Thrown Js.TypeError).
Proof.
  subst verdict classified issuesOf verdicts classify classifyAll.
  destruct entry as [name node]. destruct state as [scanStats results].
  unfold RunSpec.classified, Report.classify, RunSpec.verdict, RunSpec.loud.
  cbn [fst snd].
  generalize (checkPackage_throws_TypeError text _ (Cli.ignoreList options)
                name (DepInfo.version node) db (Some node) config).
  destruct (checkPackage text (Cli.ignoreList options) name
                         (DepInfo.version node) db (Some node) config)
    as [[| | issue |]|e]; cbn [lift]; intros He H; try discriminate H.
  - erewrite bind_returned by reflexivity.
    unfold when, interpolate.
    destruct (Cli.flag options "verbose" && negb (Cli.flag options "json"));
      cbn [negb orb andb] in H.
    + destruct (printable (DepInfo.version node)); cbn [andb] in H.
      * erewrite bind_returned by reflexivity.
        now rewrite (push_other results issue H).
      * now erewrite bind_thrown by reflexivity.
    + erewrite bind_returned by reflexivity.
      now rewrite (push_other results issue H).
  - rewrite (He e eq_refl). now erewrite bind_thrown by reflexivity.
Qed.

Lemma counted_counted (i t i' t' : nat) (s : Scan.ScanStats) :
  counted i t (counted i' t' s) = counted (i + i') (t + t') s.
Proof. unfold counted. simpl. f_equal; lia. Qed.

Lemma followedBy_assoc (a b c : Scan.Results V) :
  followedBy (followedBy a b) c = followedBy a (followedBy b c).
Proof.
  unfold followedBy. cbn [Scan.critical Scan.high Scan.medium Scan.low].
  now rewrite <- !List.app_assoc.
Qed.

Lemma sorted_app (issues more : list (Issue.t V)) :
  followedBy (sorted issues) (sorted more) = sorted (issues ++ more).
Proof.
  unfold followedBy, sorted, atLevel.
  cbn [Scan.critical Scan.high Scan.medium Scan.low].
  now rewrite !filter_app.
Qed.

(** The loop, when every iteration returns: the world is left alone, the
    ignored and the trusted packages are counted, and the issues are
    sorted by level in the order of the graph. *)
Lemma classifyAll_sorted (allDependencies : JsMap.t (DepInfo.t V)) :
  forall (scanStats : Scan.ScanStats) (results : Scan.Results V) (w : World),
    forallb classified allDependencies = true ->
    classifyAll allDependencies (scanStats, results) w
    = (w, Returned
            (counted (verdicts isIgnoredVerdict allDependencies)
                     (verdicts isTrustedVerdict allDependencies) scanStats,
             followedBy results (sorted (issuesOf allDependencies)))).
Proof.
  induction allDependencies as [|entry rest IH];
    intros scanStats results w Hall.
  - subst verdict classified issuesOf verdicts classify classifyAll.
    cbn. now rewrite counted_nothing, followedBy_nothing.
  - cbn [forallb] in Hall. apply andb_true_iff in Hall.
    destruct Hall as [Hentry Hrest].
    pose proof (classify_returns entry scanStats results w Hentry) as Hstep.
    subst verdict classified issuesOf verdicts classify classifyAll.
    cbn [Report.classifyAll].
    erewrite bind_returned by exact Hstep.
    rewrite (IH _ _ _ Hrest).
    rewrite counted_counted, followedBy_assoc, sorted_app.
    unfold RunSpec.verdicts, RunSpec.issuesOf.
    cbn [filter flat_map].
    repeat match goal with
           | |- context [if ?c then _ else _] => destruct c
           end;
      cbn [List.length app]; rewrite ?app_nil_r, ?Nat.add_0_r;
      repeat f_equal; try lia; reflexivity.
Qed.

(** The loop, when an iteration throws. *)
Lemma classifyAll_throws (allDependencies : JsMap.t (DepInfo.t V)) :
  forall (state : Scan.ScanStats * Scan.Results V) (w : World),
    forallb classified allDependencies = false ->
    classifyAll allDependencies state w = (w, Thrown Js.TypeError).
Proof.
  induction allDependencies as [|entry rest IH];
    intros state w Hall; [discriminate Hall|].
  cbn [forallb] in Hall. destruct state as [scanStats results].
  destruct (classified entry) eqn:Hentry.
  - pose proof (classify_returns entry scanStats results w Hentry) as Hstep.
    subst verdict classified issuesOf verdicts classify classifyAll.
    cbn [Report.classifyAll].
    erewrite bind_returned by exact Hstep. now apply IH.
  - pose proof (classify_throws entry (scanStats, results) w Hentry)
      as Hstep.
    subst verdict classified issuesOf verdicts classify classifyAll.
    cbn [Report.classifyAll].
    now erewrite bind_thrown by exact Hstep.
Qed.

(** Every node whose iteration returns has one verdict. *)
Lemma verdicts_total (allDependencies : JsMap.t (DepInfo.t V)) :
  forallb classified allDependencies = true ->
  verdicts isIgnoredVerdict allDependencies
  + verdicts isTrustedVerdict allDependencies
  + verdicts isCleanVerdict allDependencies
  + List.length (issuesOf allDependencies)
  = JsMap.size allDependencies.
Proof.
  subst verdict classified issuesOf verdicts classify classifyAll.
  unfold RunSpec.verdicts, RunSpec.issuesOf, JsMap.size.
  induction allDependencies as [|entry rest IH]; [reflexivity|].
  cbn [filter flat_map List.length forallb]. intros H.
  apply andb_true_iff in H. destruct H as [Hentry Hrest].
  specialize (IH Hrest). unfold RunSpec.classified in Hentry.
  destruct (RunSpec.verdict text options db config entry) as [[| | |]|];
    try discriminate Hentry;
    cbn [isIgnoredVerdict isTrustedVerdict isCleanVerdict app List.length];
    lia.
Qed.

(** Every issue of a graph whose iterations return has a level. *)
Lemma classified_levels (allDependencies : JsMap.t (DepInfo.t V)) :
  forallb classified allDependencies = true ->
  allLevels (issuesOf allDependencies) = true.
Proof.
  subst verdict classified issuesOf verdicts classify classifyAll.
  unfold RunSpec.issuesOf, allLevels.
  induction allDependencies as [|entry rest IH]; [reflexivity|].
  cbn [flat_map forallb]. intros H.
  apply andb_true_iff in H. destruct H as [Hentry Hrest].
  specialize (IH Hrest). unfold RunSpec.classified in Hentry.
  destruct (RunSpec.verdict text options db config entry) as [[| |issue|]|];
    try discriminate Hentry; cbn [app forallb]; try exact IH.
  apply andb_true_iff in Hentry. destruct Hentry as [_ Hlevel].
  now rewrite Hlevel.
Qed.

(** The iteration for a node returns when the campaigns declare levels,
    the version of the node is a string, the classifier reads nothing
    inherited under its name, and the run is not loud or the version
    converts to a string. *)
Lemma classified_when (entry : string * DepInfo.t V) (given : string) :
  declaresLevels db ->
  text (DepInfo.version (snd entry)) = Some given ->
  readsOwnEntries db entry ->
  RunSpec.loud options = false
  \/ printable (DepInfo.version (snd entry)) = true ->
  classified entry = true.
Proof.
  subst verdict classified issuesOf verdicts classify classifyAll.
  intros Hdb Htext Hown Hquiet. unfold RunSpec.classified, RunSpec.verdict.
  destruct (checkPackage_returns text _ (Cli.ignoreList options) (fst entry)
              (DepInfo.version (snd entry)) given db (Some (snd entry))
              config Htext Hown) as [result E].
  rewrite E. destruct result as [| | issue |]; try reflexivity.
  apply andb_true_iff. split.
  - destruct Hquiet as [-> | ->]; [reflexivity | apply orb_true_r].
  - exact (found_has_level text _ _ _ _ _ _ _ issue Hdb E).
Qed.

End Loop.

End ClassificationLoop.
(* ================================================================== *)
(** ** Reports and exit code *)
(* ================================================================== *)

Module ExitFacts.
Import JsString Classifier ClassifierSpec Proc Report RunSpec.
Import StringFacts ClassifierCases ClassificationLoop.

Lemma some_filtered {A : Type} (f : A -> bool) (l : list A) :
  Nat.ltb 0 (List.length (filter f l)) = existsb f l.
Proof.
  induction l as [|x l IH]; simpl; [reflexivity|].
  destruct (f x); [reflexivity | exact IH].
Qed.

Lemma existsb_or {A : Type} (f g : A -> bool) (l : list A) :
  existsb (fun x => f x || g x) l = existsb f l || existsb g l.
Proof.
  induction l as [|x l IH]; simpl; [reflexivity|].
  rewrite IH. destruct (f x), (g x), (existsb f l), (existsb g l);
    reflexivity.
Qed.

Lemma existsb_and {A : Type} (f : A -> bool) (c : bool) (l : list A) :
  existsb (fun x => f x && c) l = existsb f l && c.
Proof.
  induction l as [|x l IH]; simpl; [reflexivity|].
  rewrite IH. destruct (f x), c, (existsb f l); reflexivity.
Qed.

Lemma forallb_filter_and {A : Type} (f g : A -> bool) (l : list A) :
  forallb f (filter g l) = forallb (fun x => negb (g x) || f x) l.
Proof.
  induction l as [|x l IH]; simpl; [reflexivity|].
  destruct (g x); simpl; now rewrite IH.
Qed.

Section Issues.
Context {V : Type}.

(** With every level accounted for, the number of sorted issues is the
    number of issues. *)
Lemma totalIssues_sorted (issues : list (Issue.t V)) :
  allLevels issues = true ->
  totalIssues (sorted issues) = List.length issues.
Proof.
  unfold totalIssues, sorted, atLevel, allLevels.
  cbn [Scan.critical Scan.high Scan.medium Scan.low].
  induction issues as [|issue issues IH]; [reflexivity|].
  cbn [forallb filter]. intros H. apply andb_true_iff in H.
  destruct H as [Hissue Hrest]. specialize (IH Hrest).
  apply isLevel_cases in Hissue.
  destruct Hissue as [-> | [-> | [-> | ->]]]; cbn; cbn in IH; lia.
Qed.

(** A property of all the issues is one of the sorted issues, when every
    level is accounted for. *)
Lemma forallb_sorted (f : Issue.t V -> bool) (issues : list (Issue.t V)) :
  allLevels issues = true ->
  forallb f (Scan.allIssues (sorted issues)) = forallb f issues.
Proof.
  unfold Scan.allIssues, sorted, atLevel, allLevels.
  cbn [Scan.critical Scan.high Scan.medium Scan.low].
  rewrite !forallb_app, !forallb_filter_and.
  induction issues as [|issue issues IH]; [reflexivity|].
  cbn [forallb]. intros H. apply andb_true_iff in H.
  destruct H as [Hissue Hrest]. specialize (IH Hrest).
  rewrite <- IH. apply isLevel_cases in Hissue.
  destruct Hissue as [-> | [-> | [-> | ->]]]; cbn [String.eqb Ascii.eqb Bool.eqb negb orb];
    destruct (f issue); cbn [negb orb andb];
    repeat match goal with
           | |- context [forallb ?g issues] => destruct (forallb g issues)
           end; reflexivity.
Qed.

Lemma sorted_nothing (issues : list (Issue.t V)) :
  allLevels issues = true ->
  Scan.critical (sorted issues) ++ Scan.high (sorted issues) = [] ->
  Scan.allIssues (sorted issues) = [] ->
  issues = [].
Proof.
  intros Hall _ H. apply (f_equal (@List.length _)) in H.
  unfold Scan.allIssues in H. rewrite !List.length_app in H.
  pose proof (totalIssues_sorted issues Hall) as Ht.
  unfold totalIssues in Ht. cbn [List.length] in H.
  destruct issues; [reflexivity | cbn [List.length] in Ht; lia].
Qed.

End Issues.

Section Run.
Context {V : Type}.
Variable text : V -> option string.
Variable printable : V -> bool.
Variable writeFails : string -> bool.
Variable commandFails : string -> bool.
Variable defaultReportPath : string.
Variable options : Obj.t Cli.optionValue.
Variable db : ThreatDatabase.t.
Variable patterns : list string.
Variable config : Config.t.
Variable runConfig : RunConfig.t.

Let World := @Report.World V.

(** The exit code for issues sorted by level. *)
Lemma determineExitCode_sorted (issues : list (Issue.t V)) (w : World) :
  determineExitCode options runConfig (sorted issues) w
  = (w, Exited
          (if existsb (fun issue =>
                         failsOn (failLevels runConfig)
                                 (Cli.flag options "strict")
                                 (Issue.severity issue))
                      issues
           then 1 else 0)).
Proof.
  unfold determineExitCode, sorted, atLevel, failsOn.
  cbn [Scan.critical Scan.high Scan.medium Scan.low].
  fold (failLevels runConfig).
  rewrite !some_filtered, !existsb_or, !existsb_and.
  destruct (includes (failLevels runConfig) "critical"),
           (includes (failLevels runConfig) "high"),
           (includes (failLevels runConfig) "medium"),
           (includes (failLevels runConfig) "low"),
           (Cli.flag options "strict"),
           (existsb (fun i => String.eqb (Issue.severity i) "critical") issues),
           (existsb (fun i => String.eqb (Issue.severity i) "high") issues),
           (existsb (fun i => String.eqb (Issue.severity i) "medium") issues),
           (existsb (fun i => String.eqb (Issue.severity i) "low") issues);
    reflexivity.
Qed.

(** [fixPackages] always returns; it hands one command to [execSync], the
    removal of the packages of the issues, when there are issues and
    [--yes] is given, and none otherwise. *)
Lemma fixPackages_returns (files : Scan.LockFiles)
      (issues : list (Issue.t V)) (w : World) :
  exists w',
    fixPackages commandFails options files issues w = (w', Returned tt)
    /\ printed w' = printed w
    /\ written w' = written w
    /\ executed w'
       = executed w
         ++ (if Cli.flag options "yes" && Nat.ltb 0 (List.length issues)
             then [removeCommand (packageManager files)
                                 (map Issue.package issues)]
             else []).
Proof.
  unfold fixPackages.
  destruct issues as [|issue issues].
  - exists w. cbn. rewrite andb_false_r, app_nil_r. auto.
  - cbn [List.length Nat.eqb Nat.ltb Nat.leb].
    destruct (Cli.flag options "yes") eqn:Hyes; cbn [negb andb].
    + unfold tryCatch, execSync.
      destruct (commandFails _); eexists; (split; [reflexivity|]);
        cbn [printed written executed]; auto.
    + exists w. cbn. rewrite app_nil_r. auto.
Qed.

Lemma fix_returns (files : Scan.LockFiles) (issues : list (Issue.t V))
      (w : World) :
  exists w',
    when (Cli.flag options "fix")
         (fixPackages commandFails options files issues) w
    = (w', Returned tt)
    /\ printed w' = printed w
    /\ executed w'
       = executed w
         ++ (if Cli.flag options "fix" && Cli.flag options "yes"
                && Nat.ltb 0 (List.length issues)
             then [removeCommand (packageManager files)
                                 (map Issue.package issues)]
             else []).
Proof.
  unfold when. destruct (Cli.flag options "fix"); cbn [andb].
  - destruct (fixPackages_returns files issues w) as (w' & E & Hp & _ & He).
    exists w'. auto.
  - exists w. rewrite app_nil_r. auto.
Qed.

(** Writing the versions of issues into a text returns when each of them
    converts to a string, and throws otherwise; the world is left
    alone. *)
Lemma interpolations (issues : list (Issue.t V)) (w : World) :
  forEach issues (fun issue => interpolate printable (Issue.version issue)) w
  = (w, if forallb (fun issue => printable (Issue.version issue)) issues
        then Returned tt else Thrown Js.TypeError).
Proof.
  induction issues as [|issue issues IH]; [reflexivity|].
  cbn [forEach forallb]. unfold interpolate at 1.
  destruct (printable (Issue.version issue)); cbn [andb].
  - erewrite bind_returned by reflexivity. exact IH.
  - now erewrite bind_thrown by reflexivity.
Qed.

(** Formatting an issue throws or returns, and leaves the world alone. *)
Lemma format (issue : Issue.t V) (w : World) :
  formatIssue printable issue w = (w, Returned tt)
  \/ formatIssue printable issue w = (w, Thrown Js.TypeError).
Proof.
  unfold formatIssue, interpolate, Proc.bind, ret, throw.
  destruct (printable (Issue.version issue)); [|now right].
  destruct (Issue.affectedVersions issue) as [[versions|b]|];
    [now left | | now left].
  destruct (Issue.safeVersion issue); [now left | now right].
Qed.

Lemma formats (issues : list (Issue.t V)) (w : World) :
  forEach issues (formatIssue printable) w = (w, Returned tt)
  \/ forEach issues (formatIssue printable) w = (w, Thrown Js.TypeError).
Proof.
  induction issues as [|issue issues IH]; [now left|].
  cbn [forEach].
  destruct (format issue w) as [E | E].
  - erewrite !bind_returned by exact E. exact IH.
  - right. now erewrite bind_thrown by exact E.
Qed.

(** Printing issues for a reader throws. *)
Lemma printResults_throws (results : Scan.Results V) (w : World) :
  totalIssues results <> 0 ->
  exists e, printResults printable results w = (w, Thrown e).
Proof.
  intros H. unfold printResults.
  apply Nat.eqb_neq in H. rewrite H.
  destruct (formats (Scan.allIssues results) w) as [E | E].
  - erewrite bind_returned by exact E. now eexists.
  - erewrite bind_thrown by exact E. now eexists.
Qed.

(** The report, when it can be produced. *)
Lemma report_returns (results : Scan.Results V) (w : World) :
  reportWritable printable writeFails defaultReportPath options
                 (Scan.allIssues results) = true ->
  exists w',
    when (Cli.flag options "report")
         (generateHtmlReport printable writeFails defaultReportPath options
                             results) w
    = (w', Returned tt)
    /\ printed w' = printed w
    /\ executed w' = executed w.
Proof.
  unfold reportWritable, when, generateHtmlReport, writeFileSync.
  destruct (Cli.flag options "report"); cbn [orb negb].
  - intros H. apply andb_true_iff in H. destruct H as [Hprint Hwrite].
    apply negb_true_iff in Hwrite.
    erewrite bind_returned by (rewrite interpolations, Hprint; reflexivity).
    rewrite Hwrite. eexists. split; [reflexivity|]. now split.
  - intros _. exists w. now split.
Qed.

(** The report, when it cannot be produced. *)
Lemma report_throws (results : Scan.Results V) (w : World) :
  reportWritable printable writeFails defaultReportPath options
                 (Scan.allIssues results) = false ->
  exists e,
    when (Cli.flag options "report")
         (generateHtmlReport printable writeFails defaultReportPath options
                             results) w
    = (w, Thrown e).
Proof.
  unfold reportWritable, when, generateHtmlReport, writeFileSync.
  destruct (Cli.flag options "report"); cbn [orb negb]; [|discriminate].
  intros H.
  destruct (forallb (fun issue => printable (Issue.version issue))
                    (Scan.allIssues results)) eqn:Hprint; cbn [andb] in H.
  - apply negb_false_iff in H.
    erewrite bind_returned by (rewrite interpolations, Hprint; reflexivity).
    rewrite H. now eexists.
  - erewrite bind_thrown by (rewrite interpolations, Hprint; reflexivity).
    now eexists.
Qed.

Let classified := RunSpec.classified text printable options db config.
Let issuesOf := RunSpec.issuesOf text options db config.
Let verdicts := RunSpec.verdicts text options db config.
Let scanPackages :=
  Report.scanPackages text printable writeFails commandFails
                      defaultReportPath options db patterns config runConfig.

(** After the loop, when every iteration returns. *)
Lemma scanPackages_sorted (files : Scan.LockFiles)
      (nodeModulesPackages : Obj.t (Obj.t string))
      (allDependencies : JsMap.t (DepInfo.t V))
      (scanStats : Scan.ScanStats) (w : World) :
  forallb classified allDependencies = true ->
  scanPackages files nodeModulesPackages allDependencies scanStats w
  = (let results := sorted (issuesOf allDependencies) in
     perform _ <-
       (if Cli.flag options "json"
        then printJsonResults results
               (counted (verdicts isIgnoredVerdict allDependencies)
                        (verdicts isTrustedVerdict allDependencies)
                        scanStats)
               (if MergedOptions.analyzeScripts
                     (MergedOptions.merge options runConfig)
                then suspiciousScriptsOf patterns nodeModulesPackages
                else [])
        else printResults printable results) in
     perform _ <- when (Cli.flag options "report")
                       (generateHtmlReport printable writeFails
                                           defaultReportPath options
                                           results) in
     perform _ <- when (Cli.flag options "fix")
                       (fixPackages commandFails options files
                          (Scan.critical results ++ Scan.high results)) in
     determineExitCode options runConfig results) w.
Proof.
  intros Hall. subst scanPackages. unfold Report.scanPackages.
  erewrite bind_returned
    by (apply (classifyAll_sorted text printable options db config);
        exact Hall).
  reflexivity.
Qed.

(** After the loop, when an iteration throws. *)
Lemma scanPackages_throws (files : Scan.LockFiles)
      (nodeModulesPackages : Obj.t (Obj.t string))
      (allDependencies : JsMap.t (DepInfo.t V))
      (scanStats : Scan.ScanStats) (w : World) :
  forallb classified allDependencies = false ->
  scanPackages files nodeModulesPackages allDependencies scanStats w
  = (w, Thrown Js.TypeError).
Proof.
  intros Hall. subst scanPackages. unfold Report.scanPackages.
  now erewrite bind_thrown
    by (apply (classifyAll_throws text printable options db config);
        exact Hall).
Qed.

(** The part of the run after the loop, in JSON mode: the document is
    printed; then the report is produced, the packages are removed and the
    exit code is that of the sorted issues, or the report throws. *)
Lemma run_json (files : Scan.LockFiles)
      (nodeModulesPackages : Obj.t (Obj.t string))
      (allDependencies : JsMap.t (DepInfo.t V))
      (scanStats : Scan.ScanStats) :
  Cli.flag options "json" = true ->
  forallb classified allDependencies = true ->
  let issues := issuesOf allDependencies in
  let results := sorted issues in
  let document :=
    (Scan.printJsonResults results
       (counted (verdicts isIgnoredVerdict allDependencies)
                (verdicts isTrustedVerdict allDependencies) scanStats),
     if MergedOptions.analyzeScripts (MergedOptions.merge options runConfig)
     then suspiciousScriptsOf patterns nodeModulesPackages
     else []) in
  let removed := Scan.critical results ++ Scan.high results in
  exists w',
    printed w' = [document]
    /\ if reportWritable printable writeFails defaultReportPath options
                         issues
       then
         scanPackages files nodeModulesPackages allDependencies scanStats
                      start
         = (w', Exited
                  (if existsb (fun issue =>
                                 failsOn (failLevels runConfig)
                                         (Cli.flag options "strict")
                                         (Issue.severity issue))
                              issues
                   then 1 else 0))
         /\ executed w'
            = (if Cli.flag options "fix" && Cli.flag options "yes"
                  && Nat.ltb 0 (List.length removed)
               then [removeCommand (packageManager files)
                                   (map Issue.package removed)]
               else [])
       else
         executed w' = []
         /\ exists e,
             scanPackages files nodeModulesPackages allDependencies
                          scanStats start
             = (w', Thrown e).
Proof.
  intros Hjson Hall issues results document removed.
  rewrite (scanPackages_sorted files nodeModulesPackages allDependencies
             scanStats start Hall).
  cbv zeta. rewrite Hjson.
  erewrite bind_returned by reflexivity.
  pose proof (classified_levels text printable options db config
                allDependencies Hall) as Hlevels.
  fold issuesOf in Hlevels. fold issues in Hlevels.
  unfold reportWritable at 1.
  rewrite <- (forallb_sorted _ issues Hlevels).
  fold (reportWritable printable writeFails defaultReportPath options
                       (Scan.allIssues (sorted issues))).
  destruct (reportWritable printable writeFails defaultReportPath options
                           (Scan.allIssues (sorted issues))) eqn:Hreport.
  - match goal with
    | |- context [Proc.bind (when _ (generateHtmlReport _ _ _ _ ?r)) _ ?w] =>
        destruct (report_returns r w Hreport) as (w1 & E1 & Hp1 & He1)
    end.
    erewrite bind_returned by exact E1.
    match goal with
    | |- context [Proc.bind (when _ (fixPackages _ _ ?f ?i)) _ ?w] =>
        destruct (fix_returns f i w) as (w2 & E2 & Hp2 & He2)
    end.
    erewrite bind_returned by exact E2.
    rewrite determineExitCode_sorted.
    exists w2. split; [now rewrite Hp2, Hp1|].
    split; [reflexivity|]. now rewrite He2, He1.
  - match goal with
    | |- context [Proc.bind (when _ (generateHtmlReport _ _ _ _ ?r)) _ ?w] =>
        destruct (report_throws r w Hreport) as (e & E1)
    end.
    eexists. split; [|split; [|exists e]].
    3: now erewrite bind_thrown by exact E1.
    + reflexivity.
    + reflexivity.
Qed.

(** The part of the run after the loop, in text mode. *)
Lemma run_text (files : Scan.LockFiles)
      (nodeModulesPackages : Obj.t (Obj.t string))
      (allDependencies : JsMap.t (DepInfo.t V))
      (scanStats : Scan.ScanStats) :
  Cli.flag options "json" = false ->
  let issues := issuesOf allDependencies in
  exists w',
    printed w' = []
    /\ executed w' = []
    /\ if forallb classified allDependencies
          && Nat.eqb (List.length issues) 0
          && reportWritable printable writeFails defaultReportPath options
                            issues
       then scanPackages files nodeModulesPackages allDependencies scanStats
                         start
            = (w', Exited 0)
       else exists e,
           scanPackages files nodeModulesPackages allDependencies scanStats
                        start
           = (w', Thrown e).
Proof.
  intros Hjson issues.
  destruct (forallb classified allDependencies) eqn:Hall; cbn [andb].
  - rewrite (scanPackages_sorted files nodeModulesPackages allDependencies
               scanStats start Hall).
    pose proof (classified_levels text printable options db config
                  allDependencies Hall) as Hlevels.
    fold issuesOf in Hlevels. fold issues in Hlevels.
    cbv zeta. rewrite Hjson. fold issues.
    destruct (Nat.eqb (List.length issues) 0) eqn:Hnone; cbn [andb].
    + unfold printResults. rewrite (totalIssues_sorted _ Hlevels), Hnone.
      erewrite bind_returned by reflexivity.
      apply Nat.eqb_eq in Hnone.
      assert (Hissues : issues = []) by (now destruct issues).
      rewrite Hissues.
      destruct (reportWritable printable writeFails defaultReportPath
                               options []) eqn:Hreport.
      * match goal with
        | |- context [Proc.bind (when _ (generateHtmlReport _ _ _ _ ?r))
                                _ ?w] =>
            destruct (report_returns r w Hreport) as (w1 & E1 & Hp1 & He1)
        end.
        erewrite bind_returned by exact E1.
        match goal with
        | |- context [Proc.bind (when _ (fixPackages _ _ ?f ?i)) _ ?w] =>
            destruct (fix_returns f i w) as (w2 & E2 & Hp2 & He2)
        end.
        erewrite bind_returned by exact E2.
        rewrite determineExitCode_sorted. cbn [existsb].
        exists w2. split; [now rewrite Hp2, Hp1|].
        split; [|reflexivity].
        rewrite He2, He1. cbn. now rewrite !andb_false_r.
      * match goal with
        | |- context [Proc.bind (when _ (generateHtmlReport _ _ _ _ ?r))
                                _ ?w] =>
            destruct (report_throws r w Hreport) as (e & E1)
        end.
        exists start. split; [reflexivity | split; [reflexivity |]].
        exists e. now erewrite bind_thrown by exact E1.
    + destruct (printResults_throws (sorted issues) start) as (e & E).
      { rewrite (totalIssues_sorted _ Hlevels).
        now apply Nat.eqb_neq in Hnone. }
      exists start. split; [reflexivity | split; [reflexivity |]].
      exists e. now erewrite bind_thrown by exact E.
  - rewrite (scanPackages_throws files nodeModulesPackages allDependencies
               scanStats start Hall).
    exists start. split; [reflexivity | split; [reflexivity |]].
    now eexists.
Qed.

End Run.

End ExitFacts.

(* ================================================================== *)
(** ** The process *)
(* ================================================================== *)

Module ProcessFacts.
Import JsString Classifier ClassifierSpec Proc Report RunSpec.
Import ClassificationLoop ExitFacts.

Section Process.
Context {number : Type}.
Variable nonZero : number -> bool.
Variable JSON_parse : string -> option (Json.t number).
Variable arrayPrototype : string -> bool.
Variable writeFails : string -> bool.
Variable commandFails : string -> bool.
Variable defaultReportPath : string.
Variable options : Obj.t Cli.optionValue.
Variable config : Config.t.
Variable runConfig : RunConfig.t.
Variable database : option (ThreatDatabase.t * list string).
Variable packageJson : option (Json.t number).
Variable files : Scan.LockFiles.
Variable nodeModulesPackages : Obj.t (Obj.t string).

Local Abbreviation text := (@Scan.text number).
Local Abbreviation printable := (@Scan.printable number).
Local Abbreviation main :=
  (Report.main nonZero JSON_parse arrayPrototype writeFails commandFails
               defaultReportPath options config runConfig database
               packageJson files nodeModulesPackages).

(** The statistics [scan] starts with count no ignored and no trusted
    package. *)
Lemma collectDependencies_counters (deep : bool)
      (directDependencies : Obj.t (Json.t number))
      (lockedVersions : Scan.Versions) :
  let scanStats :=
    snd (Scan.collectDependencies nonZero JSON_parse arrayPrototype deep
           directDependencies lockedVersions files) in
  Scan.ignored scanStats = 0 /\ Scan.trusted scanStats = 0.
Proof.
  cbv zeta. unfold Scan.collectDependencies.
  destruct deep; [|now split].
  destruct (Scan.loadLockFile nonZero JSON_parse files) as [lockFile|];
    [|now split].
  destruct (Nat.ltb 0 (JsMap.size (Scan.packages lockFile))); now split.
Qed.

Section Scans.
Variable db : ThreatDatabase.t.
Variable patterns : list string.
Variable allDependencies : JsMap.t (DepInfo.t (@Scan.value number)).
Variable scanStats : Scan.ScanStats.
Hypothesis scans :
  Scans nonZero JSON_parse arrayPrototype options runConfig database
        packageJson files db patterns allDependencies scanStats.

Local Abbreviation classified :=
  (RunSpec.classified text printable options db config).
Local Abbreviation issues :=
  (RunSpec.issuesOf text options db config allDependencies).
Local Abbreviation ignored :=
  (RunSpec.verdicts text options db config isIgnoredVerdict allDependencies).
Local Abbreviation trusted :=
  (RunSpec.verdicts text options db config isTrustedVerdict allDependencies).
Local Abbreviation writable :=
  (reportWritable printable writeFails defaultReportPath options issues).

Lemma scans_counters :
  Scan.ignored scanStats = 0 /\ Scan.trusted scanStats = 0.
Proof.
  destruct scans as (_ & _ & _ & manifest & _ & _ & _ & E).
  pose proof (collectDependencies_counters
                (MergedOptions.deep (MergedOptions.merge options runConfig))
                (Manifest.directDependencies manifest)
                (Scan.getLockedVersions nonZero JSON_parse files)) as H.
  cbv zeta in H. now rewrite E in H.
Qed.

(** A process that gets to the loop is the rest of [scan] under the
    handler of [scan().catch]. *)
Lemma main_scans (w : World) :
  main w
  = tryCatch
      (scanPackages text printable writeFails commandFails
                    defaultReportPath options db patterns config runConfig
                    files nodeModulesPackages allDependencies scanStats)
      (fun _ => exit 2) w.
Proof.
  destruct scans as (Hv & Hh & Hdb & manifest & Hm & Ht & Hd & E).
  unfold Report.main, Report.scan.
  rewrite Hv, Hh, Hdb, Hm, Ht. cbn [negb].
  destruct (Manifest.directDependencies manifest) as [|entry rest] eqn:Hdeps;
    [contradiction|].
  cbn [Obj.keys map List.length Nat.eqb].
  rewrite E. reflexivity.
Qed.

(** The process in JSON mode. *)
Lemma main_json :
  Cli.flag options "json" = true ->
  let document :=
    (Scan.printJsonResults (sorted issues) (counted ignored trusted scanStats),
     if MergedOptions.analyzeScripts (MergedOptions.merge options runConfig)
     then suspiciousScriptsOf patterns nodeModulesPackages
     else []) in
  let removed := atLevel "critical" issues ++ atLevel "high" issues in
  exists w',
    main start
    = (w', Exited
             (if forallb classified allDependencies && writable
              then if existsb (fun issue =>
                                 failsOn (failLevels runConfig)
                                         (Cli.flag options "strict")
                                         (Issue.severity issue))
                              issues
                   then 1 else 0
              else 2))
    /\ printed w'
       = (if forallb classified allDependencies then [document] else [])
    /\ executed w'
       = (if forallb classified allDependencies && writable
             && (Cli.flag options "fix" && Cli.flag options "yes"
                 && Nat.ltb 0 (List.length removed))
          then [removeCommand (packageManager files)
                              (map Issue.package removed)]
          else []).
Proof.
  intros Hjson document removed. rewrite main_scans. unfold tryCatch.
  destruct (forallb classified allDependencies) eqn:Hall; cbn [andb].
  - destruct (run_json text printable writeFails commandFails
                defaultReportPath options db patterns config runConfig files
                nodeModulesPackages allDependencies scanStats Hjson Hall)
      as (w' & Hp & Hrun).
    destruct writable.
    + destruct Hrun as (Hrun & He). rewrite Hrun.
      exists w'. split; [reflexivity|]. split; [exact Hp|].
      rewrite He. cbn [sorted Scan.critical Scan.high].
      now destruct (Cli.flag options "fix" && _ && _).
    + destruct Hrun as (He & e & Hrun). rewrite Hrun.
      exists w'. split; [reflexivity|]. now split.
  - rewrite (scanPackages_throws text printable writeFails
               commandFails defaultReportPath options db patterns config
               runConfig files nodeModulesPackages allDependencies scanStats
               start Hall).
    exists start. now repeat split.
Qed.

(** The process in text mode. *)
Lemma main_text :
  Cli.flag options "json" = false ->
  exists w',
    main start
    = (w', Exited
             (if forallb classified allDependencies
                 && Nat.eqb (List.length issues) 0 && writable
              then 0 else 2))
    /\ printed w' = []
    /\ executed w' = [].
Proof.
  intros Hjson. rewrite main_scans. unfold tryCatch.
  destruct (run_text text printable writeFails commandFails
              defaultReportPath options db patterns config runConfig files
              nodeModulesPackages allDependencies scanStats Hjson)
    as (w' & Hp & He & Hrun).
  destruct (forallb classified allDependencies
            && Nat.eqb (List.length issues) 0 && writable).
  - rewrite Hrun. exists w'. now repeat split.
  - destruct Hrun as (e & Hrun). rewrite Hrun. exists w'. now repeat split.
Qed.

End Scans.

(** A process gets to the loop, or leaves before with code 0 or 2,
    having printed no document and run no command. *)
Lemma main_cases :
  (exists code, main start = (start, Exited code) /\ (code = 0 \/ code = 2))
  \/ (exists db patterns allDependencies scanStats,
         Scans nonZero JSON_parse arrayPrototype options runConfig database
               packageJson files db patterns allDependencies scanStats).
Proof.
  unfold Report.main, Report.scan.
  destruct (Cli.flag options "version") eqn:Hv;
    [left; exists 0; now split; [|left]|].
  destruct (Cli.flag options "help") eqn:Hh;
    [left; exists 0; now split; [|left]|].
  unfold tryCatch.
  destruct database as [[db patterns]|] eqn:Hdb;
    [|left; exists 2; now split; [|right]].
  destruct packageJson as [manifest|] eqn:Hm;
    [|left; exists 2; now split; [|right]].
  destruct (Json.truthy nonZero manifest) eqn:Ht; cbn [negb];
    [|left; exists 2; now split; [|right]].
  destruct (Manifest.directDependencies manifest) as [|entry rest] eqn:Hd;
    [left; exists 0; now split; [|left]|].
  right.
  destruct (Scan.collectDependencies nonZero JSON_parse arrayPrototype
              (MergedOptions.deep (MergedOptions.merge options runConfig))
              (Manifest.directDependencies manifest)
              (Scan.getLockedVersions nonZero JSON_parse files) files)
    as [allDependencies scanStats] eqn:E.
  exists db, patterns, allDependencies, scanStats.
  split; [exact Hv|]. split; [exact Hh|]. split; [reflexivity|].
  exists manifest. split; [reflexivity|]. split; [exact Ht|].
  split; [now rewrite Hd | exact E].
Qed.

End Process.

End ProcessFacts.

Module RunProperties.
Import JsString Classifier ClassifierSpec Proc Report RunSpec.
Import StringFacts ClassifierCases ClassificationLoop ExitFacts ProcessFacts.
Import Scenario RunScenario.

(** X19. The loop over the packages, in closed form.  The iteration for
    a node returns when the classifier returns and the issue, if there is
    one, has one of the four severity levels and, in a verbose text run,
    a version that converts to a string.  When every iteration returns,
    the loop returns: the issues are sorted by level, each level in the
    order of the graph, the ignored and the trusted packages are counted,
    and every node is an ignored, a trusted or a clean package, or has an
    issue.  Otherwise the loop throws a TypeError.  Every iteration
    returns when the campaigns declare levels, the versions are strings,
    the classifier reads nothing inherited under the name of a node, and
    the run is not a verbose text run or the versions convert to
    strings. *)
Theorem loop_sorts_the_issues_by_level
        (V : Type) (text : V -> option string) (printable : V -> bool)
        (options : Obj.t Cli.optionValue) (db : ThreatDatabase.t)
        (config : Config.t)
        (allDependencies : JsMap.t (DepInfo.t V))
        (scanStats : Scan.ScanStats) (w : World) :
  let returns :=
    forallb (classified text printable options db config) allDependencies in
  let issues := issuesOf text options db config allDependencies in
  let ignored :=
    verdicts text options db config isIgnoredVerdict allDependencies in
  let trusted :=
    verdicts text options db config isTrustedVerdict allDependencies in
  let clean :=
    verdicts text options db config isCleanVerdict allDependencies in
  classifyAll text printable options db config allDependencies
              (scanStats, Scan.mkResults [] [] [] []) w
  = (w, if returns
        then Returned (counted ignored trusted scanStats, sorted issues)
        else Thrown Js.TypeError)
  /\ (returns = true ->
      ignored + trusted + clean + List.length issues
      = JsMap.size allDependencies)
  /\ (declaresLevels db ->
      (forall entry,
          In entry allDependencies ->
          (exists given, text (DepInfo.version (snd entry)) = Some given)
          /\ readsOwnEntries db entry
          /\ (loud options = false
              \/ printable (DepInfo.version (snd entry)) = true)) ->
      returns = true).
Proof.
  cbv zeta. split; [|split].
  - destruct (forallb (classified text printable options db config)
                      allDependencies) eqn:E.
    + now rewrite (classifyAll_sorted text printable options db config
                     allDependencies scanStats (Scan.mkResults [] [] [] [])
                     w E).
    + now apply classifyAll_throws.
  - apply verdicts_total.
  - intros Hdb Hall. apply forallb_forall. intros entry Hin.
    destruct (Hall entry Hin) as ((given & Htext) & Hown & Hquiet).
    exact (classified_when text printable options db config entry given
             Hdb Htext Hown Hquiet).
Qed.

Lemma loop_sorts_the_issues_by_level_witness :
  classifyAll Some anyText (Cli.options []) depBConfirmed Config.empty graph
              (stats, Scan.mkResults [] [] [] []) start
  = (start,
     Returned
       (stats,
        Scan.mkResults
          [withFinding (baseIssue "dep-b" "2.0.0" (Some viaDepA)) "critical"
             "Confirmed Malicious"
             (Proto.Data "This package has been confirmed as malicious")
             "REMOVE IMMEDIATELY"]
          [] [] []))
  /\ classifyAll Some anyText (Cli.options []) moderate Config.empty graph
                 (stats, Scan.mkResults [] [] [] []) start
     = (start, Thrown Js.TypeError)
  /\ forallb (classified Some anyText (Cli.options []) depBConfirmed
                         Config.empty) graph = true.
Proof.
  split; [|split].
  - exact (proj1 (loop_sorts_the_issues_by_level string Some anyText
                    (Cli.options []) depBConfirmed Config.empty graph stats
                    start)).
  - exact (proj1 (loop_sorts_the_issues_by_level string Some anyText
                    (Cli.options []) moderate Config.empty graph stats
                    start)).
  - apply (proj2 (proj2 (loop_sorts_the_issues_by_level string Some anyText
                           (Cli.options []) depBConfirmed Config.empty graph
                           stats start))).
    + intros id campaign H. destruct H.
    + intros entry Hin. split; [now eexists|]. split.
      * intros id campaign H. destruct H.
      * now left.
Defined.

Section Run.
Context {number : Type}.
Variable nonZero : number -> bool.
Variable JSON_parse : string -> option (Json.t number).
Variable arrayPrototype : string -> bool.
Variable writeFails : string -> bool.
Variable commandFails : string -> bool.
Variable defaultReportPath : string.
Variable options : Obj.t Cli.optionValue.
Variable config : Config.t.
Variable runConfig : RunConfig.t.
Variable database : option (ThreatDatabase.t * list string).
Variable packageJson : option (Json.t number).
Variable files : Scan.LockFiles.
Variable nodeModulesPackages : Obj.t (Obj.t string).
Variable db : ThreatDatabase.t.
Variable patterns : list string.
Variable allDependencies : JsMap.t (DepInfo.t (@Scan.value number)).
Variable scanStats : Scan.ScanStats.

Local Abbreviation text := (@Scan.text number).
Local Abbreviation printable := (@Scan.printable number).
Local Abbreviation main :=
  (Report.main nonZero JSON_parse arrayPrototype writeFails commandFails
               defaultReportPath options config runConfig database
               packageJson files nodeModulesPackages).
Local Abbreviation scans :=
  (Scans nonZero JSON_parse arrayPrototype options runConfig database
         packageJson files db patterns allDependencies scanStats).
Local Abbreviation returns :=
  (forallb (classified text printable options db config) allDependencies).
Local Abbreviation issues := (issuesOf text options db config allDependencies).
Local Abbreviation writable :=
  (reportWritable printable writeFails defaultReportPath options issues).





End Run.

(** The process of the scenario gets to the loop with the graph of the
    manifest. *)
Ltac scenario_scans :=
  split; [reflexivity|]; split; [reflexivity|]; split; [reflexivity|];
  exists packageJson;
  split; [reflexivity|]; split; [reflexivity|];
  split; [discriminate | reflexivity].





End RunProperties.

(* ================================================================== *)
(** ** The direct dependencies of the manifest *)
(* ================================================================== *)

Module ManifestFacts.
Import MapFacts NpmInvariants MergeShape Manifest.

(** *** Defining a property *)

Lemma get_none {X : Type} (k : string) (o : Obj.t X) :
  Obj.get k o = None <-> ~ In k (Obj.keys o).
Proof.
  induction o as [|[k' v'] o IH]; cbn [Obj.get Obj.keys map fst].
  - split; [intros _ [] | reflexivity].
  - destruct (String.eqb k k') eqn:E.
    + apply String.eqb_eq in E. subst k'.
      split; [discriminate | intros H; exfalso; apply H; now left].
    + apply String.eqb_neq in E. rewrite IH. unfold Obj.keys.
      split; [intros H [H' | H']; [congruence | now apply H]
             | intros H H'; apply H; now right].
Qed.

Lemma update_keys {X : Type} (k : string) (v : X) (o : Obj.t X) :
  Obj.keys (Obj.update k v o) = Obj.keys o.
Proof.
  induction o as [|[k' v'] o IH]; [reflexivity|].
  cbn [Obj.update]. destruct (String.eqb k k') eqn:E.
  - apply String.eqb_eq in E. now subst k'.
  - cbn [Obj.keys map fst]. f_equal. exact IH.
Qed.

Lemma update_get_same {X : Type} (k : string) (v w : X) (o : Obj.t X) :
  Obj.get k o = Some w -> Obj.get k (Obj.update k v o) = Some v.
Proof.
  induction o as [|[k' v'] o IH]; [discriminate|].
  cbn [Obj.get Obj.update]. destruct (String.eqb k k') eqn:E.
  - intros _. cbn [Obj.get]. now rewrite String.eqb_refl.
  - intros H. cbn [Obj.get]. rewrite E. now apply IH.
Qed.

Lemma update_get_other {X : Type} (name k : string) (v : X) (o : Obj.t X) :
  name <> k -> Obj.get name (Obj.update k v o) = Obj.get name o.
Proof.
  intros Hne. induction o as [|[k' v'] o IH]; [reflexivity|].
  cbn [Obj.update]. destruct (String.eqb k k') eqn:E.
  - apply String.eqb_eq in E. subst k'. cbn [Obj.get].
    apply String.eqb_neq in Hne. now rewrite Hne.
  - cbn [Obj.get]. now rewrite IH.
Qed.

Lemma insertIndex_In {X : Type} (i : N) (k : string) (v : X) (o : Obj.t X)
      (name : string) :
  In name (Obj.keys (Obj.insertIndex i k v o))
  <-> name = k \/ In name (Obj.keys o).
Proof.
  induction o as [|[k' v'] o IH]; cbn [Obj.insertIndex].
  - cbn. intuition congruence.
  - destruct (Obj.arrayIndex k') as [j|].
    + destruct (i <? j)%N.
      * cbn. intuition congruence.
      * cbn [Obj.keys map fst In]. unfold Obj.keys in IH. rewrite IH.
        cbn. intuition congruence.
    + cbn. intuition congruence.
Qed.

Lemma insertIndex_NoDup {X : Type} (i : N) (k : string) (v : X)
      (o : Obj.t X) :
  ~ In k (Obj.keys o) ->
  NoDup (Obj.keys o) -> NoDup (Obj.keys (Obj.insertIndex i k v o)).
Proof.
  induction o as [|[k' v'] o IH]; cbn [Obj.insertIndex]; intros Hk Hnd.
  - cbn. constructor; [intros [] | constructor].
  - assert (Hcons : NoDup (Obj.keys ((k, v) :: (k', v') :: o)))
      by (cbn [Obj.keys map fst]; now constructor).
    destruct (Obj.arrayIndex k') as [j|]; [|exact Hcons].
    destruct (i <? j)%N; [exact Hcons|].
    cbn [Obj.keys map fst] in *. inversion Hnd as [|? ? Hk' Hnd']; subst.
    constructor.
    + intros H. apply (insertIndex_In i k v o k') in H.
      destruct H as [-> | H]; [apply Hk; now left | now apply Hk'].
    + apply IH; [intros H; apply Hk; now right | exact Hnd'].
Qed.

Lemma insertIndex_get_same {X : Type} (i : N) (k : string) (v : X)
      (o : Obj.t X) :
  Obj.get k o = None -> Obj.get k (Obj.insertIndex i k v o) = Some v.
Proof.
  induction o as [|[k' v'] o IH]; cbn [Obj.insertIndex Obj.get].
  - intros _. now rewrite String.eqb_refl.
  - destruct (String.eqb k k') eqn:E; [discriminate|]. intros Hget.
    destruct (Obj.arrayIndex k') as [j|].
    + destruct (i <? j)%N; cbn [Obj.get].
      * now rewrite String.eqb_refl.
      * rewrite E. now apply IH.
    + cbn [Obj.get]. now rewrite String.eqb_refl.
Qed.

Lemma insertIndex_get_other {X : Type} (i : N) (name k : string) (v : X)
      (o : Obj.t X) :
  name <> k -> Obj.get name (Obj.insertIndex i k v o) = Obj.get name o.
Proof.
  intros Hne. apply String.eqb_neq in Hne.
  induction o as [|[k' v'] o IH]; cbn [Obj.insertIndex Obj.get].
  - now rewrite Hne.
  - destruct (Obj.arrayIndex k') as [j|].
    + destruct (i <? j)%N; cbn [Obj.get]; rewrite ?Hne; [reflexivity|].
      now rewrite IH.
    + cbn [Obj.get]. now rewrite Hne.
Qed.

Lemma append_get {X : Type} (name k : string) (v : X) (o : Obj.t X) :
  Obj.get name (o ++ [(k, v)])
  = match Obj.get name o with
    | Some w => Some w
    | None => if String.eqb name k then Some v else None
    end.
Proof.
  induction o as [|[k' v'] o IH]; [reflexivity|].
  cbn [app Obj.get]. now destruct (String.eqb name k').
Qed.

Lemma define_get_same {X : Type} (k : string) (v : X) (o : Obj.t X) :
  Obj.get k (Obj.define k v o) = Some v.
Proof.
  unfold Obj.define. destruct (Obj.get k o) as [w|] eqn:E.
  - exact (update_get_same k v w o E).
  - destruct (Obj.arrayIndex k) as [i|].
    + now apply insertIndex_get_same.
    + now rewrite append_get, E, String.eqb_refl.
Qed.

Lemma define_get_other {X : Type} (name k : string) (v : X) (o : Obj.t X) :
  name <> k -> Obj.get name (Obj.define k v o) = Obj.get name o.
Proof.
  intros Hne. unfold Obj.define. destruct (Obj.get k o) as [w|] eqn:E.
  - now apply update_get_other.
  - destruct (Obj.arrayIndex k) as [i|].
    + now apply insertIndex_get_other.
    + rewrite append_get. apply String.eqb_neq in Hne. rewrite Hne.
      now destruct (Obj.get name o).
Qed.

Lemma define_NoDup {X : Type} (k : string) (v : X) (o : Obj.t X) :
  NoDup (Obj.keys o) -> NoDup (Obj.keys (Obj.define k v o)).
Proof.
  intros Hnd. unfold Obj.define. destruct (Obj.get k o) as [w|] eqn:E.
  - now rewrite update_keys.
  - apply get_none in E. destruct (Obj.arrayIndex k) as [i|].
    + now apply insertIndex_NoDup.
    + unfold Obj.keys in *. rewrite map_app. cbn [map fst].
      now apply NoDup_snoc.
Qed.

Section Sections.
Context {number : Type}.

Lemma defines_NoDup {X : Type} (entries : list (string * X)) :
  forall target : Obj.t X,
    NoDup (Obj.keys target) ->
    NoDup (Obj.keys
             (fold_left (fun object entry =>
                           Obj.define (fst entry) (snd entry) object)
                        entries target)).
Proof.
  induction entries as [|e entries IH]; intros target H; [exact H|].
  cbn [fold_left]. apply IH. now apply define_NoDup.
Qed.

Lemma spread_NoDup (target : Obj.t (Json.t number))
      (source : option (Json.t number)) :
  NoDup (Obj.keys target) -> NoDup (Obj.keys (spread target source)).
Proof. apply defines_NoDup. Qed.

(** A property of the source hides the one of the target. *)
Lemma defines_get {X : Type} (name : string) (entries : list (string * X)) :
  forall target : Obj.t X,
    Obj.get name
      (fold_left (fun object entry =>
                    Obj.define (fst entry) (snd entry) object)
                 entries target)
    = match Obj.get name
              (fold_left (fun object entry =>
                            Obj.define (fst entry) (snd entry) object)
                         entries [])
      with
      | Some v => Some v
      | None => Obj.get name target
      end.
Proof.
  induction entries as [|[k v] entries IH]; intros target; [reflexivity|].
  cbn [fold_left fst snd].
  rewrite (IH (Obj.define k v target)), (IH (Obj.define k v [])).
  destruct (Obj.get name
              (fold_left (fun object entry =>
                            Obj.define (fst entry) (snd entry) object)
                         entries [])); [reflexivity|].
  destruct (string_dec name k) as [->|Hne].
  - now rewrite !define_get_same.
  - now rewrite !define_get_other by exact Hne.
Qed.

Lemma spread_get (name : string) (target : Obj.t (Json.t number))
      (source : option (Json.t number)) :
  Obj.get name (spread target source)
  = orElse (Obj.get name (only source)) (Obj.get name target).
Proof. apply (defines_get name (ownEntries source) target). Qed.

Lemma directDependencies_NoDup (packageJson : Json.t number) :
  NoDup (Obj.keys (directDependencies packageJson)).
Proof.
  unfold directDependencies. repeat apply spread_NoDup. constructor.
Qed.

End Sections.

(** X24. The direct dependencies of a manifest.  Every name is there
    once, whatever the number of sections that declare it, and its range
    is that of the last of the sections dependencies, devDependencies,
    peerDependencies and optionalDependencies that declares it. *)
Theorem manifest_sections_are_merged
        (number : Type) (packageJson : Json.t number) (name : string) :
  NoDup (Obj.keys (directDependencies packageJson))
  /\ Obj.get name (directDependencies packageJson)
     = orElse
         (Obj.get name (only (section packageJson "optionalDependencies")))
         (orElse
            (Obj.get name (only (section packageJson "peerDependencies")))
            (orElse
               (Obj.get name (only (section packageJson "devDependencies")))
               (Obj.get name (only (section packageJson "dependencies"))))).
Proof.
  split.
  - unfold directDependencies. repeat apply spread_NoDup. constructor.
  - unfold directDependencies. rewrite !spread_get. cbn [Obj.get].
    now destruct (Obj.get name (only (section packageJson "dependencies"))).
Qed.

Lemma manifest_sections_are_merged_witness :
  Obj.keys (directDependencies ManifestScenario.twice) = ["dep-a"; "dep-c"]
  /\ NoDup (Obj.keys (directDependencies ManifestScenario.twice))
  /\ Obj.get "dep-a" (directDependencies ManifestScenario.twice)
     = Some (Json.Str "^2.0.0").
Proof.
  split; [reflexivity|].
  destruct (manifest_sections_are_merged nat ManifestScenario.twice "dep-a")
    as [Hnd Hget].
  split; [exact Hnd | exact Hget].
Defined.

End ManifestFacts.

(* ================================================================== *)
(** ** The chains of a version 1 package-lock.json *)
(* ================================================================== *)

Module TreeFacts.
Import MapFacts NpmSpec NpmInvariants NpmTree.

Section Tree.
Context {number : Type}.
Variable nonZero : number -> bool.

Lemma ret_records (P : string -> LockEntry.t (Json.t number) -> Prop)
      {A : Type} (a : A) : Records P (Js.ret a).
Proof. intros m name entry H. now left. Qed.

Lemma throw_records (P : string -> LockEntry.t (Json.t number) -> Prop)
      {A : Type} (e : Js.error) : Records P (@Js.throw _ A e).
Proof. intros m name entry H. now left. Qed.

Lemma bind_records (P : string -> LockEntry.t (Json.t number) -> Prop)
      {A B : Type} (c : Npm.M A) (k : A -> Npm.M B) :
  Records P c -> (forall a, Records P (k a)) -> Records P (Js.bind c k).
Proof.
  intros Hc Hk m name entry H. unfold Js.bind in H.
  specialize (Hc m name entry). destruct (c m) as [m' [a|e]].
  - destruct (Hk a m' name entry H) as [H' | H']; [|now right].
    now apply Hc.
  - now apply Hc.
Qed.

Lemma set_records (P : string -> LockEntry.t (Json.t number) -> Prop)
      (k : string) (v : LockEntry.t (Json.t number)) :
  P k v -> Records P (Js.modify (JsMap.set k v)).
Proof.
  intros Hv m name entry H. cbn in H.
  destruct (string_dec name k) as [->|Hne].
  - rewrite get_set_same in H. inversion H; subst. now right.
  - rewrite get_set_other in H by exact Hne. now left.
Qed.

Lemma records_weaken (P Q : string -> LockEntry.t (Json.t number) -> Prop)
      {A : Type} (c : Npm.M A) :
  (forall name entry, P name entry -> Q name entry) ->
  Records P c -> Records Q c.
Proof.
  intros HPQ Hc m name entry H.
  destruct (Hc m name entry H) as [H' | H']; [now left | right; now apply HPQ].
Qed.

Lemma forEach_records (P : string -> LockEntry.t (Json.t number) -> Prop)
      {X : Type} (xs : list X) (body : X -> Npm.M unit) :
  (forall x, In x xs -> Records P (body x)) ->
  Records P (Js.forEach xs body).
Proof.
  induction xs as [|x xs IH]; intros H; cbn [Js.forEach].
  - apply ret_records.
  - apply bind_records; [apply H; now left|].
    intros _. apply IH. intros y Hy. apply H. now right.
Qed.

Lemma records_ext (P : string -> LockEntry.t (Json.t number) -> Prop)
      {A : Type} (c c' : Npm.M A) :
  (forall m, c m = c' m) -> Records P c' -> Records P c.
Proof. intros Hext Hc m name entry H. rewrite Hext in H. now apply Hc. Qed.

(** One entry of a dependencies object: the entry itself under [chain],
    then what the nested call records under [chain] and its name. *)
Lemma readDependency_records
      (Q : string -> LockEntry.t (Json.t number) -> Prop)
      (chain : list string) (name : string) (info : Json.t number)
      (nestedCall : option (list string -> Npm.M unit)) :
  (forall recurse,
      nestedCall = Some recurse -> Records Q (recurse (chain ++ [name]))) ->
  Records (fun n e => (n = name /\ Recorded nonZero chain info e) \/ Q n e)
          (Npm.readDependency nonZero chain name info nestedCall).
Proof.
  intros Hnested.
  destruct (Json.prop info "version") as [version|e] eqn:Hversion.
  - apply (records_ext _ _
             (Js.bind
                (Js.modify
                   (JsMap.set name
                      {| LockEntry.version :=
                           Json.orElse nonZero version (Json.Str "unknown");
                         LockEntry.isTransitive :=
                           negb (Nat.eqb (List.length chain) 0);
                         LockEntry.dependencyChain := chain |}))
                (fun _ =>
                   match nestedCall with
                   | Some recurse => recurse (chain ++ [name])
                   | None => Js.ret tt
                   end))).
    + intros m. unfold Npm.readDependency, Npm.versionOf, Js.bind.
      rewrite Hversion. reflexivity.
    + apply bind_records.
      * apply set_records. left. split; [reflexivity|].
        repeat split. now exists version.
      * intros _. destruct nestedCall as [recurse|].
        -- apply (records_weaken Q); [intros n e H; now right|].
           now apply Hnested.
        -- apply ret_records.
  - intros m n entry H. left.
    unfold Npm.readDependency, Npm.versionOf, Js.bind in H.
    rewrite Hversion in H. exact H.
Qed.

(** An entry found under a package of [deps] is in the tree of
    [deps]. *)
Lemma InTree_nested (deps : Json.t number)
      (entries : list (string * Json.t number))
      (parent : string) (parentInfo deeper : Json.t number)
      (chain : list string) (name : string)
      (entry : LockEntry.t (Json.t number)) :
  Json.entries deps = Js.Normal entries ->
  In (parent, parentInfo) entries ->
  nested nonZero parentInfo = Some deeper ->
  InTree nonZero deeper (chain ++ [parent]) name entry ->
  InTree nonZero deps chain name entry.
Proof.
  intros He Hin Hn (path & info & Hat & Hrec).
  exists (parent :: path), info. split.
  - exact (AtNested nonZero deps entries parent parentInfo deeper path
             name info He Hin Hn Hat).
  - rewrite <- List.app_assoc in Hrec. exact Hrec.
Qed.

Lemma InTree_top (deps : Json.t number)
      (entries : list (string * Json.t number))
      (chain : list string) (name : string) (info : Json.t number)
      (entry : LockEntry.t (Json.t number)) :
  Json.entries deps = Js.Normal entries ->
  In (name, info) entries ->
  Recorded nonZero chain info entry ->
  InTree nonZero deps chain name entry.
Proof.
  intros He Hin Hrec. exists [], info. split.
  - exact (AtTop nonZero deps entries name info He Hin).
  - now rewrite app_nil_r.
Qed.

(** What the loop records for one entry of [deps] is in the tree of
    [deps]. *)
Lemma entry_records (deps : Json.t number)
      (entries : list (string * Json.t number))
      (chain : list string) (name : string) (info : Json.t number) :
  Json.entries deps = Js.Normal entries ->
  In (name, info) entries ->
  (forall recurse,
      Npm.nestedOf nonZero info = Some recurse ->
      exists deeper,
        nested nonZero info = Some deeper
        /\ forall chain',
            Records (InTree nonZero deeper chain') (recurse chain')) ->
  Records (InTree nonZero deps chain)
          (Npm.readDependency nonZero chain name info
                              (Npm.nestedOf nonZero info)).
Proof.
  intros He Hin Hnested.
  destruct (Npm.nestedOf nonZero info) as [recurse|] eqn:E.
  - destruct (Hnested recurse eq_refl) as (deeper & Hd & Hrec).
    apply (records_weaken
             (fun n e =>
                (n = name /\ Recorded nonZero chain info e)
                \/ InTree nonZero deeper (chain ++ [name]) n e)).
    + intros n e [[-> Hr] | Ht].
      * exact (InTree_top deps entries chain name info e He Hin Hr).
      * exact (InTree_nested deps entries name info deeper chain n e
                 He Hin Hd Ht).
    + apply readDependency_records. intros r Hr. inversion Hr; subst.
      apply Hrec.
  - apply (records_weaken
             (fun n e =>
                (n = name /\ Recorded nonZero chain info e) \/ False)).
    + intros n e [[-> Hr] | []].
      exact (InTree_top deps entries chain name info e He Hin Hr).
    + apply readDependency_records. discriminate.
Qed.

(** The walk over a dependencies object records entries of its tree
    only, and so does the call that [nestedOf] prepares. *)
Lemma tree_records (deps : Json.t number) :
  (forall chain,
      Records (InTree nonZero deps chain)
              (Npm.parseNpmDependencies nonZero deps chain))
  /\ (forall recurse,
         Npm.nestedOf nonZero deps = Some recurse ->
         exists deeper,
           nested nonZero deps = Some deeper
           /\ forall chain,
               Records (InTree nonZero deeper chain) (recurse chain)).
Proof.
  induction deps as [| b | n | s | items IH | fields IH]
    using json_induction.
  - split; [intros chain; apply throw_records | discriminate].
  - split; [intros chain; apply ret_records | discriminate].
  - split; [intros chain; apply ret_records | discriminate].
  - split; [|discriminate]. intros chain. cbn [Npm.parseNpmDependencies].
    apply forEach_records. intros [name info] Hin. cbn [fst snd].
    apply (records_weaken
             (fun n e =>
                (n = name /\ Recorded nonZero chain info e) \/ False)).
    + intros n e [[-> Hr] | []].
      exact (InTree_top (Json.Str s) _ chain name info e eq_refl Hin Hr).
    + apply readDependency_records. discriminate.
  - split; [|discriminate]. intros chain. cbn [Npm.parseNpmDependencies].
    match goal with
    | |- NpmTree.Records ?P (?loop 0 items) =>
        cut (forall i rest,
                (forall e, In e (Json.indexed i rest) ->
                           In e (Json.indexed 0 items)) ->
                Forall
                  (fun v =>
                     (forall chain,
                         Records (InTree nonZero v chain)
                                 (Npm.parseNpmDependencies nonZero v chain))
                     /\ (forall recurse,
                            Npm.nestedOf nonZero v = Some recurse ->
                            exists deeper,
                              nested nonZero v = Some deeper
                              /\ forall chain,
                                  Records (InTree nonZero deeper chain)
                                          (recurse chain)))
                  rest ->
                NpmTree.Records P (loop i rest));
          [intros H; apply (H 0 items); [auto | exact IH] |]
    end.
    intros i rest. revert i.
    induction rest as [|info rest IHrest]; intros i Hsub Hall.
    + apply ret_records.
    + inversion Hall as [|? ? Hinfo Hrest]; subst.
      apply bind_records.
      * apply (entry_records (Json.Arr items) (Json.indexed 0 items) chain
                 (Json.indexKey i) info eq_refl).
        -- apply Hsub. now left.
        -- exact (proj2 Hinfo).
      * intros _. apply IHrest; [|exact Hrest].
        intros e He. apply Hsub. now right.
  - split.
    + intros chain. cbn [Npm.parseNpmDependencies].
      match goal with
      | |- NpmTree.Records ?P (?loop fields) =>
          cut (forall rest,
                  (forall e, In e rest -> In e fields) ->
                  Forall
                    (fun field =>
                       (forall chain,
                           Records (InTree nonZero (snd field) chain)
                                   (Npm.parseNpmDependencies nonZero
                                      (snd field) chain))
                       /\ (forall recurse,
                              Npm.nestedOf nonZero (snd field) = Some recurse ->
                              exists deeper,
                                nested nonZero (snd field) = Some deeper
                                /\ forall chain,
                                    Records (InTree nonZero deeper chain)
                                            (recurse chain)))
                    rest ->
                  NpmTree.Records P (loop rest));
            [intros H; apply (H fields); [auto | exact IH] |]
      end.
      intros rest.
      induction rest as [|[name info] rest IHrest]; intros Hsub Hall.
      * apply ret_records.
      * inversion Hall as [|? ? Hinfo Hrest]; subst.
        apply bind_records.
        -- apply (entry_records (Json.Object fields) fields chain name info
                    eq_refl).
           ++ apply Hsub. now left.
           ++ exact (proj2 Hinfo).
        -- intros _. apply IHrest; [|exact Hrest].
           intros e He. apply Hsub. now right.
    + cbn [Npm.nestedOf nested].
      induction IH as [|[key value] fields Hvalue _ IHfields];
        [discriminate|].
      intros recurse. cbn [Obj.get].
      destruct (String.eqb "dependencies" key).
      * destruct (Json.truthy nonZero value); [|discriminate].
        intros H. inversion H; subst. exists value.
        split; [reflexivity | exact (proj1 Hvalue)].
      * apply IHfields.
Qed.


End Tree.

(** X25. In the version 1 format of package-lock.json, what the walk over
    [dependencies] records for a name is an entry of the tree: its chain
    is the chain the walk started with followed by the names of the
    packages the entry is nested in, the outermost first, it is flagged
    transitive exactly when that chain is not empty, and its version is
    its [version] property, or [unknown].  With no [packages] property in
    the lock file, every entry the decoder returns is of that kind. *)
Theorem nested_tree_chain_is_the_ancestor_names
        (number : Type) (nonZero : number -> bool)
        (JSON_parse : string -> option (Json.t number))
        (deps : Json.t number) :
  (forall (chain : list string)
          (m : JsMap.t (LockEntry.t (Json.t number)))
          (name : string) (entry : LockEntry.t (Json.t number)),
      JsMap.get name (fst (Npm.parseNpmDependencies nonZero deps chain m))
      = Some entry ->
      JsMap.get name m = Some entry
      \/ InTree nonZero deps chain name entry)
  /\ (forall (content : string) (top : list (string * Json.t number)),
         JSON_parse content = Some (Json.Object top) ->
         Obj.get "packages" top = None ->
         Obj.get "dependencies" top = Some deps ->
         exists decoded,
           Npm.parseNpmLock nonZero JSON_parse content = Js.Normal decoded
           /\ forall name entry,
               JsMap.get name decoded = Some entry ->
               InTree nonZero deps [] name entry).
Proof.
  split.
  - intros chain m name entry H.
    exact (proj1 (tree_records nonZero deps) chain m name entry H).
  - intros content top Hparse Hpackages Hdeps.
    rewrite parseNpmLock_state. eexists. split; [reflexivity|].
    intros name entry H.
    unfold Npm.parseNpmLockBody in H. rewrite Hparse in H.
    cbn [Npm.lift Json.prop] in H. rewrite Hpackages, Hdeps in H.
    unfold Js.bind, Js.ret in H. cbn [fst snd] in H.
    destruct (Json.truthy nonZero deps).
    + destruct (proj1 (tree_records nonZero deps) [] JsMap.empty name entry H)
        as [H' | H']; [discriminate H' | exact H'].
    + discriminate H.
Qed.

Lemma nested_tree_chain_is_the_ancestor_names_witness :
  exists entry,
    JsMap.get "b"
      (fst (Npm.parseNpmDependencies LockScenario.nonZero
              TreeScenario.nestedDependencies [] JsMap.empty))
    = Some entry
    /\ LockEntry.dependencyChain entry = ["a"]
    /\ LockEntry.isTransitive entry = true
    /\ InTree LockScenario.nonZero TreeScenario.nestedDependencies []
              "b" entry.
Proof.
  eexists. split; [reflexivity|]. split; [reflexivity|].
  split; [reflexivity|].
  destruct (proj1 (nested_tree_chain_is_the_ancestor_names nat
                     LockScenario.nonZero LockScenario.parseScenario
                     TreeScenario.nestedDependencies)
              [] JsMap.empty "b" _ eq_refl) as [H | H];
    [discriminate H | exact H].
Defined.

End TreeFacts.

(* ================================================================== *)
(** ** The scan without lock data *)
(* ================================================================== *)

Module FallbackFacts.
Import JsString Graph MapFacts ScanFacts.

Section Collect.
Context {number : Type}.
Variable nonZero : number -> bool.
Variable JSON_parse : string -> option (Json.t number).
Variable arrayPrototype : string -> bool.

(** The locked versions are those of the lock file a deep scan loads. *)
Lemma loaded_versions (files : Scan.LockFiles) (lockFile : Scan.LockFile) :
  Scan.loadLockFile nonZero JSON_parse files = Some lockFile ->
  Scan.getLockedVersions nonZero JSON_parse files
  = Scan.versionsOf (Scan.packages lockFile).
Proof.
  destruct files as [[| |p] [| |n] [| |y]];
    unfold Scan.getLockedVersions, Scan.loadLockFile, Scan.detectLockFile;
    cbn [Scan.lockedVersionsFrom Scan.lockFileTable find Scan.fileOf
         Scan.existsLock Scan.infoType Scan.infoFilename
         Scan.pnpmLockYaml Scan.packageLockJson Scan.yarnLock];
    unfold Scan.readAndDecode, Scan.readLock;
    cbn [Scan.fileOf Js.andThen
         Scan.pnpmLockYaml Scan.packageLockJson Scan.yarnLock Scan.decode];
    try discriminate;
    try (destruct (DecoderTotality.parseNpmLock_returns
                     nonZero JSON_parse n) as [decoded E]; rewrite E);
    intros H; inversion H; subst; reflexivity.
Qed.

(** Without a lock file there is no locked version. *)
Lemma no_file_no_versions (files : Scan.LockFiles) :
  Scan.detectLockFile files = None ->
  Scan.getLockedVersions nonZero JSON_parse files = Scan.noVersions.
Proof.
  destruct files as [[| |p] [| |n] [| |y]];
    unfold Scan.getLockedVersions, Scan.detectLockFile;
    cbn [Scan.lockedVersionsFrom Scan.lockFileTable find Scan.fileOf
         Scan.existsLock Scan.infoType Scan.infoFilename
         Scan.pnpmLockYaml Scan.packageLockJson Scan.yarnLock];
    intros H; try discriminate H; reflexivity.
Qed.

(** Without lock data there is no locked version, unless the first lock
    file that exists could not be loaded. *)
Lemma no_locked_versions (files : Scan.LockFiles) :
  ScanSpec.noLockData nonZero JSON_parse files ->
  (Scan.loadLockFile nonZero JSON_parse files = None ->
   Scan.detectLockFile files = None) ->
  Scan.getLockedVersions nonZero JSON_parse files = Scan.noVersions.
Proof.
  intros [Hnone | (lockFile & Hsome & Hsize)] Hfirst.
  - apply no_file_no_versions. exact (Hfirst Hnone).
  - rewrite (loaded_versions files lockFile Hsome).
    now rewrite (size_zero _ Hsize).
Qed.

(** Without lock data the scan builds the nodes of its direct
    dependencies, whether or not it is a deep scan. *)
Lemma collectDependencies_fallback (deep : bool)
      (directDependencies : Obj.t (Json.t number))
      (lockedVersions : Scan.Versions) (files : Scan.LockFiles) :
  ScanSpec.noLockData nonZero JSON_parse files ->
  Scan.collectDependencies nonZero JSON_parse arrayPrototype deep
                           directDependencies lockedVersions files
  = (Scan.directOnly nonZero arrayPrototype lockedVersions
                     directDependencies,
     Scan.mkScanStats (List.length (Obj.keys directDependencies))
                      (List.length (Obj.keys directDependencies)) 0 None 0 0).
Proof.
  intros Hno. unfold Scan.collectDependencies.
  destruct deep; [|reflexivity].
  destruct Hno as [-> | (lockFile & -> & Hsize)];
    [reflexivity | now rewrite Hsize].
Qed.

(** What the object [versions] has under a name when nothing was assigned
    to it. *)
Lemma lockedOr_noVersions (name : string) (declared : Json.t number) :
  Proto.inherited name = None ->
  Scan.lockedOr nonZero arrayPrototype Scan.noVersions name declared
  = Scan.Parsed declared.
Proof.
  intros H. unfold Scan.lockedOr, Scan.lookup, Scan.noVersions.
  cbn [Scan.own Scan.prototype Obj.get Scan.inherit]. now rewrite H.
Qed.

Lemma get_nodes {X Y : Type} (f : string -> X -> Y)
      (entries : Obj.t X) (name : string) :
  JsMap.get name (map (fun entry => (fst entry, f (fst entry) (snd entry)))
                      entries)
  = match Obj.get name entries with
    | Some v => Some (f name v)
    | None => None
    end.
Proof.
  unfold JsMap.get.
  induction entries as [|[k v] entries IH]; [reflexivity|].
  cbn [map fst snd Obj.get]. destruct (String.eqb name k) eqn:E; [|exact IH].
  apply String.eqb_eq in E. now subst k.
Qed.

End Collect.

End FallbackFacts.

Module FallbackProperties.
Import JsString Classifier ClassifierSpec Graph Proc Report RunSpec ScanSpec.
Import ClassificationLoop ExitFacts ProcessFacts ManifestFacts FallbackFacts.
Import ScanCounts.
Import Scenario RunScenario.


Section Run.
Context {number : Type}.
Variable nonZero : number -> bool.
Variable JSON_parse : string -> option (Json.t number).
Variable arrayPrototype : string -> bool.
Variable writeFails : string -> bool.
Variable commandFails : string -> bool.
Variable defaultReportPath : string.
Variable options : Obj.t Cli.optionValue.
Variable config : Config.t.
Variable runConfig : RunConfig.t.
Variable db : ThreatDatabase.t.
Variable patterns : list string.
Variable manifest : Json.t number.
Variable files : Scan.LockFiles.
Variable nodeModulesPackages : Obj.t (Obj.t string).

Local Abbreviation text := (@Scan.text number).
Local Abbreviation printable := (@Scan.printable number).
Local Abbreviation main :=
  (Report.main nonZero JSON_parse arrayPrototype writeFails commandFails
               defaultReportPath options config runConfig
               (Some (db, patterns)) (Some manifest) files
               nodeModulesPackages).
Local Abbreviation directDependencies :=
  (Manifest.directDependencies manifest).
Local Abbreviation lockedVersions :=
  (Scan.getLockedVersions nonZero JSON_parse files).
Local Abbreviation seed :=
  (map (fun entry : string * Json.t number =>
          (fst entry,
           directNode (Scan.lockedOr nonZero arrayPrototype lockedVersions
                                     (fst entry) (snd entry))))
       directDependencies).


End Run.


End FallbackProperties.

(* ================================================================== *)
(** ** The end of the process, and names [Object.prototype] defines *)
(* ================================================================== *)

Module ProcessProperties.
Import JsString Classifier Spec ClassifierSpec Proc Report RunSpec.
Import DetectionFacts ClassificationLoop ExitFacts ProcessFacts.
Import Scenario RunScenario.


(** X27. A name that [Object.prototype] defines is taken for an entry of
    [affectedVersions].  Take a node that no ignore or trusted pattern
    matches and that is in no malicious category and no protestware tier,
    and a campaign, passed over by none before it, whose
    [affectedVersions] is an object without a property of the name of
    the node, a name that [Object.prototype] defines.  The classifier
    reads the inherited value as the list of versions: a function without
    parameters, as under [toString] or [valueOf], has length 0 and makes
    every version affected, so that the node gets the issue of the
    campaign, critical when its name is not in the packages of the
    campaign; every other inherited value, as under [constructor], makes
    the classifier throw a TypeError. *)
Theorem inherited_name_is_taken_for_an_entry
        (V W : Type) (text : V -> option string)
        (ignoreList : list string) (name : string) (version : V)
        (db : ThreatDatabase.t) (depInfo : option (DepInfo.t W))
        (config : Config.t)
        (earlier later : Obj.t Campaign.t) (id : string)
        (campaign : Campaign.t) (listed : Obj.t (list string))
        (b : Proto.builtin) :
  isIgnored ignoreList name config = false ->
  isTrusted name db config = false ->
  inNoCategory name db ->
  inNoTier name db ->
  campaignsOf db = earlier ++ (id, campaign) :: later ->
  inNoCampaign name earlier ->
  noVersionListed text name version earlier ->
  Campaign.affectedVersions campaign = Some listed ->
  Obj.get name listed = None ->
  Proto.inherited name = Some b ->
  checkPackage text ignoreList name version db depInfo config
  = match Proto.length b with
    | Some 0 =>
        Js.Normal
          (Found
             (if optIncludes (Campaign.packages campaign) name
              then campaignIssue (baseIssue name version depInfo) id
                                 campaign (Some (Proto.Builtin b))
              else versionIssue name version id campaign
                                (Proto.Builtin b)))
    | _ => Js.Throw Js.TypeError
    end.
Proof.
  intros Hign Htr Hcat Htier Hcs Hpk Hv Hav Hown Hb.
  rewrite (checkPackage_campaigns text) by assumption.
  rewrite Hcs, checkCampaigns_skip_all by assumption.
  cbn [checkCampaigns]. unfold campaignVersions, Obj.read.
  rewrite Hav, Hown, Hb.
  unfold versionIsSafe, isVersionAffected, lengthIsZero, versionsInclude.
  destruct (optIncludes (Campaign.packages campaign) name);
    destruct (Proto.length b) as [[|n]|]; cbn [Js.andThen negb];
    try reflexivity; destruct (text version); reflexivity.
Qed.

Lemma inherited_name_is_taken_for_an_entry_witness :
  checkPackage Some [] "toString" "1.0.0" listsNothing noMetadata
               Config.empty
  = Js.Normal
      (Found (versionIssue "toString" "1.0.0" "c1" listsNothingCampaign
                           (Proto.Builtin (Proto.Function Proto.ToString))))
  /\ checkPackage Some [] "constructor" "1.0.0" constructorMember noMetadata
                  Config.empty
     = Js.Throw Js.TypeError.
Proof.
  split.
  - refine (inherited_name_is_taken_for_an_entry string string Some []
              "toString" "1.0.0" listsNothing noMetadata Config.empty []
              [] "c1" listsNothingCampaign []
              (Proto.Function Proto.ToString) _ _ _ _ _ _ _ _ _ _);
      try reflexivity;
      try (now repeat split);
      intros ? ? ? [].
  - refine (inherited_name_is_taken_for_an_entry string string Some []
              "constructor" "1.0.0" constructorMember noMetadata
              Config.empty [] [] "c1" constructorCampaign []
              (Proto.Function Proto.Constructor) _ _ _ _ _ _ _ _ _ _);
      try reflexivity;
      try (now repeat split);
      intros ? ? ? [].
Defined.

End ProcessProperties.
